(** * CP2 POS System: the mutating handlers of Server/server.js

    A shallow embedding of the server's stock adjustment, sale commit,
    member registration and points update handlers over an explicit model
    of the MySQL connection they talk to, and the properties of the
    specification proved (or refuted) on it. *)

From Stdlib Require Import ZArith QArith String Ascii List Lia Bool.
From Stdlib Require Import DecimalString DecimalN Permutation.
Import ListNotations.

Open Scope string_scope.
Open Scope list_scope.
Open Scope Z_scope.

Set Implicit Arguments.
Set Warnings "-register-all".

(** ** JavaScript numbers of the identifier allocator

    [parseInt], [+ 1] and [String] of the allocator act on IEEE binary64
    values.  The only values that can arise there are NaN, the
    non-negative integers that binary64 represents, and +Infinity; an
    integer-valued double is kept as its exact value in [Z], with the
    rounding of every operation written out. *)
Module Num.

Inductive number : Type :=
| NaN
| Fin (z : Z)
| PosInf.

(** Round a non-negative integer to the nearest binary64 value, ties to
    the even significand; 2^1024 and above overflow to Infinity. *)
Definition round53 (z : Z) : number :=
  if z <? 2 ^ 53 then Fin z
  else
    let e := Z.log2 z - 52 in
    let q := Z.shiftr z e in
    let r := z - Z.shiftl q e in
    let half := Z.shiftl 1 (e - 1) in
    let q' := if (half <? r) || ((r =? half) && Z.odd q) then q + 1 else q in
    let v := Z.shiftl q' e in
    if 2 ^ 1024 <=? v then PosInf else Fin v.

(** [isNaN(n)]. *)
Definition isNaN (n : number) : bool :=
  match n with NaN => true | _ => false end.

(** [a > b]. *)
Definition gt (a b : number) : bool :=
  match a, b with
  | NaN, _ | _, NaN => false
  | Fin x, Fin y => y <? x
  | PosInf, Fin _ => true
  | PosInf, PosInf => false
  | Fin _, PosInf => false
  end.

(** [n + 1]. *)
Definition succ (n : number) : number :=
  match n with
  | NaN => NaN
  | Fin z => round53 (z + 1)
  | PosInf => PosInf
  end.

(** Decimal digits of a non-negative integer. *)
Definition decimal (z : Z) : string :=
  NilZero.string_of_uint (N.to_uint (Z.to_N z)).

Definition digit_val (c : ascii) : Z := Z.of_nat (nat_of_ascii c) - 48.

Definition is_digit (c : ascii) : bool :=
  (48 <=? Z.of_nat (nat_of_ascii c)) && (Z.of_nat (nat_of_ascii c) <=? 57).

(** Value of the leading decimal digits of [s], read left to right from
    [acc]; [seen] tells whether a digit was read. *)
Fixpoint leading_digits (s : string) (acc : Z) (seen : bool) : option Z :=
  match s with
  | String c r =>
      if is_digit c then leading_digits r (10 * acc + digit_val c) true
      else if seen then Some acc else None
  | EmptyString => if seen then Some acc else None
  end.

(** [parseInt(s, 10)] on a string that starts with its digits (the only
    strings the allocator passes: the text matched by [/\d+/]). *)
Definition parseInt (s : string) : number :=
  match leading_digits s 0 false with
  | Some z => round53 z
  | None => NaN
  end.

Definition reads_back (v x : Z) : bool :=
  match round53 v with Fin y => y =? x | _ => false end.

(** The decimal with the fewest significant digits that reads back as
    the double [x] (of [p] digits), tried from [k] digits on. *)
Fixpoint shortest (fuel : nat) (k p x : Z) : Z :=
  match fuel with
  | O => x
  | S f =>
      let unit := 10 ^ (p - k) in
      let lo := (x / unit) * unit in
      let hi := lo + unit in
      match reads_back lo x, reads_back hi x with
      | true, true =>
          if x - lo <? hi - x then lo
          else if hi - x <? x - lo then hi
          else if Z.even (lo / unit) then lo else hi
      | true, false => lo
      | false, true => hi
      | false, false => shortest f (k + 1) p x
      end
  end.

Fixpoint strip_zeros_rev (s : list ascii) : list ascii :=
  match s with
  | c :: r => if Ascii.eqb c "0" then strip_zeros_rev r else s
  | [] => []
  end.

Definition strip_trailing_zeros (s : string) : string :=
  string_of_list_ascii (rev (strip_zeros_rev (rev (list_ascii_of_string s)))).

(** Exponent notation of [String(x)] for an integer double of 22 digits
    or more. *)
Definition exponential (x : Z) : string :=
  let p := Z.of_nat (String.length (decimal x)) in
  let v := shortest 17 1 p x in
  let all := decimal v in
  let e := Z.of_nat (String.length all) - 1 in
  match strip_trailing_zeros all with
  | String d EmptyString => String d ("e+" ++ decimal e)
  | String d rest => String d ("." ++ rest ++ "e+" ++ decimal e)
  | EmptyString => "0"
  end.

(** [String(n)]: the fewest significant digits that read back as [n],
    filled up with zeros below 10^21 and in exponent notation from there
    on.  Below 2^53 every integer is a double of its own, and those
    digits are all its digits. *)
Definition toString (n : number) : string :=
  match n with
  | NaN => "NaN"
  | PosInf => "Infinity"
  | Fin z =>
      if z <? 2 ^ 53 then decimal z
      else if z <? 10 ^ 21
           then decimal (shortest 17 1 (Z.of_nat (String.length (decimal z)))
                           z)
           else exponential z
  end.

End Num.

(** [s.padStart(n, c)] for a one-character filler. *)
Fixpoint repeat_char (c : ascii) (n : nat) : string :=
  match n with
  | O => EmptyString
  | S k => String c (repeat_char c k)
  end.

Definition padStart (s : string) (n : nat) (c : ascii) : string :=
  (repeat_char c (n - String.length s) ++ s)%string.

(** ** JSON values of request bodies, statement parameters and columns

    A finite double is a rational number, and [JSON.parse] yields no
    NaN; a number is kept as that rational (a literal too large for a
    double, which parses to Infinity, is left out). *)
Inductive value : Type :=
| VUndef
| VNull
| VBool (b : bool)
| VNum (q : Q)
| VStr (s : string)
| VArr (l : list value)
| VObj (fields : list (string * value)).

Definition vint (z : Z) : value := VNum (inject_Z z).

(** [typeof v === 'number']. *)
Definition is_number (v : value) : bool :=
  match v with VNum _ => true | _ => false end.

(** [ToBoolean(v)]: the operand test of [!], [||] and [if]. *)
Definition truthy (v : value) : bool :=
  match v with
  | VUndef | VNull => false
  | VBool b => b
  | VNum q => negb (Qeq_bool q 0)
  | VStr s => negb (String.eqb s "")
  | VArr _ | VObj _ => true
  end.

(** [a || b]. *)
Definition js_or (a b : value) : value := if truthy a then a else b.

(** [v < 0] for [v] a number. *)
Definition lt_zero (v : value) : bool :=
  match v with
  | VNum q => negb (Qle_bool 0 q)
  | _ => false
  end.

(** [v.name]: reading a property throws a TypeError on [undefined] and
    [null] ([None]).  The handlers read only [id], [quantity], [price],
    [discount], [pointsEarned], [newTotalPoints] and the fields they
    destructure from the body; none of them is a property of an array, a
    string, a number or a boolean. *)
Fixpoint lookup (name : string) (fields : list (string * value)) : value :=
  match fields with
  | (k, v) :: r => if String.eqb k name then v else lookup name r
  | [] => VUndef
  end.

Definition get_prop (v : value) (name : string) : option value :=
  match v with
  | VUndef | VNull => None
  | VObj fields => Some (lookup name fields)
  | _ => Some VUndef
  end.

(** A string of the model holds the UTF-8 bytes of the JavaScript
    string.  A byte of the form 10xxxxxx continues the code point begun
    before it. *)
Definition is_continuation (c : ascii) : bool :=
  (128 <=? nat_of_ascii c)%nat && (nat_of_ascii c <? 192)%nat.

(** The code points of a string, each with its bytes. *)
Fixpoint code_points (s : string) : list string :=
  match s with
  | EmptyString => []
  | String c r =>
      match r with
      | String c' _ =>
          if is_continuation c' then
            match code_points r with
            | x :: xs => String c x :: xs
            | [] => [String c ""]
            end
          else String c "" :: code_points r
      | EmptyString => [String c ""]
      end
  end.

(** The elements [for (const x of v)] visits; [None] when [v] is not
    iterable.  A string is iterated code point by code point. *)
Definition iterate (v : value) : option (list value) :=
  match v with
  | VArr l => Some l
  | VStr s => Some (map VStr (code_points s))
  | _ => None
  end.

(** [s.match(/\d+/)]: the first maximal run of decimal digits, [None]
    for [null]. *)
Fixpoint take_digits (s : string) : string :=
  match s with
  | String c r => if Num.is_digit c then String c (take_digits r) else ""
  | EmptyString => ""
  end.

Fixpoint match_digits (s : string) : option string :=
  match s with
  | String c r =>
      if Num.is_digit c then Some (String c (take_digits r))
      else match_digits r
  | EmptyString => None
  end.

(** ** Identifier allocation (POST /api/members, lines 417-434) *)

(** One round of the [forEach]; [None] is the TypeError of [.match] on a
    [member_id] that is not a string. *)
Definition scan_member (maxNumber : Num.number) (member_id : value)
  : option Num.number :=
  match member_id with
  | VStr s =>
      match match_digits s with
      | Some matched =>
          let num := Num.parseInt matched in
          if negb (Num.isNaN num) && Num.gt num maxNumber then Some num
          else Some maxNumber
      | None => Some maxNumber
      end
  | _ => None
  end.

Fixpoint scan_members (maxNumber : Num.number) (ids : list value)
  : option Num.number :=
  match ids with
  | [] => Some maxNumber
  | id :: r =>
      match scan_member maxNumber id with
      | Some m => scan_members m r
      | None => None
      end
  end.

Definition nextMemberId (ids : list value) : option string :=
  match scan_members (Num.Fin 0) ids with
  | Some maxNumber =>
      let nextNumber := Num.succ maxNumber in
      Some ("M" ++ padStart (Num.toString nextNumber) 3 "0")%string
  | None => None
  end.

(** The allocator as the specification words it, on exact integers. *)
Definition digit_run_value (id : string) : Z :=
  match match_digits id with
  | Some run =>
      match Num.leading_digits run 0 false with Some z => z | None => 0 end
  | None => 0
  end.

Definition max_digit_run (ids : list string) : Z :=
  fold_right Z.max 0 (map digit_run_value ids).

Definition spec_nextMemberId (ids : list string) : string :=
  ("M" ++ padStart (Num.decimal (max_digit_run ids + 1)) 3 "0")%string.

(** ** The tables

    A row keeps, per column the handlers name, the value bound to it.
    The schema (column types, keys, collations) is not part of the
    server's source: a stored value is the bound parameter, a rejected
    statement is a fault of the engine (see [fails] below), and the
    comparison of a [WHERE] clause is a parameter of the model. *)
Record InventoryRow : Type := mkInventory {
  inv_id : value;
  inv_stock : value;
  inv_columns : list (string * value)   (* the other columns of SELECT * *)
}.

Record StockHistoryRow : Type := mkStockHistory {
  sh_inventory_id : value;
  sh_old_quantity : value;
  sh_new_quantity : value;
  sh_change_reason : value
}.

Record SaleRow : Type := mkSale {
  s_id : value;
  s_transaction_id : value;
  s_customer_name : value;
  s_member_id : value;
  s_payment_method : value;
  s_subtotal : value;
  s_discount : value;
  s_sst : value;
  s_total_amount : value
}.

Record SaleItemRow : Type := mkSaleItem {
  si_sale_id : value;
  si_product_id : value;
  si_quantity : value;
  si_price_per_unit : value;
  si_discount_percentage : value
}.

Record PointsHistoryRow : Type := mkPointsHistory {
  ph_member_id : value;
  ph_sale_id : value;
  ph_points_earned : value;
  ph_points_balance : value
}.

Record MemberRow : Type := mkMember {
  m_member_id : value;
  m_name : value;
  m_email : value;
  m_phone : value;
  m_tier : value;
  m_points : value;
  m_join_date : value;
  m_total_spent : value
}.

Record TierRow : Type := mkTier {
  t_tier_name : value;
  t_points_multiplier : value
}.

Record DB : Type := mkDB {
  inventory : list InventoryRow;
  stock_history : list StockHistoryRow;
  sales : list SaleRow;
  sales_items : list SaleItemRow;
  member_points_history : list PointsHistoryRow;
  members : list MemberRow;
  membership_tiers : list TierRow
}.

(** The columns compared by the [WHERE] and [ON] clauses. *)
Inductive column : Type :=
| inventory_id
| members_member_id
| tiers_tier_name.

(** The statements of the four handlers, with their bound parameters. *)
Inductive stmt : Type :=
| SelectInventoryById (id : value)
| UpdateInventoryStock (stock id : value)
| InsertStockHistory (inventory_id old_quantity new_quantity reason : value)
| InsertSale (transaction_id customer_name member_id payment_method
              subtotal discount sst total_amount : value)
| InsertSaleItem (sale_id product_id quantity price_per_unit
                  discount_percentage : value)
| InsertPointsHistory (member_id sale_id points_earned points_balance : value)
| UpdateMemberPoints (points member_id : value)
| SelectMemberIds
| InsertMember (member_id name email phone tier points total_spent : value)
| SelectMemberWithTier (member_id : value).

Definition is_write (s : stmt) : bool :=
  match s with
  | SelectInventoryById _ | SelectMemberIds | SelectMemberWithTier _ => false
  | _ => true
  end.

Inductive op : Type :=
| GetConnection
| BeginTransaction
| Commit
| Rollback
| Query (s : stmt).

(** One call of the driver: what was called, whether it succeeded, and
    the committed tables (what any other connection reads) after it. *)
Record event : Type := mkEvent {
  ev_op : op;
  ev_ok : bool;
  ev_seen : DB
}.

(** The connection and the engine behind it.  [pending] is the view of
    the open transaction, if one is open.  The AUTO_INCREMENT counter of
    [sales] belongs to the engine and is not rolled back. *)
Record Conn : Type := mkConn {
  committed : DB;
  pending : option DB;
  next_sale_id : Z;
  calls : nat;
  released : bool;
  trace : list event
}.

(** A connection as the pool first hands it out: no transaction open,
    nothing called yet. *)
Definition fresh (d : DB) (sale_id : Z) : Conn :=
  mkConn d None sale_id 0 false [].

(** The tables the connection reads and writes. *)
Definition view (c : Conn) : DB :=
  match pending c with Some w => w | None => committed c end.

(** A write goes to the open transaction, or straight to the committed
    tables under autocommit. *)
Definition write (f : DB -> DB) (c : Conn) : Conn :=
  match pending c with
  | Some w => mkConn (committed c) (Some (f w)) (next_sale_id c) (calls c)
                     (released c) (trace c)
  | None => mkConn (f (committed c)) None (next_sale_id c) (calls c)
                   (released c) (trace c)
  end.

(** ** Exceptions and the handler monad

    A handler that ends in [Throw] is an [async] function whose promise
    is rejected: no answer is sent. *)
Inductive exn : Type :=
| TypeError
| StorageError
| Error (message : string).

Inductive outcome (A : Type) : Type :=
| Ret (a : A)
| Throw (e : exn).
Arguments Throw {A} e.

Definition M (A : Type) : Type := Conn -> outcome A * Conn.

Definition ret {A} (a : A) : M A := fun c => (Ret a, c).

Definition throw {A} (e : exn) : M A := fun c => (Throw e, c).

Definition bind {A B} (m : M A) (k : A -> M B) : M B :=
  fun c =>
    match m c with
    | (Ret a, c') => k a c'
    | (Throw e, c') => (Throw e, c')
    end.

Notation "x <- m ;; k" := (bind m (fun x => k))
  (at level 61, m at next level, right associativity).
Notation "m ;; k" := (bind m (fun _ => k))
  (at level 61, right associativity).

(** [try { body } catch (error) { handler }]. *)
Definition try_catch {A} (body : M A) (handler : exn -> M A) : M A :=
  fun c =>
    match body c with
    | (Ret a, c') => (Ret a, c')
    | (Throw e, c') => handler e c'
    end.

(** [... finally { cleanup }], for a cleanup that does not throw. *)
Definition finally {A} (body : M A) (cleanup : Conn -> Conn) : M A :=
  fun c => let (r, c') := body c in (r, cleanup c').

Definition lift {A} (o : option A) : M A :=
  match o with Some a => ret a | None => throw TypeError end.

Definition prop (v : value) (name : string) : M value :=
  lift (get_prop v name).

Fixpoint for_each {A} (l : list A) (f : A -> M unit) : M unit :=
  match l with
  | [] => ret tt
  | x :: r => f x ;; for_each r f
  end.

(** [connection.release()]. *)
Definition release (c : Conn) : Conn :=
  mkConn (committed c) (pending c) (next_sale_id c) (calls c) true (trace c).

(** The driver binds [undefined] as NULL.  It splices an array or an
    object into the text of the statement; the model keeps such a
    parameter as the value of its column. *)
Definition bound (v : value) : value :=
  match v with VUndef => VNull | _ => v end.

(** ** Responses *)
Inductive body : Type :=
| BError (error : string)
| BRegisterFailed (error : exn)   (* error, details: error.message, stack *)
| BItem (row : option InventoryRow)
| BSale (message : string) (saleId transactionId : value)
| BMember (row : option (MemberRow * value))
| BSuccess.

Record response : Type := mkResponse {
  status : Z;
  payload : body
}.

(** Table updates. *)
Definition set_stock (eq : value -> value -> bool) (stock id : value) (d : DB)
  : DB :=
  mkDB (map (fun r => if eq (inv_id r) id
                      then mkInventory (inv_id r) stock (inv_columns r)
                      else r) (inventory d))
       (stock_history d) (sales d) (sales_items d) (member_points_history d)
       (members d) (membership_tiers d).

Definition add_stock_history (r : StockHistoryRow) (d : DB) : DB :=
  mkDB (inventory d) (stock_history d ++ [r]) (sales d) (sales_items d)
       (member_points_history d) (members d) (membership_tiers d).

Definition add_sale (r : SaleRow) (d : DB) : DB :=
  mkDB (inventory d) (stock_history d) (sales d ++ [r]) (sales_items d)
       (member_points_history d) (members d) (membership_tiers d).

Definition add_sale_item (r : SaleItemRow) (d : DB) : DB :=
  mkDB (inventory d) (stock_history d) (sales d) (sales_items d ++ [r])
       (member_points_history d) (members d) (membership_tiers d).

Definition add_points_history (r : PointsHistoryRow) (d : DB) : DB :=
  mkDB (inventory d) (stock_history d) (sales d) (sales_items d)
       (member_points_history d ++ [r]) (members d) (membership_tiers d).

Definition set_points (eq : value -> value -> bool) (points id : value)
  (d : DB) : DB :=
  mkDB (inventory d) (stock_history d) (sales d) (sales_items d)
       (member_points_history d)
       (map (fun r => if eq (m_member_id r) id
                      then mkMember (m_member_id r) (m_name r) (m_email r)
                             (m_phone r) (m_tier r) points (m_join_date r)
                             (m_total_spent r)
                      else r) (members d))
       (membership_tiers d).

Definition add_member (r : MemberRow) (d : DB) : DB :=
  mkDB (inventory d) (stock_history d) (sales d) (sales_items d)
       (member_points_history d) (members d ++ [r]) (membership_tiers d).

Section Engine.

(** What the schema and the environment fix: the comparison of a column
    with a value, the order of [ORDER BY member_id ASC], the result of
    [CURDATE()]; and which calls of the driver fail, by their position in
    the run.  A call that fails throws and changes nothing: a rejected
    statement writes no row, a failed [commit] commits nothing and a
    failed [rollback] leaves the transaction open. *)
Variable col_eq : column -> value -> value -> bool.
Variable order_by_member_id : list MemberRow -> list MemberRow.
Variable curdate : value.
Variable fails : nat -> bool.

Definition log (o : op) (ok : bool) (c : Conn) : Conn :=
  mkConn (committed c) (pending c) (next_sale_id c) (calls c) (released c)
         (trace c ++ [mkEvent o ok (committed c)]).

Definition tick (c : Conn) : Conn :=
  mkConn (committed c) (pending c) (next_sale_id c) (S (calls c))
         (released c) (trace c).

Definition call {A} (o : op) (run : Conn -> A * Conn) : M A :=
  fun c =>
    if fails (calls c) then (Throw StorageError, log o false (tick c))
    else let (a, c') := run (tick c) in (Ret a, log o true c').

(** [pool.getConnection()]. *)
Definition getConnection : M unit :=
  call GetConnection (fun c => (tt, c)).

(** [connection.beginTransaction()]: START TRANSACTION commits a
    transaction left open on the connection. *)
Definition beginTransaction : M unit :=
  call BeginTransaction
    (fun c => (tt, mkConn (view c) (Some (view c)) (next_sale_id c) (calls c)
                          (released c) (trace c))).

(** [connection.commit()]. *)
Definition commit : M unit :=
  call Commit
    (fun c => (tt, mkConn (view c) None (next_sale_id c) (calls c)
                          (released c) (trace c))).

(** [connection.rollback()]. *)
Definition rollback : M unit :=
  call Rollback
    (fun c => (tt, mkConn (committed c) None (next_sale_id c) (calls c)
                          (released c) (trace c))).

(** SELECT * FROM inventory WHERE id = ? *)
Definition select_inventory (id : value) : M (list InventoryRow) :=
  call (Query (SelectInventoryById (bound id)))
    (fun c => (filter (fun r => col_eq inventory_id (inv_id r) (bound id))
                      (inventory (view c)), c)).

(** UPDATE inventory SET stock = ? WHERE id = ? *)
Definition update_stock (stock id : value) : M unit :=
  call (Query (UpdateInventoryStock (bound stock) (bound id)))
    (fun c => (tt, write (set_stock (col_eq inventory_id) (bound stock)
                                    (bound id)) c)).

(** INSERT INTO stock_history (inventory_id, old_quantity, new_quantity,
    change_reason) VALUES (?, ?, ?, ?) *)
Definition insert_stock_history (id old new reason : value) : M unit :=
  call (Query (InsertStockHistory (bound id) (bound old) (bound new)
                                  (bound reason)))
    (fun c => (tt, write (add_stock_history
                            (mkStockHistory (bound id) (bound old) (bound new)
                                            (bound reason))) c)).

(** INSERT INTO sales (...) VALUES (?, ?, ?, ?, ?, ?, ?, ?); the result
    carries [insertId]. *)
Definition insert_sale (transaction_id customer_name member_id payment_method
                        subtotal discount sst total_amount : value) : M value :=
  call (Query (InsertSale (bound transaction_id) (bound customer_name)
                 (bound member_id) (bound payment_method) (bound subtotal)
                 (bound discount) (bound sst) (bound total_amount)))
    (fun c =>
       let insertId := vint (next_sale_id c) in
       let c' := write (add_sale
                          (mkSale insertId (bound transaction_id)
                             (bound customer_name) (bound member_id)
                             (bound payment_method) (bound subtotal)
                             (bound discount) (bound sst)
                             (bound total_amount))) c in
       (insertId, mkConn (committed c') (pending c') (next_sale_id c + 1)
                         (calls c') (released c') (trace c'))).

(** INSERT INTO sales_items (sale_id, product_id, quantity,
    price_per_unit, discount_percentage) VALUES (?, ?, ?, ?, ?) *)
Definition insert_sale_item (sale_id product_id quantity price discount : value)
  : M unit :=
  call (Query (InsertSaleItem (bound sale_id) (bound product_id)
                 (bound quantity) (bound price) (bound discount)))
    (fun c => (tt, write (add_sale_item
                            (mkSaleItem (bound sale_id) (bound product_id)
                               (bound quantity) (bound price)
                               (bound discount))) c)).

(** INSERT INTO member_points_history (member_id, sale_id, points_earned,
    points_balance) VALUES (?, ?, ?, ?) *)
Definition insert_points_history (member_id sale_id earned balance : value)
  : M unit :=
  call (Query (InsertPointsHistory (bound member_id) (bound sale_id)
                 (bound earned) (bound balance)))
    (fun c => (tt, write (add_points_history
                            (mkPointsHistory (bound member_id) (bound sale_id)
                               (bound earned) (bound balance))) c)).

(** UPDATE members SET points = ? WHERE member_id = ? *)
Definition update_member_points (points member_id : value) : M unit :=
  call (Query (UpdateMemberPoints (bound points) (bound member_id)))
    (fun c => (tt, write (set_points (col_eq members_member_id) (bound points)
                                     (bound member_id)) c)).

(** SELECT member_id FROM members ORDER BY member_id ASC *)
Definition select_member_ids : M (list value) :=
  call (Query SelectMemberIds)
    (fun c => (map m_member_id (order_by_member_id (members (view c))), c)).

(** INSERT INTO members (member_id, name, email, phone, tier, points,
    join_date, total_spent) VALUES (?, ?, ?, ?, ?, ?, CURDATE(), ?) *)
Definition insert_member (member_id name email phone tier points total_spent
                          : value) : M unit :=
  call (Query (InsertMember (bound member_id) (bound name) (bound email)
                 (bound phone) (bound tier) (bound points)
                 (bound total_spent)))
    (fun c => (tt, write (add_member
                            (mkMember (bound member_id) (bound name)
                               (bound email) (bound phone) (bound tier)
                               (bound points) curdate (bound total_spent))) c)).

(** SELECT m.*, t.points_multiplier FROM members m LEFT JOIN
    membership_tiers t ON m.tier = t.tier_name WHERE m.member_id = ? *)
Definition left_join_tier (tiers : list TierRow) (m : MemberRow)
  : list (MemberRow * value) :=
  match filter (fun t => col_eq tiers_tier_name (t_tier_name t) (m_tier m))
               tiers with
  | [] => [(m, VNull)]
  | ts => map (fun t => (m, t_points_multiplier t)) ts
  end.

Definition select_member_with_tier (member_id : value)
  : M (list (MemberRow * value)) :=
  call (Query (SelectMemberWithTier (bound member_id)))
    (fun c =>
       (flat_map (left_join_tier (membership_tiers (view c)))
          (filter (fun m => col_eq members_member_id (m_member_id m)
                                   (bound member_id))
                  (members (view c))), c)).

(** ** PATCH /api/inventory/:id/stock (lines 105-154) *)
Definition adjustStock (id : string) (req_body : value) : M response :=
  getConnection ;;
  finally
    (try_catch
       (beginTransaction ;;
        newQuantity <- prop req_body "newQuantity" ;;
        reason <- prop req_body "reason" ;;
        if negb (is_number newQuantity) || lt_zero newQuantity then
          ret (mkResponse 400 (BError "Invalid quantity"))
        else
          currentItem <- select_inventory (VStr id) ;;
          match currentItem with
          | [] =>
              rollback ;;
              ret (mkResponse 404 (BError "Item not found"))
          | item :: _ =>
              update_stock newQuantity (VStr id) ;;
              insert_stock_history (VStr id) (inv_stock item) newQuantity
                                   reason ;;
              commit ;;
              updatedItem <- select_inventory (VStr id) ;;
              ret (mkResponse 200 (BItem (hd_error updatedItem)))
          end)
       (fun error =>
          rollback ;;
          ret (mkResponse 500 (BError "Failed to update stock level"))))
    release.

(** ** POST /api/sales (lines 235-296) *)
Definition insert_item (saleId item : value) : M unit :=
  item_id <- prop item "id" ;;
  quantity <- prop item "quantity" ;;
  price <- prop item "price" ;;
  discount <- prop item "discount" ;;
  insert_sale_item saleId item_id quantity price (js_or discount (vint 0)).

Definition commitSale (req_body : value) : M response :=
  getConnection ;;
  finally
    (try_catch
       (beginTransaction ;;
        transactionId <- prop req_body "transactionId" ;;
        customerName <- prop req_body "customerName" ;;
        memberId <- prop req_body "memberId" ;;
        paymentMethod <- prop req_body "paymentMethod" ;;
        items <- prop req_body "items" ;;
        subtotal <- prop req_body "subtotal" ;;
        discount <- prop req_body "discount" ;;
        sst <- prop req_body "sst" ;;
        totalAmount <- prop req_body "totalAmount" ;;
        memberDetails <- prop req_body "memberDetails" ;;
        saleId <- insert_sale transactionId customerName (js_or memberId VNull)
                    paymentMethod subtotal discount sst totalAmount ;;
        elements <- lift (iterate items) ;;
        for_each elements (insert_item saleId) ;;
        (if truthy memberDetails then
           pointsEarned <- prop memberDetails "pointsEarned" ;;
           newTotalPoints <- prop memberDetails "newTotalPoints" ;;
           insert_points_history memberId saleId pointsEarned newTotalPoints ;;
           newTotalPoints' <- prop memberDetails "newTotalPoints" ;;
           update_member_points newTotalPoints' memberId
         else ret tt) ;;
        commit ;;
        ret (mkResponse 201
               (BSale "Sale recorded successfully" saleId transactionId)))
       (fun error =>
          rollback ;;
          ret (mkResponse 500 (BError "Failed to record sale"))))
    release.

(** ** PATCH /api/members/:id/points (lines 351-363); [pool.query] runs
    the statement on a pooled connection under autocommit. *)
Definition updatePoints (id : string) (req_body : value) : M response :=
  points <- prop req_body "points" ;;
  try_catch
    (update_member_points points (VStr id) ;;
     ret (mkResponse 200 BSuccess))
    (fun error => ret (mkResponse 500 (BError "Failed to update points"))).

(** ** POST /api/members (lines 400-468) *)
Definition createMember (req_body : value) : M response :=
  name <- prop req_body "name" ;;
  email <- prop req_body "email" ;;
  phone <- prop req_body "phone" ;;
  tier <- prop req_body "tier" ;;
  getConnection ;;
  finally
    (try_catch
       (if negb (truthy name) || negb (truthy email) || negb (truthy phone)
           || negb (truthy tier) then
          throw (Error "Name, email, phone and tier are required")
        else
          allMembers <- select_member_ids ;;
          memberId <- lift (nextMemberId allMembers) ;;
          insert_member (VStr memberId) name email phone tier (vint 0)
                        (vint 0) ;;
          newMember <- select_member_with_tier (VStr memberId) ;;
          ret (mkResponse 201 (BMember (hd_error newMember))))
       (fun error => ret (mkResponse 500 (BRegisterFailed error))))
    release.

(** ** The four mutating operations of the interface *)
Inductive request : Type :=
| AdjustStock (id : string) (req_body : value)
| CommitSale (req_body : value)
| UpdatePoints (id : string) (req_body : value)
| CreateMember (req_body : value).

Definition handle (r : request) : M response :=
  match r with
  | AdjustStock id b => adjustStock id b
  | CommitSale b => commitSale b
  | UpdatePoints id b => updatePoints id b
  | CreateMember b => createMember b
  end.

End Engine.

(** The fields of a body, as the handlers destructure them. *)
Definition field (b : value) (name : string) : value :=
  match get_prop b name with Some v => v | None => VUndef end.

Definition has_fields (b : value) : bool :=
  match b with VUndef | VNull => false | _ => true end.

(** The guard of line 112. *)
Definition quantity_rejected (b : value) : bool :=
  negb (is_number (field b "newQuantity")) || lt_zero (field b "newQuantity").

(** The guard of line 409. *)
Definition member_fields_missing (b : value) : bool :=
  negb (truthy (field b "name")) || negb (truthy (field b "email"))
  || negb (truthy (field b "phone")) || negb (truthy (field b "tier")).

(** The requests a handler turns down for their input: [adjustStock] a
    quantity that is not a number or is below zero, [createMember] a body
    with a falsy name, email, phone or tier; the other two handlers check
    nothing. *)
Definition fails_validation (r : request) : bool :=
  match r with
  | AdjustStock _ b => has_fields b && quantity_rejected b
  | CreateMember b => has_fields b && member_fields_missing b
  | CommitSale _ | UpdatePoints _ _ => false
  end.

(** A comparison for running the model: equal values match, NULL matches
    nothing. *)
Fixpoint value_eqb (a b : value) {struct a} : bool :=
  match a, b with
  | VUndef, VUndef => true
  | VNull, VNull => true
  | VBool x, VBool y => Bool.eqb x y
  | VNum x, VNum y => Qeq_bool x y
  | VStr x, VStr y => String.eqb x y
  | VArr x, VArr y =>
      (fix all2 (l1 l2 : list value) : bool :=
         match l1, l2 with
         | [], [] => true
         | u :: r1, v :: r2 => value_eqb u v && all2 r1 r2
         | _, _ => false
         end) x y
  | VObj x, VObj y =>
      (fix all2 (l1 l2 : list (string * value)) : bool :=
         match l1, l2 with
         | [], [] => true
         | (k1, u) :: r1, (k2, v) :: r2 =>
             String.eqb k1 k2 && value_eqb u v && all2 r1 r2
         | _, _ => false
         end) x y
  | _, _ => false
  end.

Definition sql_eq (_ : column) (a b : value) : bool :=
  match a, b with
  | VNull, _ | _, VNull => false
  | _, _ => value_eqb a b
  end.

Definition no_fault (_ : nat) : bool := false.

(** ORDER BY member_id ASC for running the model: NULL and other
    non-strings first, strings in binary order. *)
Definition id_leb (a b : value) : bool :=
  match a, b with
  | VStr x, VStr y => String.leb x y
  | VStr _, _ => false
  | _, _ => true
  end.

Fixpoint insert_member_sorted (m : MemberRow) (l : list MemberRow)
  : list MemberRow :=
  match l with
  | [] => [m]
  | x :: r =>
      if id_leb (m_member_id m) (m_member_id x) then m :: l
      else x :: insert_member_sorted m r
  end.

Definition sort_by_member_id (l : list MemberRow) : list MemberRow :=
  fold_right insert_member_sorted [] l.

(** ** What the handlers write, in terms of the request *)

(** The row [insert_item] binds for one element of [items]. *)
Definition sale_item_row (saleId item : value) : SaleItemRow :=
  mkSaleItem (bound saleId) (bound (field item "id"))
    (bound (field item "quantity")) (bound (field item "price"))
    (bound (js_or (field item "discount") (vint 0))).

Definition add_sale_items (rows : list SaleItemRow) (d : DB) : DB :=
  mkDB (inventory d) (stock_history d) (sales d) (sales_items d ++ rows)
       (member_points_history d) (members d) (membership_tiers d).

(** The header row of the sale with surrogate identifier [n]. *)
Definition sale_row (n : Z) (b : value) : SaleRow :=
  mkSale (vint n) (bound (field b "transactionId"))
    (bound (field b "customerName")) (bound (js_or (field b "memberId") VNull))
    (bound (field b "paymentMethod")) (bound (field b "subtotal"))
    (bound (field b "discount")) (bound (field b "sst"))
    (bound (field b "totalAmount")).

Definition points_row (n : Z) (b : value) : PointsHistoryRow :=
  mkPointsHistory (bound (field b "memberId")) (vint n)
    (bound (field (field b "memberDetails") "pointsEarned"))
    (bound (field (field b "memberDetails") "newTotalPoints")).

(** The tables after the sale [b] over [elements] is committed on [d]. *)
Definition sale_recorded (col_eq : column -> value -> value -> bool) (n : Z)
  (b : value) (elements : list value) (d : DB) : DB :=
  let md := field b "memberDetails" in
  mkDB (inventory d) (stock_history d)
       (sales d ++ [sale_row n b])
       (sales_items d ++ map (sale_item_row (vint n)) elements)
       (if truthy md then member_points_history d ++ [points_row n b]
        else member_points_history d)
       (if truthy md
        then members (set_points (col_eq members_member_id)
                        (bound (field md "newTotalPoints"))
                        (bound (field b "memberId")) d)
        else members d)
       (membership_tiers d).

Definition matching_items (col_eq : column -> value -> value -> bool)
  (id : string) (d : DB) : list InventoryRow :=
  filter (fun r => col_eq inventory_id (inv_id r) (VStr id)) (inventory d).

(** The tables after the adjustment [b] of the item [id], whose first
    matching row was [item], is committed on [d]. *)
Definition stock_adjusted (col_eq : column -> value -> value -> bool)
  (id : string) (b : value) (item : InventoryRow) (d : DB) : DB :=
  add_stock_history
    (mkStockHistory (VStr id) (bound (inv_stock item))
       (bound (field b "newQuantity")) (bound (field b "reason")))
    (set_stock (col_eq inventory_id) (bound (field b "newQuantity")) (VStr id)
       d).

(** The statements a run sent to the engine, in order, and the writes
    among them. *)
Definition issued (c : Conn) : list stmt :=
  flat_map (fun e => match ev_op e with Query s => [s] | _ => [] end)
           (trace c).

Definition writes_issued (c : Conn) : list stmt := filter is_write (issued c).

Definition is_begin (e : event) : bool :=
  match ev_op e with BeginTransaction => true | _ => false end.

(** Whether the run called [beginTransaction]. *)
Definition transaction_begun (c : Conn) : bool := existsb is_begin (trace c).

(** The last call of the run, when it was a call that failed. *)
Definition failed_last (c : Conn) : option op :=
  match rev (trace c) with
  | e :: _ => if ev_ok e then None else Some (ev_op e)
  | [] => None
  end.

(** Whether the INSERT into [sales] was sent and accepted. *)
Definition is_sale_insert (e : event) : bool :=
  match ev_op e with
  | Query (InsertSale _ _ _ _ _ _ _ _) => ev_ok e
  | _ => false
  end.

Definition sale_inserted (c : Conn) : bool :=
  existsb is_sale_insert (trace c).

(** Whole numbers, and the ranges the data model names. *)
Definition whole_number (q : Q) : bool := (Qden (Qred q) =? 1)%positive.

Definition nonneg_number (v : value) : bool :=
  match v with VNum q => Qle_bool 0 q | _ => false end.

Definition nonneg_integer (v : value) : bool :=
  match v with VNum q => Qle_bool 0 q && whole_number q | _ => false end.

Definition balances_ok (d : DB) : bool :=
  forallb (fun m => nonneg_integer (m_points m)) (members d).

(** What a request carries where its handler reads the balance to store,
    [undefined] when the body has nothing there; [None] for a request
    whose handler writes no balance. *)
Definition points_supplied (r : request) : option value :=
  match r with
  | UpdatePoints _ b => Some (field b "points")
  | CommitSale b =>
      if truthy (field b "memberDetails")
      then Some (field (field b "memberDetails") "newTotalPoints")
      else None
  | AdjustStock _ _ | CreateMember _ => None
  end.

(** The identifier whose members that balance is written to. *)
Definition points_target (r : request) : value :=
  match r with
  | UpdatePoints id _ => VStr id
  | CommitSale b => bound (field b "memberId")
  | AdjustStock _ _ | CreateMember _ => VNull
  end.

(** The points-history entries that refer to the sale [n]. *)
Definition entries_for_sale (n : Z) (h : list PointsHistoryRow)
  : list PointsHistoryRow :=
  filter (fun r => value_eqb (ph_sale_id r) (vint n)) h.

(** ** Reasoning about runs

    [hoare P m Q E]: from a connection in [P], the run of [m] ends in [Q]
    when it returns and in [E] when it throws. *)
Definition hoare {A} (P : Conn -> Prop) (m : M A) (Q : A -> Conn -> Prop)
  (E : exn -> Conn -> Prop) : Prop :=
  forall c, P c ->
    match m c with
    | (Ret a, c') => Q a c'
    | (Throw e, c') => E e c'
    end.

(** What other connections can have read: the committed tables now and
    after every call so far are in [Vis]. *)
Definition Obs (Vis : DB -> Prop) (c : Conn) : Prop :=
  Vis (committed c) /\ Forall (fun e => Vis (ev_seen e)) (trace c).

(** The state of the connection: committed tables, open transaction and
    counter, with everything observable so far in [Vis]. *)
Definition St (Vis : DB -> Prop) (cm : DB) (p : option DB) (n : Z) (c : Conn)
  : Prop :=
  Obs Vis c /\ committed c = cm /\ pending c = p /\ next_sale_id c = n.

Definition sale_committed (col_eq : column -> value -> value -> bool)
  (b : value) (d : DB) (n : Z) (r : response) (c : Conn) : Prop :=
  exists elements,
    iterate (field b "items") = Some elements /\
    r = mkResponse 201 (BSale "Sale recorded successfully" (vint n)
                          (field b "transactionId")) /\
    St (fun x => x = d \/ x = sale_recorded col_eq n b elements d)
       (sale_recorded col_eq n b elements d) None (n + 1) c.

(** What other connections can read during and after an adjustment. *)
Definition adjust_visible (col_eq : column -> value -> value -> bool)
  (id : string) (b : value) (d : DB) (x : DB) : Prop :=
  x = d \/
  exists item rest,
    quantity_rejected b = false /\
    matching_items col_eq id d = item :: rest /\
    x = stock_adjusted col_eq id b item d.

(** The four ways [adjustStock] answers. *)
Definition stock_response (col_eq : column -> value -> value -> bool)
  (id : string) (b : value) (d : DB) (n : Z) (r : response) (c : Conn)
  : Prop :=
  (quantity_rejected b = true /\
   r = mkResponse 400 (BError "Invalid quantity") /\
   St (eq d) d (Some d) n c)
  \/
  (quantity_rejected b = false /\ matching_items col_eq id d = [] /\
   r = mkResponse 404 (BError "Item not found") /\
   St (eq d) d None n c)
  \/
  (exists item rest,
      quantity_rejected b = false /\
      matching_items col_eq id d = item :: rest /\
      r = mkResponse 200
            (BItem (hd_error (matching_items col_eq id
                                (stock_adjusted col_eq id b item d))))
      /\
      St (adjust_visible col_eq id b d) (stock_adjusted col_eq id b item d)
         None n c)
  \/
  (r = mkResponse 500 (BError "Failed to update stock level") /\
   Obs (adjust_visible col_eq id b d) c).

(** ** Sample data *)
Module Sample.

Definition pen : InventoryRow :=
  mkInventory (VStr "1") (vint 5) [("name", VStr "Pen"); ("sku", VStr "P-1")].

Definition ann : MemberRow :=
  mkMember (VStr "M007") (VStr "Ann") (VStr "ann@example.com")
    (VStr "0123") (VStr "Gold") (vint 100) (VStr "2024-01-01") (vint 0).

Definition bob : MemberRow :=
  mkMember (VStr "M001") (VStr "Bob") (VStr "bob@example.com")
    (VStr "0456") (VStr "Silver") (vint 0) (VStr "2024-02-01") (vint 0).

Definition shop : DB :=
  mkDB [pen] [] [] [] [] [ann; bob] [mkTier (VStr "Gold") (VNum (3 # 2))].

Definition today : value := VStr "2025-01-01".

Definition recount (q : Q) : value :=
  VObj [("newQuantity", VNum q); ("reason", VStr "recount")].

Definition sale : value :=
  VObj [("transactionId", VStr "T-1"); ("customerName", VStr "Ann");
        ("memberId", VStr "M007"); ("paymentMethod", VStr "cash");
        ("items", VArr [VObj [("id", vint 1); ("quantity", vint 2);
                              ("price", vint 3)]]);
        ("subtotal", vint 6); ("discount", vint 0); ("sst", vint 0);
        ("totalAmount", vint 6);
        ("memberDetails", VObj [("pointsEarned", vint 10);
                                ("newTotalPoints", vint 110)])].

Definition no_tier : value :=
  VObj [("name", VStr "Cy"); ("email", VStr "cy@example.com");
        ("phone", VStr "0789")].

Definition run (r : request) : outcome response * Conn :=
  handle sql_eq sort_by_member_id today no_fault r (fresh shop 10).

End Sample.

(** ** More of what the handlers decide on *)

(** Whether [for (const item of items)] can read every element: [items]
    is iterable and no element is [null] or [undefined]. *)
Definition items_usable (items : value) : bool :=
  match iterate items with
  | Some elements => forallb has_fields elements
  | None => false
  end.

Definition is_string (v : value) : bool :=
  match v with VStr _ => true | _ => false end.

(** The member row [createMember] inserts under the identifier [id]. *)
Definition new_member (curdate : value) (id : string) (b : value)
  : MemberRow :=
  mkMember (VStr id) (field b "name") (field b "email") (field b "phone")
           (field b "tier") (vint 0) curdate (vint 0).

(** Whether a request asks the pool for a connection of its own:
    [createMember] reads the body first, [updatePoints] leaves the
    connection to [pool.query]. *)
Definition takes_connection (r : request) : bool :=
  match r with
  | AdjustStock _ _ | CommitSale _ => true
  | CreateMember b => has_fields b
  | UpdatePoints _ _ => false
  end.

(** The value of a decimal numeral, read left to right from [acc]. *)
Fixpoint uint_value (d : Decimal.uint) (acc : Z) : Z :=
  match d with
  | Decimal.Nil => acc
  | Decimal.D0 r => uint_value r (10 * acc)
  | Decimal.D1 r => uint_value r (10 * acc + 1)
  | Decimal.D2 r => uint_value r (10 * acc + 2)
  | Decimal.D3 r => uint_value r (10 * acc + 3)
  | Decimal.D4 r => uint_value r (10 * acc + 4)
  | Decimal.D5 r => uint_value r (10 * acc + 5)
  | Decimal.D6 r => uint_value r (10 * acc + 6)
  | Decimal.D7 r => uint_value r (10 * acc + 7)
  | Decimal.D8 r => uint_value r (10 * acc + 8)
  | Decimal.D9 r => uint_value r (10 * acc + 9)
  end.

Fixpoint all_digits (s : string) : bool :=
  match s with
  | String c r => Num.is_digit c && all_digits r
  | EmptyString => true
  end.

(** The larger of two numbers, as the scan keeps it. *)
Definition keep_larger (maxNumber num : Num.number) : Num.number :=
  if negb (Num.isNaN num) && Num.gt num maxNumber then num else maxNumber.

(** The number the scan reads off one identifier; NaN when it has no
    digits. *)
Definition parsed_run (member_id : value) : Num.number :=
  match member_id with
  | VStr s =>
      match match_digits s with
      | Some matched => Num.parseInt matched
      | None => Num.NaN
      end
  | _ => Num.NaN
  end.

(** * The other handlers of Server/server.js

    The product and member handlers outside the four operations above.
    They send statements of their own and need the AUTO_INCREMENT counter
    of [inventory], so they run on a session of their own, built like the
    connection above: committed tables, the view of an open transaction,
    and the tables other connections read after each call. *)
Module Catalog.

(** The columns these handlers compare, besides those of [column]. *)
Inductive key : Type :=
| inventory_sku
| history_inventory_id.

Record Session : Type := mkSession {
  stored : DB;
  txn : option DB;
  next_item_id : Z;
  made : nat;
  handed_back : bool;
  shown : list DB
}.

(** A session as the pool first hands it out. *)
Definition opened (d : DB) (item_id : Z) : Session :=
  mkSession d None item_id 0 false [].

Definition current (s : Session) : DB :=
  match txn s with Some w => w | None => stored s end.

Definition change (f : DB -> DB) (s : Session) : Session :=
  match txn s with
  | Some w => mkSession (stored s) (Some (f w)) (next_item_id s) (made s)
                        (handed_back s) (shown s)
  | None => mkSession (f (stored s)) None (next_item_id s) (made s)
                      (handed_back s) (shown s)
  end.

Definition R (A : Type) : Type := Session -> outcome A * Session.

Definition ret {A} (a : A) : R A := fun s => (Ret a, s).

Definition throw {A} (e : exn) : R A := fun s => (Throw e, s).

Definition bind {A B} (m : R A) (k : A -> R B) : R B :=
  fun s =>
    match m s with
    | (Ret a, s') => k a s'
    | (Throw e, s') => (Throw e, s')
    end.

Declare Scope catalog_scope.
Notation "x <- m ;; k" := (bind m (fun x => k))
  (at level 61, m at next level, right associativity) : catalog_scope.
Notation "m ;; k" := (bind m (fun _ => k))
  (at level 61, right associativity) : catalog_scope.
Local Open Scope catalog_scope.

Definition try_catch {A} (body : R A) (handler : exn -> R A) : R A :=
  fun s =>
    match body s with
    | (Ret a, s') => (Ret a, s')
    | (Throw e, s') => handler e s'
    end.

Definition finally {A} (body : R A) (cleanup : Session -> Session) : R A :=
  fun s => let (r, s') := body s in (r, cleanup s').

Definition prop (v : value) (name : string) : R value :=
  match get_prop v name with Some x => ret x | None => throw TypeError end.

Definition release (s : Session) : Session :=
  mkSession (stored s) (txn s) (next_item_id s) (made s) true (shown s).

(** [v === undefined]. *)
Definition is_undefined (v : value) : bool :=
  match v with VUndef => true | _ => false end.

(** ** Answers *)
Inductive reply : Type :=
| Failure (status : Z) (error : string)
| FailureWith (status : Z) (error : string) (cause : exn)
| Message (message : string)
| Item (status : Z) (row : option InventoryRow)
| Member (row : option (MemberRow * value))
| Members (rows : list (MemberRow * value)).

Definition status_of (r : reply) : Z :=
  match r with
  | Failure s _ | FailureWith s _ _ | Item s _ => s
  | Message _ | Member _ | Members _ => 200
  end.

(** ** Table updates *)
Fixpoint set_column (name : string) (v : value) (cols : list (string * value))
  : list (string * value) :=
  match cols with
  | [] => [(name, v)]
  | (k, x) :: r =>
      if String.eqb k name then (k, v) :: r
      else (k, x) :: set_column name v r
  end.

Definition add_item (r : InventoryRow) (d : DB) : DB :=
  mkDB (inventory d ++ [r]) (stock_history d) (sales d) (sales_items d)
       (member_points_history d) (members d) (membership_tiers d).

Definition set_image (eq : value -> value -> bool) (data type id : value)
  (d : DB) : DB :=
  mkDB (map (fun r => if eq (inv_id r) id
                      then mkInventory (inv_id r) (inv_stock r)
                             (set_column "image_type" type
                                (set_column "image_data" data (inv_columns r)))
                      else r) (inventory d))
       (stock_history d) (sales d) (sales_items d) (member_points_history d)
       (members d) (membership_tiers d).

Definition remove_history (eq : value -> value -> bool) (id : value) (d : DB)
  : DB :=
  mkDB (inventory d)
       (filter (fun h => negb (eq (sh_inventory_id h) id)) (stock_history d))
       (sales d) (sales_items d) (member_points_history d) (members d)
       (membership_tiers d).

Definition remove_item (eq : value -> value -> bool) (id : value) (d : DB)
  : DB :=
  mkDB (filter (fun r => negb (eq (inv_id r) id)) (inventory d))
       (stock_history d) (sales d) (sales_items d) (member_points_history d)
       (members d) (membership_tiers d).

Definition set_contact (eq : value -> value -> bool)
  (name email phone tier id : value) (d : DB) : DB :=
  mkDB (inventory d) (stock_history d) (sales d) (sales_items d)
       (member_points_history d)
       (map (fun m => if eq (m_member_id m) id
                      then mkMember (m_member_id m) name email phone tier
                             (m_points m) (m_join_date m) (m_total_spent m)
                      else m) (members d))
       (membership_tiers d).

Section Handlers.

Variable col_eq : column -> value -> value -> bool.
Variable key_eq : key -> value -> value -> bool.
Variable order_by_member_id : list MemberRow -> list MemberRow.
Variable fails : nat -> bool.

Definition tick (s : Session) : Session :=
  mkSession (stored s) (txn s) (next_item_id s) (S (made s)) (handed_back s)
            (shown s).

Definition show (s : Session) : Session :=
  mkSession (stored s) (txn s) (next_item_id s) (made s) (handed_back s)
            (shown s ++ [stored s]).

(** One call of the driver; a call that fails throws and changes
    nothing. *)
Definition call {A} (run : Session -> A * Session) : R A :=
  fun s =>
    if fails (made s) then (Throw StorageError, show (tick s))
    else let (a, s') := run (tick s) in (Ret a, show s').

Definition getConnection : R unit := call (fun s => (tt, s)).

Definition beginTransaction : R unit :=
  call (fun s => (tt, mkSession (current s) (Some (current s))
                        (next_item_id s) (made s) (handed_back s) (shown s))).

Definition commit : R unit :=
  call (fun s => (tt, mkSession (current s) None (next_item_id s) (made s)
                        (handed_back s) (shown s))).

Definition rollback : R unit :=
  call (fun s => (tt, mkSession (stored s) None (next_item_id s) (made s)
                        (handed_back s) (shown s))).

Definition items_with_id (id : value) (d : DB) : list InventoryRow :=
  filter (fun r => col_eq inventory_id (inv_id r) id) (inventory d).

Definition items_with_sku (sku : value) (d : DB) : list InventoryRow :=
  filter (fun r => key_eq inventory_sku (lookup "sku" (inv_columns r)) sku)
         (inventory d).

Definition members_with_id (id : value) (d : DB) : list MemberRow :=
  filter (fun m => col_eq members_member_id (m_member_id m) id) (members d).

(** SELECT * FROM inventory WHERE id = ? *)
Definition select_item (id : value) : R (list InventoryRow) :=
  call (fun s => (items_with_id (bound id) (current s), s)).

(** SELECT id FROM inventory WHERE sku = ? *)
Definition select_by_sku (sku : value) : R (list value) :=
  call (fun s => (map inv_id (items_with_sku (bound sku) (current s)), s)).

(** INSERT INTO inventory (name, sku, category, stock, price,
    reorder_point, brand) VALUES (?, ?, ?, ?, ?, ?, ?); the result carries
    [insertId]. *)
Definition new_item (id : Z) (name sku category stock price reorder_point
                              brand : value) : InventoryRow :=
  mkInventory (vint id) (bound stock)
    [("name", bound name); ("sku", bound sku); ("category", bound category);
     ("price", bound price); ("reorder_point", bound reorder_point);
     ("brand", bound brand)].

Definition insert_item (name sku category stock price reorder_point brand
                        : value) : R value :=
  call (fun s =>
          let s' := change (add_item (new_item (next_item_id s) name sku
                                        category stock price reorder_point
                                        brand)) s in
          (vint (next_item_id s),
           mkSession (stored s') (txn s') (next_item_id s + 1) (made s')
                     (handed_back s') (shown s'))).

(** UPDATE inventory SET image_data = ?, image_type = ? WHERE id = ? *)
Definition update_image (data type id : value) : R unit :=
  call (fun s => (tt, change (set_image (col_eq inventory_id) (bound data)
                                (bound type) (bound id)) s)).

(** DELETE FROM stock_history WHERE inventory_id = ? *)
Definition delete_history (id : value) : R unit :=
  call (fun s => (tt, change (remove_history (key_eq history_inventory_id)
                                (bound id)) s)).

(** DELETE FROM inventory WHERE id = ?; the result carries
    [affectedRows]. *)
Definition delete_item (id : value) : R nat :=
  call (fun s => (length (items_with_id (bound id) (current s)),
                  change (remove_item (col_eq inventory_id) (bound id)) s)).

(** UPDATE members SET name = ?, email = ?, phone = ?, tier = ? WHERE
    member_id = ? *)
Definition update_member (name email phone tier id : value) : R unit :=
  call (fun s => (tt, change (set_contact (col_eq members_member_id)
                                (bound name) (bound email) (bound phone)
                                (bound tier) (bound id)) s)).

(** SELECT m.*, t.points_multiplier FROM members m JOIN membership_tiers t
    ON m.tier = t.tier_name WHERE member_id = ? *)
Definition join_tier (tiers : list TierRow) (m : MemberRow)
  : list (MemberRow * value) :=
  map (fun t => (m, t_points_multiplier t))
      (filter (fun t => col_eq tiers_tier_name (t_tier_name t) (m_tier m))
              tiers).

Definition select_member_joined (id : value) : R (list (MemberRow * value)) :=
  call (fun s => (flat_map (join_tier (membership_tiers (current s)))
                           (members_with_id (bound id) (current s)), s)).

(** SELECT m.*, t.points_multiplier FROM members m LEFT JOIN
    membership_tiers t ON m.tier = t.tier_name WHERE m.member_id = ? *)
Definition select_member_left (id : value) : R (list (MemberRow * value)) :=
  call (fun s => (flat_map (left_join_tier col_eq
                              (membership_tiers (current s)))
                           (members_with_id (bound id) (current s)), s)).

(** SELECT m.member_id, ..., t.points_multiplier FROM members m LEFT JOIN
    membership_tiers t ON m.tier = t.tier_name ORDER BY m.member_id *)
Definition select_members : R (list (MemberRow * value)) :=
  call (fun s => (flat_map (left_join_tier col_eq
                              (membership_tiers (current s)))
                           (order_by_member_id (members (current s))), s)).

(** ** GET /api/inventory/:id (lines 67-80) *)
Definition getItem (id : string) : R reply :=
  try_catch
    (rows <- select_item (VStr id) ;;
     match rows with
     | [] => ret (Failure 404 "Item not found")
     | row :: _ => ret (Item 200 (Some row))
     end)
    (fun error => ret (Failure 500 "Failed to fetch item")).

(** ** POST /api/inventory (lines 156-187) *)
Definition createProduct (req_body : value) : R reply :=
  name <- prop req_body "name" ;;
  sku <- prop req_body "sku" ;;
  category <- prop req_body "category" ;;
  stock <- prop req_body "stock" ;;
  price <- prop req_body "price" ;;
  reorderPoint <- prop req_body "reorderPoint" ;;
  brand <- prop req_body "brand" ;;
  try_catch
    (if negb (truthy name) || negb (truthy sku) || negb (truthy category)
        || is_undefined stock || is_undefined price
        || negb (truthy reorderPoint) then
       ret (Failure 400 "Missing required fields")
     else if negb (is_number stock) || negb (is_number price)
             || negb (is_number reorderPoint) then
       ret (Failure 400 "Invalid data types for numeric fields")
     else
       existing <- select_by_sku sku ;;
       match existing with
       | _ :: _ => ret (Failure 400 "SKU already exists")
       | [] =>
           insertId <- insert_item name sku category stock price reorderPoint
                         (js_or brand (VStr "")) ;;
           newItem <- select_item insertId ;;
           ret (Item 201 (hd_error newItem))
       end)
    (fun error => ret (Failure 500 "Failed to create product")).

(** ** POST /api/inventory/:id/image (lines 189-205); [file] is
    [req.file] as the upload middleware leaves it: its buffer and its
    MIME type, or nothing. *)
Definition uploadImage (id : string) (file : option (value * value))
  : R reply :=
  match file with
  | None => ret (Failure 400 "No image file provided")
  | Some (buffer, mimetype) =>
      try_catch
        (update_image buffer mimetype (VStr id) ;;
         ret (Message "Image uploaded successfully"))
        (fun error => ret (Failure 500 "Failed to upload image"))
  end.

(** ** DELETE /api/inventory/:id (lines 208-233) *)
Definition deleteProduct (id : string) : R reply :=
  getConnection ;;
  finally
    (try_catch
       (beginTransaction ;;
        delete_history (VStr id) ;;
        affectedRows <- delete_item (VStr id) ;;
        match affectedRows with
        | O =>
            rollback ;;
            ret (Failure 404 "Product not found")
        | S _ =>
            commit ;;
            ret (Message "Product deleted successfully")
        end)
       (fun error =>
          rollback ;;
          ret (Failure 500 "Failed to delete product")))
    release.

(** ** GET /api/members/:id (lines 318-337) *)
Definition getMember (id : string) : R reply :=
  try_catch
    (member <- select_member_joined (VStr id) ;;
     match member with
     | [] => ret (Failure 404 "Member not found")
     | row :: _ => ret (Member (Some row))
     end)
    (fun error => ret (Failure 500 "Failed to fetch member data")).

(** ** GET /api/members (lines 367-397) *)
Definition getMembers : R reply :=
  try_catch
    (members <- select_members ;;
     ret (Members members))
    (fun error => ret (FailureWith 500 "Failed to fetch members data" error)).

(** ** PUT /api/members/:id (lines 502-537) *)
Definition updateMember (id : string) (req_body : value) : R reply :=
  name <- prop req_body "name" ;;
  email <- prop req_body "email" ;;
  phone <- prop req_body "phone" ;;
  tier <- prop req_body "tier" ;;
  try_catch
    (if negb (truthy name) || negb (truthy email) || negb (truthy phone)
        || negb (truthy tier) then
       throw (Error "All fields are required")
     else
       update_member name email phone tier (VStr id) ;;
       updatedMember <- select_member_left (VStr id) ;;
       match updatedMember with
       | [] => ret (Failure 404 "Member not found")
       | row :: _ => ret (Member (Some row))
       end)
    (fun error => ret (Failure 500 "Failed to update member")).

End Handlers.

(** The guards of lines 161 and 166. *)
Definition product_fields_missing (b : value) : bool :=
  negb (truthy (field b "name")) || negb (truthy (field b "sku"))
  || negb (truthy (field b "category")) || is_undefined (field b "stock")
  || is_undefined (field b "price") || negb (truthy (field b "reorderPoint")).

Definition product_types_invalid (b : value) : bool :=
  negb (is_number (field b "stock")) || negb (is_number (field b "price"))
  || negb (is_number (field b "reorderPoint")).

(** The row [createProduct] inserts for the body [b]. *)
Definition product_row (id : Z) (b : value) : InventoryRow :=
  new_item id (field b "name") (field b "sku") (field b "category")
           (field b "stock") (field b "price") (field b "reorderPoint")
           (js_or (field b "brand") (VStr "")).

(** The tables once the product [id] and its stock history are gone. *)
Definition product_deleted (col_eq : column -> value -> value -> bool)
  (key_eq : key -> value -> value -> bool) (id : string) (d : DB) : DB :=
  remove_item (col_eq inventory_id) (VStr id)
    (remove_history (key_eq history_inventory_id) (VStr id) d).

End Catalog.

(** ** Sample data for the other handlers *)
Module Stockroom.

(** An engine that compares an integer column with the digits of a URL
    segment by their number. *)
Definition by_number (c : column) (a b : value) : bool :=
  match a, b with
  | VNum x, VStr s =>
      match Num.parseInt s with
      | Num.Fin z => Qeq_bool x (inject_Z z)
      | _ => false
      end
  | _, _ => sql_eq c a b
  end.

Definition same_key (_ : Catalog.key) (a b : value) : bool :=
  sql_eq inventory_id a b.

(** The driver failing at its call number [n] only. *)
Definition fault_at (n k : nat) : bool := Nat.eqb k n.


Definition ink (reorderPoint : Z) : value :=
  VObj [("name", VStr "Ink"); ("sku", VStr "I-1");
        ("category", VStr "Office"); ("stock", vint 0);
        ("price", VNum (5 # 2)); ("reorderPoint", vint reorderPoint)].

Definition second_pen : value :=
  VObj [("name", VStr "Pen"); ("sku", VStr "P-1");
        ("category", VStr "Office"); ("stock", vint 4);
        ("price", vint 2); ("reorderPoint", vint 1)].

Definition dee : value :=
  VObj [("name", VStr "Dee"); ("email", VStr "dee@example.com");
        ("phone", VStr "0321"); ("tier", VStr "Gold")].

Definition eve : value :=
  VObj [("name", VStr "Eve"); ("email", VStr "eve@example.com");
        ("phone", VStr "0654"); ("tier", VStr "Silver")].

(** The sample shop after one recount of the pen. *)
Definition counted : DB :=
  mkDB [Sample.pen]
       [mkStockHistory (VStr "1") (vint 5) (vint 8) (VStr "recount")]
       [] [] [] [Sample.ann; Sample.bob]
       [mkTier (VStr "Gold") (VNum (3 # 2))].

(** Members under a numeric key. *)
Definition numbered : DB :=
  mkDB [] [] [] [] []
       [mkMember (vint 7) (VStr "Ann") (VStr "ann@example.com")
          (VStr "0123") (VStr "Gold") (vint 100) (VStr "2024-01-01")
          (vint 0)]
       [].

Definition image : value * value := (VStr "bytes", VStr "image/png").

End Stockroom.

(** * The route table

    The routes of Server/server.js in the order the file registers them,
    each with the line of its [app.METHOD] call.  The router tries them in
    that order, and every handler of the file answers without passing the
    request on, so the first route that matches is the only one to run. *)
Module Routes.

Inductive verb : Type := GET | POST | PATCH | PUT | DELETE.

Inductive segment : Type :=
| Lit (text : string)
| Param (name : string).

Record route : Type := mkRoute {
  method : verb;
  pattern : list segment;
  line : nat
}.

Definition routes : list route :=
  [mkRoute GET [Lit "api"; Lit "inventory"] 41;
   mkRoute GET [Lit "api"; Lit "inventory"] 56;
   mkRoute GET [Lit "api"; Lit "inventory"; Param "id"] 67;
   mkRoute GET [Lit "api"; Lit "inventory"; Param "id"; Lit "image"] 82;
   mkRoute PATCH [Lit "api"; Lit "inventory"; Param "id"; Lit "stock"] 105;
   mkRoute POST [Lit "api"; Lit "inventory"] 156;
   mkRoute POST [Lit "api"; Lit "inventory"; Param "id"; Lit "image"] 189;
   mkRoute DELETE [Lit "api"; Lit "inventory"; Param "id"] 208;
   mkRoute POST [Lit "api"; Lit "sales"] 235;
   mkRoute GET [Lit "api"; Lit "sales"; Param "date"] 299;
   mkRoute GET [Lit "api"; Lit "members"; Param "id"] 318;
   mkRoute GET [Lit "api"; Lit "tiers"] 340;
   mkRoute PATCH [Lit "api"; Lit "members"; Param "id"; Lit "points"] 351;
   mkRoute GET [Lit "api"; Lit "members"] 367;
   mkRoute POST [Lit "api"; Lit "members"] 400;
   mkRoute GET [Lit "api"; Lit "members"; Lit "search"] 470;
   mkRoute PUT [Lit "api"; Lit "members"; Param "id"] 502]%nat.

Definition verb_eqb (a b : verb) : bool :=
  match a, b with
  | GET, GET | POST, POST | PATCH, PATCH | PUT, PUT | DELETE, DELETE => true
  | _, _ => false
  end.

(** The texts the patterns spell out. *)
Definition texts : list string :=
  ["api"; "inventory"; "sales"; "members"; "tiers"; "search"; "image";
   "stock"; "points"].

(** The application leaves the router's case-sensitive matching off
    (line 14 sets no option): a segment matches a text whatever the case
    of its letters A to Z. *)
Definition lower (c : ascii) : ascii :=
  let n := nat_of_ascii c in
  if (65 <=? n)%nat && (n <=? 90)%nat then ascii_of_nat (n + 32) else c.

Fixpoint fold_case (s : string) : string :=
  match s with
  | String c r => String (lower c) (fold_case r)
  | EmptyString => EmptyString
  end.

Definition same_ci (s text : string) : bool :=
  String.eqb (fold_case s) (fold_case text).

Section Router.

(** How the router compares a segment of the path with the text of a
    pattern. *)
Variable same : string -> string -> bool.

(** A pattern against the segments of a path: a parameter takes any
    segment that is not empty. *)
Fixpoint matches (p : list segment) (path : list string) : bool :=
  match p, path with
  | [], [] => true
  | Lit text :: p', s :: rest => same s text && matches p' rest
  | Param _ :: p', s :: rest => negb (String.eqb s "") && matches p' rest
  | _, _ => false
  end.

Definition dispatch (v : verb) (path : list string) : option route :=
  find (fun r => verb_eqb v (method r) && matches (pattern r) path) routes.

End Router.

(** The route a request of this application is given to. *)
Definition route_of (v : verb) (path : list string) : option route :=
  dispatch same_ci v path.

End Routes.

(** ** Rules for runs *)
Lemma hoare_ret {A} (a : A) (P : Conn -> Prop) Q E :
  (forall c, P c -> Q a c) -> hoare P (ret a) Q E.
Proof. intros H c Hc. cbn. auto. Qed.

Lemma hoare_throw {A} e (P : Conn -> Prop) (Q : A -> Conn -> Prop) E :
  (forall c, P c -> E e c) -> hoare P (throw e) Q E.
Proof. intros H c Hc. cbn. auto. Qed.

Lemma hoare_bind {A B} (m : M A) (k : A -> M B) P Q' E' Q E :
  hoare P m Q' E' ->
  (forall e c, E' e c -> E e c) ->
  (forall a, hoare (Q' a) (k a) Q E) ->
  hoare P (bind m k) Q E.
Proof.
  intros Hm HE Hk c Hc. unfold bind. specialize (Hm c Hc).
  destruct (m c) as [[a|e] c']; [apply Hk; assumption | auto].
Qed.

Lemma hoare_try {A} (body : M A) handler P Q E' E :
  hoare P body Q E' ->
  (forall e, hoare (E' e) (handler e) Q E) ->
  hoare P (try_catch body handler) Q E.
Proof.
  intros Hb Hh c Hc. unfold try_catch. specialize (Hb c Hc).
  destruct (body c) as [[a|e] c']; [assumption | apply Hh; assumption].
Qed.

Lemma hoare_finally {A} (body : M A) cleanup P Q' E' (Q : A -> Conn -> Prop)
  (E : exn -> Conn -> Prop) :
  hoare P body Q' E' ->
  (forall a c, Q' a c -> Q a (cleanup c)) ->
  (forall e c, E' e c -> E e (cleanup c)) ->
  hoare P (finally body cleanup) Q E.
Proof.
  intros Hb HQ HE c Hc. unfold finally. specialize (Hb c Hc).
  destruct (body c) as [[a|e] c']; auto.
Qed.

Lemma hoare_conseq {A} (m : M A) (P P' : Conn -> Prop)
  (Q Q' : A -> Conn -> Prop) (E E' : exn -> Conn -> Prop) :
  hoare P' m Q' E' ->
  (forall c, P c -> P' c) ->
  (forall a c, Q' a c -> Q a c) ->
  (forall e c, E' e c -> E e c) ->
  hoare P m Q E.
Proof.
  intros H HP HQ HE c Hc. specialize (H c (HP c Hc)).
  destruct (m c) as [[a|e] c']; auto.
Qed.

(** Any run, when nothing is asked of it. *)
Lemma hoare_any {A} (m : M A) (P : Conn -> Prop) :
  hoare P m (fun _ _ => True) (fun _ _ => True).
Proof. intros c _. destruct (m c) as [[a|e] c']; exact I. Qed.

(** A fact the result of the previous step established. *)
Lemma hoare_pure {A} (m : M A) (F : Prop) (P : Conn -> Prop) Q E :
  (F -> hoare P m Q E) -> hoare (fun c => F /\ P c) m Q E.
Proof. intros H c [HF Hc]. apply H; assumption. Qed.

Lemma hoare_call {A} fails o (run : Conn -> A * Conn) (P : Conn -> Prop) Q E :
  (forall c, P c -> E StorageError (log o false (tick c))) ->
  (forall c, P c ->
             Q (fst (run (tick c))) (log o true (snd (run (tick c))))) ->
  hoare P (call fails o run) Q E.
Proof.
  intros HE HQ c Hc. unfold call. destruct (fails (calls c)).
  - apply HE, Hc.
  - specialize (HQ c Hc). destruct (run (tick c)) as [a c']. exact HQ.
Qed.

(** Reading a property of the body, and unwrapping an optional. *)
Lemma hoare_prop {B} v name (k : value -> M B) (P : Conn -> Prop) Q E :
  (has_fields v = true -> hoare P (k (field v name)) Q E) ->
  (has_fields v = false -> forall c, P c -> E TypeError c) ->
  hoare P (bind (prop v name) k) Q E.
Proof.
  intros Hk He c Hc. unfold bind, prop.
  destruct v; cbn; try (apply He; [reflexivity|assumption]);
    apply Hk; auto.
Qed.

Lemma hoare_lift {A B} (o : option A) (k : A -> M B) (P : Conn -> Prop) Q E :
  (forall x, o = Some x -> hoare P (k x) Q E) ->
  (o = None -> forall c, P c -> E TypeError c) ->
  hoare P (bind (lift o) k) Q E.
Proof.
  intros Hk He c Hc. unfold bind. destruct o; cbn.
  - apply Hk; auto.
  - apply He; auto.
Qed.

(** ** What stays observable *)
Lemma Obs_mono (Vis Vis' : DB -> Prop) c :
  (forall x, Vis x -> Vis' x) -> Obs Vis c -> Obs Vis' c.
Proof.
  intros HS [H1 H2]. split; [auto|]. eapply Forall_impl; [|exact H2]. auto.
Qed.

Lemma St_Obs Vis cm p n c : St Vis cm p n c -> Obs Vis c.
Proof. intros [H _]. exact H. Qed.

Lemma Obs_committed Vis c : Obs Vis c -> Vis (committed c).
Proof. intros [H _]. exact H. Qed.

Lemma Obs_seen Vis c :
  Obs Vis c -> Forall (fun e => Vis (ev_seen e)) (trace c).
Proof. intros [_ H]. exact H. Qed.

Lemma Obs_log Vis o ok c : Obs Vis c -> Obs Vis (log o ok (tick c)).
Proof.
  intros [H1 H2]. split; cbn; [assumption|].
  apply Forall_app. split; [assumption|]. repeat constructor. assumption.
Qed.

Lemma Obs_release Vis c : Obs Vis c -> Obs Vis (release c).
Proof. intros [H1 H2]. split; assumption. Qed.

Lemma St_log Vis cm p n o ok c :
  St Vis cm p n c -> St Vis cm p n (log o ok (tick c)).
Proof.
  intros (H & H1 & H2 & H3). repeat split; try assumption;
    apply (Obs_log o ok H).
Qed.

Lemma St_release Vis cm p n c : St Vis cm p n c -> St Vis cm p n (release c).
Proof. intros (H & H1 & H2 & H3). repeat split; try assumption; apply H. Qed.

Lemma fresh_St d n : St (eq d) d None n (fresh d n).
Proof. repeat split; cbn; auto. Qed.

Create HintDb obs.
#[export] Hint Resolve St_Obs Obs_log Obs_release St_log St_release : obs.

(** A failed call leaves what the precondition says is observable. *)
Ltac call_fails := intros ? ?; cbn beta; solve [eauto with obs].

(** The event of a successful call shows tables already in [Vis]. *)
Ltac call_logged :=
  apply Forall_app; split; [assumption | repeat constructor; assumption].

(** One statement of a handler, by its rule [lem]; [Err] is what holds
    when it throws. *)
Tactic Notation "hstep" uconstr(Err) "by" uconstr(lem) :=
  eapply hoare_bind with (E' := Err);
  [apply lem | eauto with obs | intros ?u; cbn beta].

Ltac hprop := apply hoare_prop; [intros _ | intros _ ?c; eauto with obs].

Section Calls.
Variable fails : nat -> bool.

(** A write inside the open transaction shows nothing new to other
    connections. *)
Lemma hoare_call_tx {A} o (a : A) f Vis cm w n :
  hoare (St Vis cm (Some w) n)
        (call fails o (fun c => (a, write f c)))
        (fun x c => x = a /\ St Vis cm (Some (f w)) n c)
        (fun _ => Obs Vis).
Proof.
  apply hoare_call; [call_fails|].
  intros [cm' p ns cl rl tr] ((Ha & Hb) & H1 & H2 & H3). cbn in *. subst.
  cbn. repeat split; cbn; auto. call_logged.
Qed.

Lemma getConnection_spec Vis cm p n :
  hoare (St Vis cm p n) (getConnection fails)
        (fun _ => St Vis cm p n) (fun e c => e = StorageError /\ Obs Vis c).
Proof.
  apply hoare_call.
  - intros c H. split; [reflexivity|]. eauto with obs.
  - intros c H. cbn [fst snd]. eauto with obs.
Qed.

Lemma beginTransaction_spec Vis cm n :
  hoare (St Vis cm None n) (beginTransaction fails)
        (fun _ => St Vis cm (Some cm) n) (fun _ => Obs Vis).
Proof.
  apply hoare_call; [call_fails|].
  intros [cm' p ns cl rl tr] ((Ha & Hb) & H1 & H2 & H3). cbn in *. subst.
  repeat split; cbn; auto. call_logged.
Qed.

(** The commit is the one call that shows new tables: [w], which [Vis']
    must allow. *)
Lemma commit_spec (Vis Vis' : DB -> Prop) cm w n :
  (forall x, Vis x -> Vis' x) -> Vis' w ->
  hoare (St Vis cm (Some w) n) (commit fails)
        (fun _ => St Vis' w None n) (fun _ => Obs Vis).
Proof.
  intros HS Hw. apply hoare_call; [call_fails|].
  intros [cm' p ns cl rl tr] ((Ha & Hb) & H1 & H2 & H3). cbn in *. subst.
  repeat split; cbn; auto.
  apply Forall_app. split.
  - eapply Forall_impl; [|exact Hb]. auto.
  - repeat constructor. assumption.
Qed.

Lemma rollback_spec Vis cm p n :
  hoare (St Vis cm p n) (rollback fails)
        (fun _ => St Vis cm None n) (fun _ => Obs Vis).
Proof.
  apply hoare_call; [call_fails|].
  intros [cm' p' ns cl rl tr] ((Ha & Hb) & H1 & H2 & H3). cbn in *. subst.
  repeat split; cbn; auto. call_logged.
Qed.

(** The rollback of a [catch] block, from any state. *)
Lemma rollback_catch Vis :
  hoare (Obs Vis) (rollback fails)
        (fun _ => Obs Vis) (fun e c => e = StorageError /\ Obs Vis c).
Proof.
  apply hoare_call.
  - intros c H. split; [reflexivity|]. eauto with obs.
  - intros c [Ha Hb]. cbn [fst snd]. split; cbn; [assumption|]. call_logged.
Qed.

Lemma insert_sale_spec Vis cm w n t cn mi pm st di ss ta :
  hoare (St Vis cm (Some w) n)
        (insert_sale fails t cn mi pm st di ss ta)
        (fun a c =>
           a = vint n /\
           St Vis cm
              (Some (add_sale (mkSale (vint n) (bound t) (bound cn) (bound mi)
                                 (bound pm) (bound st) (bound di) (bound ss)
                                 (bound ta)) w)) (n + 1) c)
        (fun _ => Obs Vis).
Proof.
  apply hoare_call; [call_fails|].
  intros [cm' p' ns cl rl tr] ((Ha & Hb) & H1 & H2 & H3). cbn in *. subst.
  repeat split; cbn; auto. call_logged.
Qed.

Lemma insert_items_spec Vis cm n saleId elements : forall w,
  hoare (St Vis cm (Some w) n)
        (for_each elements (insert_item fails saleId))
        (fun _ => St Vis cm
                    (Some (add_sale_items
                             (map (sale_item_row saleId) elements) w)) n)
        (fun _ => Obs Vis).
Proof.
  induction elements as [|item rest IH]; intros w.
  - apply hoare_ret. intros c H. unfold add_sale_items. cbn.
    rewrite app_nil_r. destruct w. exact H.
  - cbn [for_each map]. eapply hoare_bind with (E' := fun _ => Obs Vis).
    + unfold insert_item. do 4 hprop. apply hoare_call_tx.
    + auto.
    + intros a. eapply hoare_conseq;
        [apply (IH (add_sale_item (sale_item_row saleId item) w)) | | | auto].
      * intros c [_ H]. exact H.
      * intros u c H. cbn beta in H.
        replace (add_sale_items _ (add_sale_item _ w)) with
          (add_sale_items (sale_item_row saleId item
                             :: map (sale_item_row saleId) rest) w) in H;
          [exact H|].
        unfold add_sale_items, add_sale_item. cbn. rewrite <- app_assoc.
        reflexivity.
Qed.

Section Handlers.
Variable col_eq : column -> value -> value -> bool.

Lemma select_inventory_spec Vis cm p n id :
  hoare (St Vis cm p n) (select_inventory col_eq fails id)
        (fun rows c =>
           rows = filter (fun r => col_eq inventory_id (inv_id r) (bound id))
                    (inventory (match p with Some w => w | None => cm end)) /\
           St Vis cm p n c)
        (fun _ => Obs Vis).
Proof.
  apply hoare_call; [call_fails|].
  intros c H. cbn [fst snd]. split; [|eauto with obs].
  destruct H as (_ & H1 & H2 & _). unfold view, tick. cbn.
  rewrite H2, H1. reflexivity.
Qed.

(** POST /api/sales: committed as a whole, or answered 500 (or not at
    all) with nothing shown to other connections. *)
Lemma commitSale_spec b d n :
  hoare (St (eq d) d None n) (commitSale col_eq fails b)
    (fun r c =>
       sale_committed col_eq b d n r c \/
       (r = mkResponse 500 (BError "Failed to record sale") /\ Obs (eq d) c))
    (fun e c => e = StorageError /\ Obs (eq d) c).
Proof.
  unfold commitSale.
  hstep (fun e c => e = StorageError /\ Obs (eq d) c) by getConnection_spec.
  eapply hoare_finally with
    (Q' := fun r c =>
       sale_committed col_eq b d n r c \/
       (r = mkResponse 500 (BError "Failed to record sale") /\ Obs (eq d) c))
    (E' := fun e c => e = StorageError /\ Obs (eq d) c).
  2: { intros r c [(els & H1 & H2 & H3)|[H1 H2]].
       - left. exists els. eauto with obs.
       - right. eauto with obs. }
  2: { intros e c [H1 H2]. eauto with obs. }
  eapply hoare_try with (E' := fun _ => Obs (eq d)).
  - hstep (fun _ : exn => Obs (eq d)) by beginTransaction_spec.
    do 10 hprop.
    hstep (fun _ : exn => Obs (eq d)) by insert_sale_spec.
    apply hoare_pure. intros ->.
    apply hoare_lift; [intros elements Hit|intros _ c; apply St_Obs].
    hstep (fun _ : exn => Obs (eq d)) by insert_items_spec.
    set (base := add_sale_items _ _).
    eapply hoare_bind with
      (E' := fun _ => Obs (eq d))
      (Q' := fun _ => St (eq d) d
                        (Some (sale_recorded col_eq n b elements d)) (n + 1)).
    + unfold sale_recorded. destruct (truthy (field b "memberDetails")).
      * do 2 hprop.
        hstep (fun _ : exn => Obs (eq d)) by hoare_call_tx.
        apply hoare_pure. intros _. hprop.
        eapply hoare_conseq;
          [apply hoare_call_tx | intros c H; exact H | | auto].
        intros a c [_ H]. exact H.
      * apply hoare_ret. intros c H. subst base. unfold add_sale_items in H.
        cbn in H. exact H.
    + auto.
    + intros ?u. cbn beta.
      eapply hoare_bind with (E' := fun _ => Obs (eq d)).
      * apply commit_spec with
          (Vis' := fun x => x = d \/ x = sale_recorded col_eq n b elements d).
        -- intros x ->. left. reflexivity.
        -- right. reflexivity.
      * auto.
      * intros ?u. cbn beta. apply hoare_ret. intros c H. left.
        exists elements. auto.
  - intros e.
    hstep (fun e c => e = StorageError /\ Obs (eq d) c) by rollback_catch.
    apply hoare_ret. intros c H. right. split; [reflexivity|assumption].
Qed.

Lemma adjust_visible_start id b d x :
  d = x -> adjust_visible col_eq id b d x.
Proof. intros <-. left. reflexivity. Qed.

(** PATCH /api/inventory/:id/stock: its four answers, and what other
    connections can read whatever the answer. *)
Lemma adjustStock_spec id b d n :
  hoare (St (eq d) d None n) (adjustStock col_eq fails id b)
    (stock_response col_eq id b d n)
    (fun e c => e = StorageError /\ Obs (adjust_visible col_eq id b d) c).
Proof.
  pose proof (@adjust_visible_start id b d) as Hstart.
  assert (Hobs : forall p k c,
             St (eq d) d p k c -> Obs (adjust_visible col_eq id b d) c).
  { intros p k c H. eapply Obs_mono; [exact Hstart|]. eauto with obs. }
  assert (Hobs' : forall (e : exn) c,
             Obs (eq d) c -> Obs (adjust_visible col_eq id b d) c).
  { intros _ c H. eapply Obs_mono; [exact Hstart|exact H]. }
  unfold adjustStock.
  eapply hoare_bind with
    (E' := fun e c => e = StorageError /\ Obs (eq d) c);
    [apply getConnection_spec | | intros ?u; cbn beta].
  { intros e c [H1 H2]. eauto. }
  eapply hoare_finally with
    (Q' := stock_response col_eq id b d n)
    (E' := fun e c => e = StorageError /\ Obs (adjust_visible col_eq id b d) c).
  2: { intros r c [(H1 & H2 & H3)|[(H1 & H2 & H3 & H4)|
                   [(it & rs & H1 & H2 & H3 & H4)|[H1 H2]]]].
       - left. eauto with obs.
       - right. left. eauto with obs.
       - right. right. left. exists it, rs. eauto with obs.
       - right. right. right. eauto with obs. }
  2: { intros e c [H1 H2]. eauto with obs. }
  eapply hoare_try with (E' := fun _ => Obs (adjust_visible col_eq id b d)).
  - hstep (fun _ : exn => Obs (eq d)) by beginTransaction_spec.
    do 2 (apply hoare_prop; [intros _|intros _ c; apply Hobs]).
    fold (quantity_rejected b). destruct (quantity_rejected b) eqn:Hq.
    + apply hoare_ret. intros c H. left. auto.
    + hstep (fun _ : exn => Obs (eq d)) by select_inventory_spec.
      apply hoare_pure. intros ->. cbn [bound].
      fold (matching_items col_eq id d).
      destruct (matching_items col_eq id d) as [|item rest] eqn:Hm.
      * hstep (fun _ : exn => Obs (eq d)) by rollback_spec.
        apply hoare_ret. intros c H. right. left. auto.
      * hstep (fun _ : exn => Obs (eq d)) by hoare_call_tx.
        apply hoare_pure. intros _.
        hstep (fun _ : exn => Obs (eq d)) by hoare_call_tx.
        apply hoare_pure. intros _.
        eapply hoare_bind with (E' := fun _ => Obs (eq d)).
        -- apply commit_spec with (Vis' := adjust_visible col_eq id b d).
           ++ exact Hstart.
           ++ right. exists item, rest. auto.
        -- exact Hobs'.
        -- intros ?u. cbn beta.
           hstep (fun _ : exn => Obs (adjust_visible col_eq id b d))
             by select_inventory_spec.
           apply hoare_pure. intros ->.
           apply hoare_ret. intros c H. right. right. left.
           exists item, rest. auto.
  - intros e.
    hstep (fun e c => e = StorageError /\ Obs (adjust_visible col_eq id b d) c)
      by rollback_catch.
    apply hoare_ret. intros c H. right. right. right.
    split; [reflexivity|assumption].
Qed.

End Handlers.
End Calls.

(** ** Facts about the table updates *)
Lemma bound_number v : is_number v = true -> bound v = v.
Proof. destruct v; cbn; intros H; try discriminate; reflexivity. Qed.

Lemma quantity_accepted b :
  quantity_rejected b = false ->
  is_number (field b "newQuantity") = true /\
  nonneg_number (field b "newQuantity") = true.
Proof.
  unfold quantity_rejected. intros H. apply orb_false_elim in H.
  destruct H as [H1 H2]. apply negb_false_iff in H1. split; [assumption|].
  destruct (field b "newQuantity"); try discriminate.
  cbn in *. apply negb_false_iff in H2. exact H2.
Qed.

Lemma set_points_In eq p id d row :
  In row (members (set_points eq p id d)) ->
  eq (m_member_id row) id = true -> m_points row = p.
Proof.
  cbn. intros Hin Hm. apply in_map_iff in Hin. destruct Hin as (x & Hx & _).
  destruct (eq (m_member_id x) id) eqn:E; subst row.
  - reflexivity.
  - congruence.
Qed.

Lemma set_points_ids eq p id d :
  map m_member_id (members (set_points eq p id d))
  = map m_member_id (members d).
Proof.
  cbn. rewrite map_map. apply map_ext. intros x.
  destruct (eq (m_member_id x) id); reflexivity.
Qed.

Lemma set_points_none eq p id d :
  forallb (fun m => negb (eq (m_member_id m) id)) (members d) = true ->
  set_points eq p id d = d.
Proof.
  intros H. destruct d as [i sh s si ph ms ts]. unfold set_points. cbn in *.
  f_equal. induction ms as [|x r IH]; [reflexivity|].
  cbn in H. apply andb_prop in H. destruct H as [H1 H2].
  apply negb_true_iff in H1. cbn. rewrite H1, (IH H2). reflexivity.
Qed.

Lemma set_points_ok eq p id d :
  nonneg_integer p = true -> balances_ok d = true ->
  balances_ok (set_points eq p id d) = true.
Proof.
  unfold balances_ok. cbn. intros Hp H. rewrite forallb_forall in *.
  intros row Hin. apply in_map_iff in Hin. destruct Hin as (x & Hx & Hin).
  destruct (eq (m_member_id x) id); subst row; cbn; auto.
Qed.

Lemma set_stock_matching eq q id d r :
  In r (filter (fun x => eq (inv_id x) id) (inventory (set_stock eq q id d))) ->
  inv_stock r = q.
Proof.
  cbn. intros H. apply filter_In in H. destruct H as [Hin Hm].
  apply in_map_iff in Hin. destruct Hin as (x & Hx & _).
  destruct (eq (inv_id x) id) eqn:E; subst r.
  - reflexivity.
  - congruence.
Qed.

Lemma set_stock_rows eq q id d :
  nonneg_number q = true ->
  Forall (fun row => In row (inventory d)
                     \/ nonneg_number (inv_stock row) = true)
         (inventory (set_stock eq q id d)).
Proof.
  intros Hq. cbn. apply Forall_forall. intros row Hin.
  apply in_map_iff in Hin. destruct Hin as (x & Hx & Hin).
  destruct (eq (inv_id x) id); subst row; [right; exact Hq|left; exact Hin].
Qed.

Lemma filter_map_same {A} (p : A -> bool) (f : A -> A) (l : list A) :
  (forall x, p (f x) = p x) -> filter p (map f l) = map f (filter p l).
Proof.
  intros H. induction l as [|x r IH]; [reflexivity|].
  cbn. rewrite H. destruct (p x); cbn; rewrite IH; reflexivity.
Qed.

Lemma matching_after_set_stock col_eq id q d :
  filter (fun r => col_eq inventory_id (inv_id r) (VStr id))
         (inventory (set_stock (col_eq inventory_id) q (VStr id) d))
  = map (fun r => mkInventory (inv_id r) q (inv_columns r))
        (matching_items col_eq id d).
Proof.
  unfold matching_items. cbn.
  rewrite filter_map_same.
  - induction (inventory d) as [|x r IH]; [reflexivity|].
    cbn. destruct (col_eq inventory_id (inv_id x) (VStr id)) eqn:E; cbn.
    + rewrite E, IH. reflexivity.
    + exact IH.
  - intros x. destruct (col_eq inventory_id (inv_id x) (VStr id)) eqn:E;
      cbn; rewrite E; reflexivity.
Qed.

Lemma entries_for_new_sale n h row :
  ph_sale_id row = vint n ->
  entries_for_sale n h = [] ->
  entries_for_sale n (h ++ [row]) = [row].
Proof.
  intros Hrow Hold. unfold entries_for_sale in *. rewrite filter_app, Hold.
  cbn. rewrite Hrow. cbn. unfold Qeq_bool. cbn. rewrite Z.eqb_refl.
  reflexivity.
Qed.

Section Claims.
Variable col_eq : column -> value -> value -> bool.
Variable order_by_member_id : list MemberRow -> list MemberRow.
Variable curdate : value.
Variable fails : nat -> bool.

(** The two ways a sale request ends. *)
Lemma commitSale_run b d n :
  let (r, c) := commitSale col_eq fails b (fresh d n) in
  (exists resp, r = Ret resp /\ sale_committed col_eq b d n resp c)
  \/
  ((r = Ret (mkResponse 500 (BError "Failed to record sale"))
    \/ r = Throw StorageError) /\ Obs (eq d) c).
Proof.
  pose proof (@commitSale_spec fails col_eq b d n (fresh d n) (fresh_St d n))
    as H.
  destruct (commitSale col_eq fails b (fresh d n)) as [[resp|e] c].
  - destruct H as [H|[-> H]].
    + left. exists resp. auto.
    + right. auto.
  - destruct H as [-> H]. right. auto.
Qed.


Lemma get_prop_field b name :
  get_prop b name = if has_fields b then Some (field b name) else None.
Proof. destruct b; reflexivity. Qed.

(** The run of [adjustStock] on a quantity the guard rejects. *)
Lemma adjustStock_rejected_run id b d n :
  has_fields b = true -> quantity_rejected b = true ->
  let (r, c) := adjustStock col_eq fails id b (fresh d n) in
  committed c = d /\ writes_issued c = [] /\
  (fails 0%nat = false -> fails 1%nat = false ->
   r = Ret (mkResponse 400 (BError "Invalid quantity")) /\
   transaction_begun c = true /\ pending c = Some d).
Proof.
  intros Hf Hq. unfold quantity_rejected in Hq.
  unfold adjustStock, getConnection, beginTransaction, rollback, bind,
    finally, try_catch, call, prop, lift, fresh.
  rewrite !get_prop_field, Hf. cbn.
  destruct (fails 0%nat); cbn.
  { repeat split; intros; discriminate. }
  destruct (fails 1%nat); cbn.
  { destruct (fails 2%nat); cbn; repeat split; intros; discriminate. }
  rewrite Hq. cbn. repeat split.
Qed.

(** The run of [createMember] on a body the guard rejects. *)
Lemma createMember_missing_run b d n :
  has_fields b = true -> member_fields_missing b = true ->
  let (r, c) :=
    createMember col_eq order_by_member_id curdate fails b (fresh d n) in
  committed c = d /\ issued c = [] /\ transaction_begun c = false /\
  (forall resp, r = Ret resp ->
     resp = mkResponse 500
              (BRegisterFailed
                 (Error "Name, email, phone and tier are required"))) /\
  (fails 0%nat = false -> exists resp, r = Ret resp).
Proof.
  intros Hf Hq. unfold member_fields_missing in Hq.
  unfold createMember, getConnection, bind, finally, try_catch, call, prop,
    lift, fresh.
  rewrite !get_prop_field, Hf. cbn.
  destruct (fails 0%nat); cbn.
  { repeat split; intros; discriminate. }
  rewrite Hq. cbn. repeat split.
  - intros resp H. injection H as <-. reflexivity.
  - intros _. eexists. reflexivity.
Qed.


(** The committed tables [createMember] can leave. *)
Lemma createMember_run b d n :
  let c := snd (createMember col_eq order_by_member_id curdate fails b
                  (fresh d n)) in
  committed c = d \/
  exists row, m_points row = vint 0 /\ committed c = add_member row d.
Proof.
  unfold createMember, getConnection, select_member_ids, insert_member,
    select_member_with_tier, bind, finally, try_catch, call, prop, lift,
    fresh.
  rewrite !get_prop_field. destruct (has_fields b); cbn; [|left; reflexivity].
  destruct (fails 0%nat); cbn; [left; reflexivity|].
  destruct (_ || _); cbn; [left; reflexivity|].
  destruct (fails 1%nat); cbn; [left; reflexivity|].
  destruct (nextMemberId _); cbn; [|left; reflexivity].
  destruct (fails 2%nat); cbn; [left; reflexivity|].
  destruct (fails 3%nat); cbn; right; eexists; (split; [|reflexivity]);
    reflexivity.
Qed.

(** The run of [updatePoints]. *)
Lemma updatePoints_run id b d n :
  updatePoints col_eq fails id b (fresh d n) =
  if has_fields b then
    if fails 0%nat then
      (Ret (mkResponse 500 (BError "Failed to update points")),
       mkConn d None n 1 false
         [mkEvent (Query (UpdateMemberPoints (bound (field b "points"))
                            (VStr id))) false d])
    else
      let d' := set_points (col_eq members_member_id)
                  (bound (field b "points")) (VStr id) d in
      (Ret (mkResponse 200 BSuccess),
       mkConn d' None n 1 false
         [mkEvent (Query (UpdateMemberPoints (bound (field b "points"))
                            (VStr id))) true d'])
  else (Throw TypeError, fresh d n).
Proof.
  unfold updatePoints, update_member_points, bind, try_catch, call, prop,
    lift, fresh.
  rewrite get_prop_field. destruct (has_fields b); cbn; [|reflexivity].
  destruct (fails 0%nat); reflexivity.
Qed.

Lemma adjust_visible_rows id b d x :
  adjust_visible col_eq id b d x ->
  Forall (fun row => In row (inventory d)
                     \/ nonneg_number (inv_stock row) = true)
         (inventory x) /\
  members x = members d.
Proof.
  intros [->|(item & rest & Hq & _ & ->)].
  - split; [|reflexivity]. apply Forall_forall. auto.
  - destruct (quantity_accepted b Hq) as [Hnum Hpos]. split; [|reflexivity].
    unfold stock_adjusted. rewrite (bound_number _ Hnum).
    apply set_stock_rows. exact Hpos.
Qed.

(** Whatever [adjustStock] answers, other connections end up reading
    the tables before the request or the adjusted ones. *)
Lemma adjustStock_visible id b d n :
  adjust_visible col_eq id b d
    (committed (snd (adjustStock col_eq fails id b (fresh d n)))).
Proof.
  pose proof (@adjustStock_spec fails col_eq id b d n (fresh d n)
                (fresh_St d n)) as H.
  destruct (adjustStock col_eq fails id b (fresh d n)) as [[resp|e] c];
    cbn [snd].
  - destruct H as [(_ & _ & H)|[(_ & _ & _ & H)|
                   [(item & rest & _ & _ & _ & H)|[_ H]]]].
    + left. symmetry. apply (Obs_committed (St_Obs H)).
    + left. symmetry. apply (Obs_committed (St_Obs H)).
    + apply (Obs_committed (St_Obs H)).
    + apply (Obs_committed H).
  - destruct H as [_ H]. apply (Obs_committed H).
Qed.

(** The answers of [adjustStock] to a quantity the guard lets through. *)
Lemma adjustStock_accepted_run id b d n :
  quantity_rejected b = false ->
  let (r, c) := adjustStock col_eq fails id b (fresh d n) in
  (forall resp, r = Ret resp -> status resp <> 400) /\
  ((forall k, fails k = false) ->
   forall item rest,
     matching_items col_eq id d = item :: rest ->
     r = Ret (mkResponse 200
                (BItem (Some (mkInventory (inv_id item)
                                (field b "newQuantity")
                                (inv_columns item))))) /\
     committed c = stock_adjusted col_eq id b item d).
Proof.
  intros Hq.
  assert (P1 : forall resp,
             fst (adjustStock col_eq fails id b (fresh d n)) = Ret resp ->
             status resp <> 400).
  { pose proof (@adjustStock_spec fails col_eq id b d n (fresh d n)
                  (fresh_St d n)) as H.
    destruct (adjustStock col_eq fails id b (fresh d n)) as [[resp|e] c];
      intros resp' Hr; [|discriminate Hr].
    injection Hr as <-.
    destruct H as [(H & _)|[(_ & _ & -> & _)|
                   [(item & rest & _ & _ & -> & _)|[-> _]]]];
      [congruence|discriminate|discriminate|discriminate]. }
  assert (P2 : (forall k, fails k = false) ->
               forall item rest,
                 matching_items col_eq id d = item :: rest ->
                 fst (adjustStock col_eq fails id b (fresh d n))
                 = Ret (mkResponse 200
                          (BItem (Some (mkInventory (inv_id item)
                                          (field b "newQuantity")
                                          (inv_columns item))))) /\
                 committed (snd (adjustStock col_eq fails id b (fresh d n)))
                 = stock_adjusted col_eq id b item d).
  { intros Hok item rest Hm.
    assert (Hf : has_fields b = true).
    { destruct b; try reflexivity; discriminate Hq. }
    destruct (quantity_accepted b Hq) as [Hnum _].
    pose proof (matching_after_set_stock col_eq id (field b "newQuantity") d)
      as Hafter.
    rewrite Hm in Hafter. unfold matching_items in Hm.
    unfold quantity_rejected in Hq.
    unfold adjustStock, getConnection, beginTransaction, select_inventory,
      update_stock, insert_stock_history, commit, rollback, bind, finally,
      try_catch, call, prop, lift, fresh.
    rewrite !get_prop_field, Hf. cbn.
    rewrite (bound_number _ Hnum). cbn in Hafter.
    repeat (progress (rewrite ?Hok, ?Hq, ?Hm, ?Hafter; cbn)).
    unfold stock_adjusted, add_stock_history, set_stock. cbn.
    rewrite (bound_number _ Hnum). split; reflexivity. }
  destruct (adjustStock col_eq fails id b (fresh d n)) as [r c].
  exact (conj P1 P2).
Qed.

(** ** How a failed sale ends *)
Lemma failed_last_log o c : failed_last (log o false c) = Some o.
Proof. unfold failed_last, log. cbn. rewrite rev_unit. reflexivity. Qed.

Lemma getConnection_or_give_up :
  hoare (fun c => pending c = None) (getConnection fails)
        (fun _ c => pending c = None)
        (fun _ c => failed_last c = Some GetConnection /\ pending c = None).
Proof.
  apply hoare_call.
  - intros c H. split; [apply failed_last_log|exact H].
  - intros c H. exact H.
Qed.

(** The rollback of the [catch] block closes the transaction, or is the
    call the run ends on. *)
Lemma rollback_closes (P : Conn -> Prop) :
  hoare P (rollback fails) (fun _ c => pending c = None)
        (fun _ c => failed_last c = Some Rollback).
Proof.
  apply hoare_call.
  - intros c _. apply failed_last_log.
  - intros c _. reflexivity.
Qed.

Lemma commitSale_aborts b :
  hoare (fun c => pending c = None) (commitSale col_eq fails b)
        (fun r c => status r = 201 \/ pending c = None)
        (fun _ c => failed_last c = Some GetConnection /\ pending c = None
                    \/ failed_last c = Some Rollback).
Proof.
  unfold commitSale.
  eapply hoare_bind with
    (Q' := fun _ _ => True)
    (E' := fun _ c => failed_last c = Some GetConnection /\ pending c = None).
  - eapply hoare_conseq; [apply getConnection_or_give_up|auto|auto|auto].
  - intros e c H. left. exact H.
  - intros u. cbn beta.
    eapply hoare_finally with
      (Q' := fun r c => status r = 201 \/ pending c = None)
      (E' := fun _ c => failed_last c = Some Rollback).
    + eapply hoare_try with (E' := fun _ _ => True).
      * repeat (eapply hoare_bind with (Q' := fun _ _ => True)
                                       (E' := fun _ _ => True);
                [apply hoare_any | auto | intros ?; cbn beta]).
        apply hoare_ret. intros c _. left. reflexivity.
      * intros e.
        eapply hoare_bind with
          (Q' := fun _ c => pending c = None)
          (E' := fun _ c => failed_last c = Some Rollback);
          [apply rollback_closes | auto | intros u0; cbn beta].
        apply hoare_ret. intros c H. right. exact H.
    + intros r c H. exact H.
    + intros e c H. right. exact H.
Qed.


(** C8. A sale request, whatever its outcome, leaves the [inventory]
    table, and so the stock of every item, as it was: in the committed
    tables at the end and in every state another connection could read
    during the request. *)
Theorem commitSale_keeps_stock (b : value) (d : DB) (n : Z) :
  inventory (committed (snd (commitSale col_eq fails b (fresh d n))))
  = inventory d /\
  Forall (fun e => inventory (ev_seen e) = inventory d)
         (trace (snd (commitSale col_eq fails b (fresh d n)))).
Proof.
  pose proof (commitSale_run b d n) as H.
  destruct (commitSale col_eq fails b (fresh d n)) as [r c]. cbn [snd].
  destruct H as [(resp & -> & items & Hit & -> & Hobs & Hc & _)|[Hr Hobs]].
  - split.
    + rewrite Hc. reflexivity.
    + apply Obs_seen in Hobs. eapply Forall_impl; [|exact Hobs].
      intros e [->| ->]; reflexivity.
  - split.
    + rewrite <- (Obs_committed Hobs). reflexivity.
    + apply Obs_seen in Hobs. eapply Forall_impl; [|exact Hobs].
      intros e <-. reflexivity.
Qed.

(** C6. After a sale answered 201 whose body carries a [memberDetails]
    block, every member row that the sale's [memberId] selects has the
    block's [newTotalPoints] as its balance, whatever the balance was;
    no member was added or removed; and the points history gained exactly
    one row, for this member and this sale, recording [pointsEarned] and
    [newTotalPoints], which is the only row of that sale when the sale's
    identifier was not in use before. *)
Theorem sale_sets_balance_and_logs_points (b : value) (d : DB) (n : Z)
  (resp : response) :
  fst (commitSale col_eq fails b (fresh d n)) = Ret resp ->
  status resp = 201 ->
  truthy (field b "memberDetails") = true ->
  let c := snd (commitSale col_eq fails b (fresh d n)) in
  let m := bound (field b "memberId") in
  let e := bound (field (field b "memberDetails") "pointsEarned") in
  let t := bound (field (field b "memberDetails") "newTotalPoints") in
  (forall row, In row (members (committed c)) ->
               col_eq members_member_id (m_member_id row) m = true ->
               m_points row = t) /\
  map m_member_id (members (committed c)) = map m_member_id (members d) /\
  member_points_history (committed c) =
    member_points_history d ++ [mkPointsHistory m (vint n) e t] /\
  (entries_for_sale n (member_points_history d) = [] ->
   entries_for_sale n (member_points_history (committed c)) =
     [mkPointsHistory m (vint n) e t]).
Proof.
  pose proof (commitSale_run b d n) as H.
  destruct (commitSale col_eq fails b (fresh d n)) as [r c]. cbn [fst snd].
  intros Hr Hs Hmd. subst r.
  destruct H as [(resp' & Hr & items & Hit & -> & Hobs & Hc & _)|[[Hr|Hr] _]];
    [ | injection Hr as ->; discriminate Hs | discriminate Hr ].
  cbn zeta. rewrite Hc. unfold sale_recorded. rewrite Hmd.
  cbn [members member_points_history].
  split; [|split; [|split]].
  - intros row Hin Hm. eapply set_points_In; eassumption.
  - apply set_points_ids.
  - reflexivity.
  - intros Hfresh. apply entries_for_new_sale; [reflexivity|assumption].
Qed.

(** C2. An adjustment answered 200 found the item; it set the stock of
    the item to the requested quantity and appended exactly one history
    row with the stock read before the update as old quantity and the
    requested quantity as new quantity; the other tables are untouched,
    and other connections saw either the tables before the request or the
    tables with both writes. *)
Theorem adjustStock_sets_stock_and_logs (id : string) (b : value) (d : DB)
  (n : Z) (resp : response) :
  fst (adjustStock col_eq fails id b (fresh d n)) = Ret resp ->
  status resp = 200 ->
  let c := snd (adjustStock col_eq fails id b (fresh d n)) in
  let q := field b "newQuantity" in
  exists item rest,
    matching_items col_eq id d = item :: rest /\
    is_number q = true /\
    committed c =
      mkDB (map (fun r => if col_eq inventory_id (inv_id r) (VStr id)
                          then mkInventory (inv_id r) q (inv_columns r)
                          else r) (inventory d))
           (stock_history d ++
              [mkStockHistory (VStr id) (bound (inv_stock item)) q
                 (bound (field b "reason"))])
           (sales d) (sales_items d) (member_points_history d) (members d)
           (membership_tiers d) /\
    (forall r, In r (matching_items col_eq id (committed c)) ->
               inv_stock r = q) /\
    Forall (fun e => ev_seen e = d \/ ev_seen e = committed c) (trace c) /\
    payload resp = BItem (hd_error (matching_items col_eq id (committed c))).
Proof.
  pose proof (@adjustStock_spec fails col_eq id b d n (fresh d n)
                (fresh_St d n)) as H.
  destruct (adjustStock col_eq fails id b (fresh d n)) as [r c].
  cbn [fst snd]. intros -> Hs. cbn zeta.
  destruct H as [(_ & -> & _)|[(_ & _ & -> & _)|
                 [(item & rest & Hq & Hm & -> & Hobs & Hc & _)|[-> _]]]];
    try discriminate Hs.
  destruct (quantity_accepted b Hq) as [Hnum _].
  exists item, rest. rewrite Hc.
  split; [assumption|]. split; [assumption|].
  split; [|split; [|split]].
  - unfold stock_adjusted, add_stock_history, set_stock. cbn.
    rewrite (bound_number _ Hnum). reflexivity.
  - intros r Hin. unfold matching_items, stock_adjusted in Hin. cbn in Hin.
    rewrite (bound_number _ Hnum) in Hin.
    eapply (@set_stock_matching (col_eq inventory_id) _ (VStr id) d).
    exact Hin.
  - apply Obs_seen in Hobs. eapply Forall_impl; [|exact Hobs].
    intros e [->|(item' & rest' & _ & Hm' & ->)]; [left; reflexivity|].
    right. rewrite Hm in Hm'. injection Hm' as <- <-. reflexivity.
  - reflexivity.
Qed.

(** C4 (as the code has it). The adjustment answers 400 to the
    quantities that are not a number or are below zero, and to no other:
    a number not below zero, whole or not, is never answered 400, and
    when the item exists and no call fails it is stored and answered 200.
    A rejected quantity is never written: the committed tables stay as
    they were and no write statement is sent, and the answer is 400
    "Invalid quantity" once the connection and its transaction were
    obtained.  Whatever the request, a stock value that an adjustment
    leaves in the table and that was not there before is a number not
    below zero. *)
Theorem adjustStock_rejects_bad_quantity (id : string) (b : value) (d : DB)
  (n : Z) :
  let (r, c) := adjustStock col_eq fails id b (fresh d n) in
  quantity_rejected b = negb (nonneg_number (field b "newQuantity")) /\
  (has_fields b = true -> nonneg_number (field b "newQuantity") = false ->
   committed c = d /\ writes_issued c = [] /\
   (fails 0%nat = false -> fails 1%nat = false ->
    r = Ret (mkResponse 400 (BError "Invalid quantity")))) /\
  (nonneg_number (field b "newQuantity") = true ->
   (forall resp, r = Ret resp -> status resp <> 400) /\
   ((forall k, fails k = false) ->
    forall item rest,
      matching_items col_eq id d = item :: rest ->
      r = Ret (mkResponse 200
                 (BItem (Some (mkInventory (inv_id item)
                                 (field b "newQuantity")
                                 (inv_columns item))))) /\
      committed c = stock_adjusted col_eq id b item d)) /\
  Forall (fun row => In row (inventory d)
                     \/ nonneg_number (inv_stock row) = true)
         (inventory (committed c)).
Proof.
  assert (Hg : quantity_rejected b
               = negb (nonneg_number (field b "newQuantity"))).
  { unfold quantity_rejected. destruct (field b "newQuantity"); reflexivity. }
  pose proof (adjustStock_rejected_run id b d n) as H1.
  pose proof (adjustStock_accepted_run id b d n) as H3.
  pose proof (adjustStock_visible id b d n) as H2.
  destruct (adjustStock col_eq fails id b (fresh d n)) as [r c].
  cbn [snd] in H2. split; [exact Hg|]. split; [|split].
  - intros Hf Hq. rewrite Hq in Hg. destruct (H1 Hf Hg) as (Hc & Hw & Hr).
    split; [assumption|]. split; [assumption|].
    intros F0 F1. apply (Hr F0 F1).
  - intros Hq. rewrite Hq in Hg. apply (H3 Hg).
  - apply (adjust_visible_rows H2).
Qed.

(** C5 (as the code has it). A request that fails the input check of its
    handler changes nothing and sends no write statement.  Member
    registration checks before it sends any statement and opens no
    transaction at all; the stock adjustment checks inside the
    transaction it has begun. *)
Theorem rejected_request_writes_nothing (r : request) (d : DB) (n : Z) :
  fails_validation r = true ->
  let c := snd (handle col_eq order_by_member_id curdate fails r
                  (fresh d n)) in
  committed c = d /\ writes_issued c = [] /\
  (forall b, r = CreateMember b ->
             issued c = [] /\ transaction_begun c = false) /\
  (forall id b, r = AdjustStock id b ->
                fails 0%nat = false -> fails 1%nat = false ->
                transaction_begun c = true).
Proof.
  destruct r as [id b|b|id b|b]; cbn [fails_validation handle];
    intros H; try discriminate H; apply andb_prop in H; destruct H as [Hf Hq].
  - pose proof (adjustStock_rejected_run id b d n Hf Hq) as H.
    destruct (adjustStock col_eq fails id b (fresh d n)) as [r c].
    cbn [snd]. destruct H as (Hc & Hw & Hr).
    split; [assumption|]. split; [assumption|]. split; [discriminate|].
    intros id' b' _ F0 F1. apply (Hr F0 F1).
  - pose proof (createMember_missing_run b d n Hf Hq) as H.
    destruct (createMember col_eq order_by_member_id curdate fails b
                (fresh d n)) as [r c].
    cbn [snd]. destruct H as (Hc & Hi & Hb & _).
    split; [assumption|]. split; [|split].
    + unfold writes_issued. rewrite Hi. reflexivity.
    + intros _ _. split; assumption.
    + discriminate.
Qed.

(** C7 (as the code has it). When name, email, phone or tier is missing
    from the body (or falsy), registration answers 500 "Failed to register
    member" with the message "Name, email, phone and tier are required",
    never 400, and it does so before any statement is sent: no member is
    inserted. *)
Theorem createMember_missing_field_is_500 (b : value) (d : DB) (n : Z) :
  has_fields b = true -> member_fields_missing b = true ->
  let (r, c) :=
    createMember col_eq order_by_member_id curdate fails b (fresh d n) in
  (forall resp, r = Ret resp ->
     resp = mkResponse 500
              (BRegisterFailed
                 (Error "Name, email, phone and tier are required"))) /\
  (fails 0%nat = false -> exists resp, r = Ret resp) /\
  issued c = [] /\ committed c = d.
Proof.
  intros Hf Hq. pose proof (createMember_missing_run b d n Hf Hq) as H.
  destruct (createMember col_eq order_by_member_id curdate fails b
              (fresh d n)) as [r c].
  destruct H as (Hc & Hi & _ & Hr & Hex). auto.
Qed.

(** C10. The points update never answers 404.  When its one statement is
    accepted it answers [{success: true}], also when no member has the
    given identifier, and then no row is changed. *)
Theorem updatePoints_unknown_member_succeeds (id : string) (b : value)
  (d : DB) (n : Z) :
  let (r, c) := updatePoints col_eq fails id b (fresh d n) in
  (forall resp, r = Ret resp -> status resp <> 404) /\
  (has_fields b = true -> fails 0%nat = false ->
   r = Ret (mkResponse 200 BSuccess) /\
   (forallb (fun m => negb (col_eq members_member_id (m_member_id m)
                                   (VStr id))) (members d) = true ->
    committed c = d)).
Proof.
  rewrite updatePoints_run.
  destruct (has_fields b); [|split; [intros resp H|intros H]; discriminate H].
  destruct (fails 0%nat); cbn.
  - split; [|intros _ H; discriminate H].
    intros resp H. injection H as <-. cbn. discriminate.
  - split.
    + intros resp H. injection H as <-. cbn. discriminate.
    + intros _ _. split; [reflexivity|]. apply set_points_none.
Qed.

(** C9 (as the code has it). Neither the points update nor the sale
    commit checks the balance it is given: a points update answered 200,
    and a sale with [memberDetails] answered 201, leave the members as
    they were except that every selected member holds what the request
    carries as balance, whatever it is, [undefined] as NULL.  The
    balances therefore stay non-negative integers across a request as
    far as the caller sees to it: if they are before the request, and
    what a points update or a sale with [memberDetails] carries as
    balance is a non-negative integer, they are after it. *)
Theorem balances_stay_valid_on_valid_input (r : request) (d : DB) (n : Z) :
  let run := handle col_eq order_by_member_id curdate fails r (fresh d n) in
  (forall v resp,
      points_supplied r = Some v ->
      fst run = Ret resp -> status resp = 200 \/ status resp = 201 ->
      members (committed (snd run))
      = members (set_points (col_eq members_member_id) (bound v)
                   (points_target r) d)) /\
  (balances_ok d = true ->
   (forall v, points_supplied r = Some v -> nonneg_integer v = true) ->
   balances_ok (committed (snd run)) = true).
Proof.
  cbv zeta. split.
  - destruct r as [id b|b|id b|b];
      cbn [handle points_supplied points_target]; intros v resp Hv Hr Hs;
      try discriminate Hv.
    + destruct (truthy (field b "memberDetails")) eqn:Hmd;
        [|discriminate Hv].
      injection Hv as <-.
      pose proof (commitSale_run b d n) as H.
      destruct (commitSale col_eq fails b (fresh d n)) as [r c].
      cbn [fst snd] in *.
      destruct H as [(resp' & _ & items & _ & _ & _ & Hc & _)
                    |[[->| ->] _]].
      * rewrite Hc. unfold sale_recorded. cbn [members]. rewrite Hmd.
        reflexivity.
      * injection Hr as <-. cbn in Hs. destruct Hs as [Hs|Hs];
          discriminate Hs.
      * discriminate Hr.
    + injection Hv as <-. rewrite updatePoints_run in *.
      destruct (has_fields b); [|discriminate Hr].
      destruct (fails 0%nat); cbn [fst snd committed] in *.
      * injection Hr as <-. cbn in Hs. destruct Hs as [Hs|Hs];
          discriminate Hs.
      * reflexivity.
  - intros Hd Hv. destruct r as [id b|b|id b|b]; cbn [handle].
    + destruct (adjust_visible_rows (adjustStock_visible id b d n))
        as [_ Hm].
      unfold balances_ok. rewrite Hm. exact Hd.
    + pose proof (commitSale_run b d n) as H.
      destruct (commitSale col_eq fails b (fresh d n)) as [r c]. cbn [snd].
      destruct H as [(resp & _ & items & _ & _ & _ & Hc & _)|[_ Hobs]].
      * rewrite Hc. unfold balances_ok, sale_recorded. cbn [members].
        cbn [points_supplied] in Hv.
        destruct (truthy (field b "memberDetails")); [|exact Hd].
        apply set_points_ok; [|exact Hd].
        specialize (Hv _ eq_refl).
        destruct (field (field b "memberDetails") "newTotalPoints");
          try discriminate Hv; exact Hv.
      * rewrite <- (Obs_committed Hobs). exact Hd.
    + rewrite updatePoints_run. cbn [points_supplied] in Hv.
      specialize (Hv _ eq_refl).
      destruct (has_fields b); [|exact Hd].
      destruct (fails 0%nat); cbn; [exact Hd|].
      apply set_points_ok; [|exact Hd].
      destruct (field b "points"); try discriminate Hv; exact Hv.
    + destruct (createMember_run b d n) as [->|(row & Hp & ->)];
        [exact Hd|].
      unfold balances_ok, add_member. cbn [members].
      rewrite forallb_app. fold (balances_ok d). rewrite Hd. cbn.
      rewrite Hp. reflexivity.
Qed.

End Claims.

(** ** The identifier allocator *)
Lemma round53_exact z : z <= 2 ^ 53 -> Num.round53 z = Num.Fin z.
Proof.
  intros H. destruct (Z.eq_dec z (2 ^ 53)) as [->|Hne].
  - vm_compute. reflexivity.
  - unfold Num.round53. assert (Hlt : (z <? 2 ^ 53) = true).
    { apply Z.ltb_lt. lia. }
    rewrite Hlt. reflexivity.
Qed.

(** Up to 2^53 [String] prints every digit of the integer. *)
Lemma toString_exact z :
  z <= 2 ^ 53 -> Num.toString (Num.Fin z) = Num.decimal z.
Proof.
  intros H. destruct (Z.eq_dec z (2 ^ 53)) as [->|Hne].
  - vm_compute. reflexivity.
  - unfold Num.toString. assert (Hlt : (z <? 2 ^ 53) = true).
    { apply Z.ltb_lt. lia. }
    rewrite Hlt. reflexivity.
Qed.

Lemma max_digit_run_nonneg ids : 0 <= max_digit_run ids.
Proof.
  unfold max_digit_run. induction ids as [|id r IH]; cbn; lia.
Qed.

Lemma max_digit_run_cons id ids :
  max_digit_run (id :: ids) = Z.max (digit_run_value id) (max_digit_run ids).
Proof. reflexivity. Qed.

(** One round of the scan raises the running maximum to the value of the
    identifier's digit run, as long as that value is a safe integer. *)
Lemma scan_member_exact m id :
  0 <= m -> digit_run_value id < 2 ^ 53 ->
  scan_member (Num.Fin m) (VStr id)
  = Some (Num.Fin (Z.max m (digit_run_value id))).
Proof.
  intros Hm Hid. unfold scan_member, digit_run_value in *.
  destruct (match_digits id) as [run|].
  - unfold Num.parseInt.
    destruct (Num.leading_digits run 0 false) as [z|].
    + rewrite round53_exact by lia. cbn.
      destruct (m <? z) eqn:E; f_equal; f_equal.
      * apply Z.ltb_lt in E. lia.
      * apply Z.ltb_ge in E. lia.
    + cbn. f_equal. f_equal. lia.
  - f_equal. f_equal. lia.
Qed.

Lemma scan_members_exact ids : forall m,
  0 <= m < 2 ^ 53 -> max_digit_run ids < 2 ^ 53 ->
  scan_members (Num.Fin m) (map VStr ids)
  = Some (Num.Fin (Z.max m (max_digit_run ids))).
Proof.
  induction ids as [|id r IH]; intros m Hm Hmax.
  - cbn. f_equal. f_equal. unfold max_digit_run. cbn. lia.
  - rewrite max_digit_run_cons in *.
    pose proof (max_digit_run_nonneg r) as Hr.
    cbn [map scan_members]. rewrite scan_member_exact by lia.
    rewrite IH by lia. f_equal. f_equal. lia.
Qed.

(** C3 (as the code has it). On identifiers whose digit runs stay below
    2^53, the range in which adding one to a JavaScript number is exact,
    the allocator returns ['M'] followed by one plus the largest value of
    a first digit run (0 when there is none), zero-padded to at least 3
    digits. *)
Theorem nextMemberId_is_max_plus_one (ids : list string) :
  max_digit_run ids < 2 ^ 53 ->
  nextMemberId (map VStr ids) = Some (spec_nextMemberId ids).
Proof.
  intros H. pose proof (max_digit_run_nonneg ids) as H0.
  unfold nextMemberId, spec_nextMemberId.
  rewrite scan_members_exact by lia.
  rewrite Z.max_r by lia. cbn [Num.succ].
  rewrite round53_exact by lia.
  rewrite toString_exact by lia. reflexivity.
Qed.

Lemma nextMemberId_is_max_plus_one_witness :
  max_digit_run ["M001"; "M007"; "M003"] < 2 ^ 53 /\
  nextMemberId [VStr "M001"; VStr "M007"; VStr "M003"] = Some "M008".
Proof.
  split; [reflexivity|].
  exact (nextMemberId_is_max_plus_one ["M001"; "M007"; "M003"] eq_refl).
Defined.

(** The three cases of the specification, on the code. *)
Example nextMemberId_M008 :
  nextMemberId [VStr "M001"; VStr "M007"; VStr "M003"] = Some "M008".
Proof. vm_compute. reflexivity. Qed.

Example nextMemberId_M001 : nextMemberId [] = Some "M001".
Proof. vm_compute. reflexivity. Qed.

Example nextMemberId_M1000 : nextMemberId [VStr "M999"] = Some "M1000".
Proof. vm_compute. reflexivity. Qed.

(** Beyond 2^53 [String] prints the fewest digits that read back, and
    not the exact value of the double, here 75859791768514816. *)
Example nextMemberId_shortest_digits :
  nextMemberId [VStr "M75859791768514817"] = Some "M75859791768514820".
Proof. vm_compute. reflexivity. Qed.

(** At 2^53 the sum [maxNumber + 1] rounds back to [maxNumber]: the
    allocator returns the identifier that is already taken. *)
Lemma nextMemberId_repeats_at_2_53 :
  nextMemberId [VStr "M9007199254740992"] = Some "M9007199254740992" /\
  spec_nextMemberId ["M9007199254740992"] = "M9007199254740993" /\
  nextMemberId (map VStr ["M9007199254740992"])
  <> Some (spec_nextMemberId ["M9007199254740992"]).
Proof.
  split; [vm_compute; reflexivity|].
  split; [vm_compute; reflexivity|].
  vm_compute. intros H. discriminate H.
Qed.

(** ** The theorems at sample requests *)

Lemma adjustStock_sets_stock_and_logs_witness :
  let run := adjustStock sql_eq no_fault "1" (Sample.recount 8)
               (fresh Sample.shop 10) in
  (exists resp, fst run = Ret resp /\ status resp = 200) /\
  map inv_stock (inventory (committed (snd run))) = [vint 8] /\
  stock_history (committed (snd run))
  = [mkStockHistory (VStr "1") (vint 5) (vint 8) (VStr "recount")].
Proof.
  cbn zeta.
  destruct (@adjustStock_sets_stock_and_logs sql_eq no_fault "1"
              (Sample.recount 8) Sample.shop 10 _ eq_refl eq_refl)
    as (item & rest & Hm & _ & Hc & _).
  injection Hm as <- <-. rewrite Hc.
  split; [eexists; split; reflexivity|]. split; reflexivity.
Defined.

Lemma sale_sets_balance_and_logs_points_witness :
  let run := commitSale sql_eq no_fault Sample.sale (fresh Sample.shop 10) in
  (exists resp, fst run = Ret resp /\ status resp = 201) /\
  truthy (field Sample.sale "memberDetails") = true /\
  entries_for_sale 10 (member_points_history Sample.shop) = [] /\
  map m_points (members (committed (snd run))) = [vint 110; vint 0] /\
  entries_for_sale 10 (member_points_history (committed (snd run)))
  = [mkPointsHistory (VStr "M007") (vint 10) (vint 10) (vint 110)].
Proof.
  cbn zeta.
  destruct (@sale_sets_balance_and_logs_points sql_eq no_fault Sample.sale
              Sample.shop 10 _ eq_refl eq_refl eq_refl)
    as (_ & _ & _ & Hone).
  split; [eexists; split; reflexivity|].
  split; [reflexivity|]. split; [reflexivity|]. split; [reflexivity|].
  exact (Hone eq_refl).
Defined.

Lemma adjustStock_rejects_bad_quantity_witness :
  let run b := adjustStock sql_eq no_fault "1" b (fresh Sample.shop 10) in
  nonneg_number (field (Sample.recount (-1)) "newQuantity") = false /\
  fst (run (Sample.recount (-1)))
  = Ret (mkResponse 400 (BError "Invalid quantity")) /\
  committed (snd (run (Sample.recount (-1)))) = Sample.shop /\
  writes_issued (snd (run (Sample.recount (-1)))) = [] /\
  nonneg_number (field (Sample.recount (3 # 2)) "newQuantity") = true /\
  whole_number (3 # 2) = false /\
  (forall resp, fst (run (Sample.recount (3 # 2))) = Ret resp ->
                status resp <> 400).
Proof.
  cbn zeta.
  pose proof (adjustStock_rejects_bad_quantity sql_eq no_fault "1"
                (Sample.recount (-1)) Sample.shop 10) as H.
  pose proof (adjustStock_rejects_bad_quantity sql_eq no_fault "1"
                (Sample.recount (3 # 2)) Sample.shop 10) as H'.
  destruct (adjustStock sql_eq no_fault "1" (Sample.recount (-1))
              (fresh Sample.shop 10)) as [r c].
  destruct (adjustStock sql_eq no_fault "1" (Sample.recount (3 # 2))
              (fresh Sample.shop 10)) as [r' c'].
  destruct H as (_ & H & _). destruct (H eq_refl eq_refl) as (Hc & Hw & Hr).
  destruct H' as (_ & _ & H' & _). destruct (H' eq_refl) as [Hno _].
  cbn [fst snd]. split; [reflexivity|].
  split; [exact (Hr eq_refl eq_refl)|]. split; [assumption|].
  split; [assumption|]. split; [reflexivity|]. split; [reflexivity|].
  exact Hno.
Defined.

Lemma rejected_request_writes_nothing_witness :
  let r := AdjustStock "1" (Sample.recount (-1)) in
  fails_validation r = true /\
  committed (snd (Sample.run r)) = Sample.shop /\
  writes_issued (snd (Sample.run r)) = [].
Proof.
  cbn zeta. split; [reflexivity|].
  destruct (@rejected_request_writes_nothing sql_eq sort_by_member_id
              Sample.today no_fault (AdjustStock "1" (Sample.recount (-1)))
              Sample.shop 10 eq_refl) as (Hc & Hw & _).
  split; assumption.
Defined.

Lemma createMember_missing_field_is_500_witness :
  has_fields Sample.no_tier = true /\
  member_fields_missing Sample.no_tier = true /\
  fst (Sample.run (CreateMember Sample.no_tier))
  = Ret (mkResponse 500
           (BRegisterFailed
              (Error "Name, email, phone and tier are required"))) /\
  members (committed (snd (Sample.run (CreateMember Sample.no_tier))))
  = members Sample.shop.
Proof.
  split; [reflexivity|]. split; [reflexivity|].
  unfold Sample.run. cbn [handle].
  pose proof (@createMember_missing_field_is_500 sql_eq sort_by_member_id
                Sample.today no_fault Sample.no_tier Sample.shop 10
                eq_refl eq_refl) as H.
  destruct (createMember sql_eq sort_by_member_id Sample.today no_fault
              Sample.no_tier (fresh Sample.shop 10)) as [r c].
  destruct H as (Hr & Hex & _ & Hc). cbn [fst snd].
  destruct (Hex eq_refl) as [resp ->]. rewrite (Hr resp eq_refl), Hc.
  split; reflexivity.
Defined.

Lemma updatePoints_unknown_member_succeeds_witness :
  let b := VObj [("points", vint 5)] in
  let run := updatePoints sql_eq no_fault "M999" b (fresh Sample.shop 10) in
  has_fields b = true /\
  fst run = Ret (mkResponse 200 BSuccess) /\
  committed (snd run) = Sample.shop.
Proof.
  cbn zeta.
  pose proof (updatePoints_unknown_member_succeeds sql_eq no_fault "M999"
                (VObj [("points", vint 5)]) Sample.shop 10) as H.
  destruct (updatePoints sql_eq no_fault "M999" (VObj [("points", vint 5)])
              (fresh Sample.shop 10)) as [r c].
  destruct H as [_ H]. destruct (H eq_refl eq_refl) as [Hr Hc].
  cbn [fst snd]. split; [reflexivity|]. split; [assumption|].
  exact (Hc eq_refl).
Defined.

Lemma balances_stay_valid_on_valid_input_witness :
  let r := UpdatePoints "M007" (VObj [("points", vint 120)]) in
  balances_ok Sample.shop = true /\
  points_supplied r = Some (vint 120) /\
  nonneg_integer (vint 120) = true /\
  fst (Sample.run r) = Ret (mkResponse 200 BSuccess) /\
  members (committed (snd (Sample.run r)))
  = members (set_points (sql_eq members_member_id) (vint 120)
               (VStr "M007") Sample.shop) /\
  balances_ok (committed (snd (Sample.run r))) = true.
Proof.
  cbn zeta. split; [reflexivity|]. split; [reflexivity|].
  split; [reflexivity|]. split; [reflexivity|].
  destruct (@balances_stay_valid_on_valid_input sql_eq sort_by_member_id
              Sample.today no_fault
              (UpdatePoints "M007" (VObj [("points", vint 120)]))
              Sample.shop 10) as [Hstore Hkeep].
  split.
  - apply (Hstore (vint 120) (mkResponse 200 BSuccess) eq_refl eq_refl).
    left. reflexivity.
  - apply (Hkeep eq_refl). intros v H. injection H as <-. reflexivity.
Defined.

(** ** Where the code departs from the specification *)


(** C4 as stated fails: 1.5 is not a whole number, and the adjustment
    answers 200 and stores it. *)
Lemma adjustStock_accepts_fraction :
  let (r, c) := Sample.run (AdjustStock "1" (Sample.recount (3 # 2))) in
  whole_number (3 # 2) = false /\
  r <> Ret (mkResponse 400 (BError "Invalid quantity")) /\
  r = Ret (mkResponse 200
             (BItem (Some (mkInventory (VStr "1") (VNum (3 # 2))
                             (inv_columns Sample.pen))))) /\
  map inv_stock (inventory (committed c)) = [VNum (3 # 2)] /\
  stock_history (committed c)
  = [mkStockHistory (VStr "1") (vint 5) (VNum (3 # 2)) (VStr "recount")].
Proof.
  vm_compute. split; [reflexivity|]. split; [intros H; discriminate H|].
  repeat split.
Qed.

(** C5 as stated fails: the adjustment of a negative quantity begins a
    transaction before it rejects the quantity, and leaves it open. *)
Lemma adjustStock_begins_before_validating :
  let r := AdjustStock "1" (Sample.recount (-1)) in
  let c := snd (Sample.run r) in
  fails_validation r = true /\
  fst (Sample.run r) = Ret (mkResponse 400 (BError "Invalid quantity")) /\
  transaction_begun c = true /\
  pending c = Some Sample.shop.
Proof. vm_compute. repeat split. Qed.

(** C7 as stated fails: a body without tier is answered 500, not 400. *)
Lemma createMember_missing_tier_is_not_400 :
  let r := fst (Sample.run (CreateMember Sample.no_tier)) in
  field Sample.no_tier "tier" = VUndef /\
  r = Ret (mkResponse 500
             (BRegisterFailed
                (Error "Name, email, phone and tier are required"))) /\
  (forall resp, r = Ret resp -> status resp <> 400).
Proof.
  vm_compute. split; [reflexivity|]. split; [reflexivity|].
  intros resp H. injection H as <-. intros H. discriminate H.
Qed.

(** C9 as stated fails: the points update stores -5, and so does a sale
    whose [memberDetails] carry it. *)
Lemma negative_balance_is_stored :
  let direct := UpdatePoints "M007" (VObj [("points", vint (-5))]) in
  let by_sale :=
    CommitSale (VObj [("transactionId", VStr "T-2");
                      ("memberId", VStr "M007");
                      ("paymentMethod", VStr "cash"); ("items", VArr []);
                      ("memberDetails",
                       VObj [("pointsEarned", vint 0);
                             ("newTotalPoints", vint (-5))])]) in
  balances_ok Sample.shop = true /\
  fst (Sample.run direct) = Ret (mkResponse 200 BSuccess) /\
  map m_points (members (committed (snd (Sample.run direct))))
  = [vint (-5); vint 0] /\
  balances_ok (committed (snd (Sample.run direct))) = false /\
  map m_points (members (committed (snd (Sample.run by_sale))))
  = [vint (-5); vint 0] /\
  balances_ok (committed (snd (Sample.run by_sale))) = false.
Proof. vm_compute. repeat split. Qed.

(** A points update without [points] is answered 200 and stores NULL. *)
Example missing_balance_is_stored_as_null :
  let r := UpdatePoints "M007" (VObj []) in
  points_supplied r = Some VUndef /\
  fst (Sample.run r) = Ret (mkResponse 200 BSuccess) /\
  map m_points (members (committed (snd (Sample.run r))))
  = [VNull; vint 0] /\
  balances_ok (committed (snd (Sample.run r))) = false.
Proof. vm_compute. repeat split. Qed.

(** ** Runs in which no call fails, and runs that cannot succeed *)
Lemma hoare_vacuous {A} (m : M A) Q E : hoare (fun _ => False) m Q E.
Proof. intros c []. Qed.

Lemma hoare_call_ok {A} fails o (run : Conn -> A * Conn) (P : Conn -> Prop) E :
  (forall k, fails k = false) ->
  hoare P (call fails o run) (fun _ _ => True) E.
Proof.
  intros Hok c _. unfold call. rewrite Hok.
  destruct (run (tick c)) as [a c']. exact I.
Qed.

Lemma truthy_has_fields v : truthy v = true -> has_fields v = true.
Proof. destruct v; cbn; intros H; try discriminate; reflexivity. Qed.

Lemma truthy_bound v : truthy v = true -> bound v = v.
Proof. destruct v; cbn; intros H; try discriminate; reflexivity. Qed.

Lemma items_usable_body b :
  items_usable (field b "items") = true -> has_fields b = true.
Proof. destruct b; cbn; intros H; try discriminate; reflexivity. Qed.

(** One step of a run that cannot throw. *)
Ltac ok_step :=
  eapply hoare_bind with (Q' := fun _ _ => True) (E' := fun _ _ => False);
  [ | auto | intros ?u; cbn beta].

Ltac ok_prop H :=
  apply hoare_prop; [intros _ | intros ?F; rewrite H in F; discriminate F].

Section Outcomes.
Variable col_eq : column -> value -> value -> bool.
Variable order_by_member_id : list MemberRow -> list MemberRow.
Variable curdate : value.
Variable fails : nat -> bool.

Lemma insert_items_ok saleId elements :
  (forall k, fails k = false) ->
  forallb has_fields elements = true ->
  hoare (fun _ => True) (for_each elements (insert_item fails saleId))
        (fun _ _ => True) (fun _ _ => False).
Proof.
  intros Hok. induction elements as [|item rest IH]; intros H.
  - apply hoare_ret. auto.
  - cbn in H. apply andb_prop in H. destruct H as [Hi Hr].
    cbn [for_each]. ok_step; [|apply IH; exact Hr].
    unfold insert_item. do 4 ok_prop Hi. apply hoare_call_ok. exact Hok.
Qed.

Lemma insert_items_stuck saleId elements :
  forallb has_fields elements = false ->
  hoare (fun _ => True) (for_each elements (insert_item fails saleId))
        (fun _ _ => False) (fun _ _ => True).
Proof.
  induction elements as [|item rest IH]; intros H; [discriminate H|].
  cbn in H. cbn [for_each]. destruct (has_fields item) eqn:Hi.
  - eapply hoare_bind with (Q' := fun _ _ => True) (E' := fun _ _ => True);
      [apply hoare_any | auto | intros u; apply IH; exact H].
  - eapply hoare_bind with (Q' := fun _ _ => False) (E' := fun _ _ => True);
      [ | auto | intros u; apply hoare_vacuous].
    unfold insert_item. apply hoare_prop; [intros F|auto].
    rewrite Hi in F. discriminate F.
Qed.

Lemma commitSale_answers_201 b :
  (forall k, fails k = false) ->
  items_usable (field b "items") = true ->
  hoare (fun _ => True) (commitSale col_eq fails b)
        (fun r _ => status r = 201) (fun _ _ => False).
Proof.
  intros Hok Hit. pose proof (items_usable_body b Hit) as Hb.
  unfold items_usable in Hit.
  unfold commitSale.
  ok_step; [apply hoare_call_ok; exact Hok|].
  eapply hoare_finally with (Q' := fun r _ => status r = 201)
                            (E' := fun _ _ => False); [|auto|auto].
  eapply hoare_try with (E' := fun _ _ => False);
    [|intros e; apply hoare_vacuous].
  ok_step; [apply hoare_call_ok; exact Hok|].
  do 10 ok_prop Hb.
  ok_step; [apply hoare_call_ok; exact Hok|].
  destruct (iterate (field b "items")) as [elements|]; [|discriminate Hit].
  apply hoare_lift; [intros x Hx; injection Hx as <-|intros F; discriminate F].
  ok_step; [apply insert_items_ok; assumption|].
  ok_step.
  - destruct (truthy (field b "memberDetails")) eqn:Hmd.
    + pose proof (truthy_has_fields _ Hmd) as Hf.
      do 2 ok_prop Hf. ok_step; [apply hoare_call_ok; exact Hok|].
      ok_prop Hf. apply hoare_call_ok. exact Hok.
    + apply hoare_ret. auto.
  - ok_step; [apply hoare_call_ok; exact Hok|].
    apply hoare_ret. reflexivity.
Qed.

Lemma commitSale_answers_500 b :
  items_usable (field b "items") = false ->
  hoare (fun _ => True) (commitSale col_eq fails b)
        (fun r _ => status r = 500) (fun _ _ => True).
Proof.
  intros Hit. unfold items_usable in Hit. unfold commitSale.
  eapply hoare_bind with (Q' := fun _ _ => True) (E' := fun _ _ => True);
    [apply hoare_any | auto | intros u; cbn beta].
  eapply hoare_finally with (Q' := fun r _ => status r = 500)
                            (E' := fun _ _ => True); [|auto|auto].
  eapply hoare_try with (E' := fun _ _ => True).
  - eapply hoare_bind with (Q' := fun _ _ => True) (E' := fun _ _ => True);
      [apply hoare_any | auto | intros u0; cbn beta].
    do 10 (apply hoare_prop; [intros _|auto]).
    eapply hoare_bind with (Q' := fun _ _ => True) (E' := fun _ _ => True);
      [apply hoare_any | auto | intros saleId; cbn beta].
    apply hoare_lift; [intros elements Hx|auto].
    rewrite Hx in Hit.
    eapply hoare_bind with (Q' := fun _ _ => False) (E' := fun _ _ => True);
      [apply insert_items_stuck; exact Hit | auto | intros u1].
    apply hoare_vacuous.
  - intros e.
    eapply hoare_bind with (Q' := fun _ _ => True) (E' := fun _ _ => True);
      [apply hoare_any | auto | intros u0; cbn beta].
    apply hoare_ret. reflexivity.
Qed.

End Outcomes.

(** ** More on the sale commit *)
Section SaleOutcomes.
Variable col_eq : column -> value -> value -> bool.
Variable fails : nat -> bool.

(** X1. When no call of the driver fails and [items] is an array without
    [null] or [undefined] elements, POST /api/sales answers 201 with the
    new sale's identifier and the request's [transactionId]; the committed
    tables are those of the request's sale, its item rows and, when
    [memberDetails] is given, its points row and balance; no transaction
    is left open.  No other field of the body is checked. *)
Theorem commitSale_records_when_nothing_fails (b : value) (d : DB) (n : Z) :
  (forall k, fails k = false) ->
  items_usable (field b "items") = true ->
  let (r, c) := commitSale col_eq fails b (fresh d n) in
  exists items,
    iterate (field b "items") = Some items /\
    r = Ret (mkResponse 201 (BSale "Sale recorded successfully" (vint n)
                               (field b "transactionId"))) /\
    committed c = sale_recorded col_eq n b items d /\
    pending c = None.
Proof.
  intros Hok Hit.
  pose proof (@commitSale_answers_201 col_eq fails b Hok Hit (fresh d n) I)
    as H201.
  pose proof (commitSale_run col_eq fails b d n) as H.
  destruct (commitSale col_eq fails b (fresh d n)) as [r c].
  destruct H as [(resp & -> & items & Hi & -> & _ & Hc & Hp & _)|[[->| ->] _]].
  - exists items. auto.
  - discriminate H201.
  - destruct H201.
Qed.

(** The run from the accepted INSERT into [sales] on: whatever follows,
    the event stays in the trace and the identifier stays used. *)
Lemma sale_inserted_log k o ok c :
  sale_inserted c = true /\ next_sale_id c = k ->
  sale_inserted (log o ok (tick c)) = true /\
  next_sale_id (log o ok (tick c)) = k.
Proof.
  intros [H1 H2]. split; [|exact H2].
  unfold sale_inserted in *. unfold log. cbn.
  rewrite existsb_app, H1. reflexivity.
Qed.

Lemma call_keeps_sale {A} k o (run : Conn -> A * Conn) :
  (forall c, trace (snd (run c)) = trace c /\
             next_sale_id (snd (run c)) = next_sale_id c) ->
  hoare (fun c => sale_inserted c = true /\ next_sale_id c = k)
        (call fails o run)
        (fun _ c => sale_inserted c = true /\ next_sale_id c = k)
        (fun _ c => sale_inserted c = true /\ next_sale_id c = k).
Proof.
  intros Hrun. apply hoare_call.
  - intros c H. apply sale_inserted_log. exact H.
  - intros c [H1 H2]. destruct (Hrun (tick c)) as [Ht Hn].
    cbn in Ht, Hn. split.
    + unfold sale_inserted in *. unfold log. cbn.
      rewrite existsb_app, Ht, H1. reflexivity.
    + unfold log. cbn. rewrite Hn. exact H2.
Qed.

Lemma write_keeps f c :
  trace (write f c) = trace c /\ next_sale_id (write f c) = next_sale_id c.
Proof. unfold write. destruct (pending c); split; reflexivity. Qed.

(** A call whose position in the run is known not to fail. *)
Lemma hoare_call_at {A} (k : nat) o (run : Conn -> A * Conn)
  (P : Conn -> Prop) Q E :
  fails k = false ->
  (forall c, P c -> calls c = k) ->
  (forall c, P c ->
             Q (fst (run (tick c))) (log o true (snd (run (tick c))))) ->
  hoare P (call fails o run) Q E.
Proof.
  intros Hk Hat HQ c Hc. unfold call. rewrite (Hat c Hc), Hk.
  specialize (HQ c Hc). destruct (run (tick c)) as [a c']. exact HQ.
Qed.

Tactic Notation "keep_step" constr(k) :=
  eapply hoare_bind with
    (Q' := fun _ c => sale_inserted c = true /\ next_sale_id c = k)
    (E' := fun _ c => sale_inserted c = true /\ next_sale_id c = k);
  [ | auto | intros ?u; cbn beta].

Ltac keep_prop := apply hoare_prop; [intros _ | auto].

Ltac keep_call :=
  apply call_keeps_sale; intros ?c; cbn [fst snd];
  first [apply write_keeps | split; reflexivity].

Lemma insert_items_keep_sale k saleId elements :
  hoare (fun c => sale_inserted c = true /\ next_sale_id c = k)
        (for_each elements (insert_item fails saleId))
        (fun _ c => sale_inserted c = true /\ next_sale_id c = k)
        (fun _ c => sale_inserted c = true /\ next_sale_id c = k).
Proof.
  induction elements as [|item rest IH]; cbn [for_each].
  - apply hoare_ret. auto.
  - keep_step k; [|exact IH].
    unfold insert_item. do 4 keep_prop. unfold insert_sale_item. keep_call.
Qed.

(** Once connection, transaction and the INSERT into [sales] succeeded,
    the sale's identifier is used up, whatever the request comes to. *)
Lemma commitSale_uses_identifier b n :
  has_fields b = true ->
  fails 0%nat = false -> fails 1%nat = false -> fails 2%nat = false ->
  hoare (fun c => calls c = 0%nat /\ next_sale_id c = n)
        (commitSale col_eq fails b)
        (fun _ c => sale_inserted c = true /\ next_sale_id c = n + 1)
        (fun _ c => sale_inserted c = true /\ next_sale_id c = n + 1).
Proof.
  intros Hf F0 F1 F2. unfold commitSale.
  eapply hoare_bind with
    (Q' := fun _ c => calls c = 1%nat /\ next_sale_id c = n)
    (E' := fun _ _ => False); [ | intros e c [] | intros u; cbn beta].
  { unfold getConnection. apply hoare_call_at with (k := 0%nat);
      [exact F0 | intros c [H _]; exact H |].
    intros c [H1 H2]. cbn. rewrite H1. auto. }
  eapply hoare_finally with
    (Q' := fun _ c => sale_inserted c = true /\ next_sale_id c = n + 1)
    (E' := fun _ c => sale_inserted c = true /\ next_sale_id c = n + 1);
    [ | intros r c H; exact H | intros e c H; exact H].
  eapply hoare_try with
    (E' := fun _ c => sale_inserted c = true /\ next_sale_id c = n + 1).
  - eapply hoare_bind with
      (Q' := fun _ c => calls c = 2%nat /\ next_sale_id c = n)
      (E' := fun _ _ => False); [ | intros e c [] | intros u0; cbn beta].
    { unfold beginTransaction. apply hoare_call_at with (k := 1%nat);
        [exact F1 | intros c [H _]; exact H |].
      intros c [H1 H2]. cbn. rewrite H1. auto. }
    do 10 (apply hoare_prop;
           [intros _ | intros F; rewrite Hf in F; discriminate F]).
    eapply hoare_bind with
      (Q' := fun _ c => sale_inserted c = true /\ next_sale_id c = n + 1)
      (E' := fun _ _ => False); [ | intros e c [] | intros saleId; cbn beta].
    { unfold insert_sale. apply hoare_call_at with (k := 2%nat);
        [exact F2 | intros c [H _]; exact H |].
      intros c [H1 H2]. cbn [fst snd].
      destruct (write_keeps
                  (add_sale
                     (mkSale (vint (next_sale_id (tick c)))
                        (bound (field b "transactionId"))
                        (bound (field b "customerName"))
                        (bound (js_or (field b "memberId") VNull))
                        (bound (field b "paymentMethod"))
                        (bound (field b "subtotal"))
                        (bound (field b "discount")) (bound (field b "sst"))
                        (bound (field b "totalAmount")))) (tick c))
        as [Ht Hn].
      unfold sale_inserted, log. cbn. rewrite existsb_app. cbn.
      rewrite orb_true_r. split; [reflexivity|]. rewrite H2. reflexivity. }
    apply hoare_lift; [intros elements _ | auto].
    keep_step (n + 1); [apply insert_items_keep_sale|].
    keep_step (n + 1).
    + destruct (truthy (field b "memberDetails")).
      * do 2 keep_prop. keep_step (n + 1).
        { unfold insert_points_history. keep_call. }
        keep_prop. unfold update_member_points. keep_call.
      * apply hoare_ret. auto.
    + keep_step (n + 1); [unfold commit; keep_call|].
      apply hoare_ret. auto.
  - intros e. keep_step (n + 1); [unfold rollback; keep_call|].
    apply hoare_ret. auto.
Qed.

(** A run in which no call fails sends an answer. *)
Lemma commitSale_answers b :
  (forall k, fails k = false) ->
  hoare (fun _ => True) (commitSale col_eq fails b)
        (fun _ _ => True) (fun _ _ => False).
Proof.
  intros Hok. unfold commitSale.
  ok_step; [apply hoare_call_ok; exact Hok|].
  eapply hoare_finally with (Q' := fun _ _ => True)
                            (E' := fun _ _ => False); [|auto|auto].
  eapply hoare_try with (E' := fun _ _ => True); [apply hoare_any|].
  intros e. ok_step; [apply hoare_call_ok; exact Hok|].
  apply hoare_ret. auto.
Qed.

(** X2. A sale whose [items] cannot be walked, because it is missing, not
    iterable, or holds a [null] or [undefined] element, is never
    recorded: the committed tables are those before the request.  The
    answer is 500 "Failed to record sale" with the transaction rolled
    back, and it is that whenever no call fails; no answer is sent only
    when the run ends on a failed [getConnection] or [rollback].  The
    walk comes after the INSERT into [sales]: when connection,
    transaction and that INSERT succeed, the row was inserted inside the
    transaction and the identifier of the sale is used up, although no
    sale is recorded. *)
Theorem commitSale_fails_on_unusable_items (b : value) (d : DB) (n : Z) :
  has_fields b = true ->
  items_usable (field b "items") = false ->
  let (r, c) := commitSale col_eq fails b (fresh d n) in
  committed c = d /\
  ((r = Ret (mkResponse 500 (BError "Failed to record sale")) /\
    pending c = None)
   \/
   (r = Throw StorageError /\
    (failed_last c = Some GetConnection /\ pending c = None
     \/ failed_last c = Some Rollback))) /\
  ((forall k, fails k = false) ->
   r = Ret (mkResponse 500 (BError "Failed to record sale"))) /\
  (fails 0%nat = false -> fails 1%nat = false -> fails 2%nat = false ->
   sale_inserted c = true /\ next_sale_id c = n + 1).
Proof.
  intros Hf Hit.
  pose proof (@commitSale_answers_500 col_eq fails b Hit (fresh d n) I)
    as H500.
  pose proof (commitSale_run col_eq fails b d n) as H.
  pose proof (@commitSale_aborts col_eq fails b (fresh d n) eq_refl) as Ha.
  pose proof (fun Hok => @commitSale_answers b Hok (fresh d n) I) as Hans.
  pose proof (fun F0 F1 F2 =>
                @commitSale_uses_identifier b n Hf F0 F1 F2 (fresh d n)
                  (conj eq_refl eq_refl)) as Hid.
  destruct (commitSale col_eq fails b (fresh d n)) as [r c].
  destruct H as [(resp & -> & items & Hi & -> & _)|[Hr Hobs]].
  - discriminate H500.
  - split; [symmetry; apply (Obs_committed Hobs)|].
    destruct Hr as [-> | ->]; cbn in Ha.
    + split; [left; split; [reflexivity|]|split].
      * destruct Ha as [Ha|Ha]; [discriminate Ha|exact Ha].
      * reflexivity.
      * exact Hid.
    + split; [right; split; [reflexivity|exact Ha]|split].
      * intros Hok. destruct (Hans Hok).
      * exact Hid.
Qed.

End SaleOutcomes.

(** ** More on the stock adjustment *)
Ltac split_faults fails :=
  repeat match goal with
         | |- context [fails ?k] => destruct (fails k) eqn:?; cbn
         end.

Section StockOutcomes.
Variable col_eq : column -> value -> value -> bool.
Variable fails : nat -> bool.

Ltac run_adjustStock Hf Hq :=
  unfold quantity_rejected in Hq;
  unfold adjustStock, getConnection, beginTransaction, select_inventory,
    update_stock, insert_stock_history, commit, rollback, bind, finally,
    try_catch, call, prop, lift, fresh;
  rewrite !get_prop_field, Hf; cbn.

(** X3. An adjustment with an acceptable quantity for an identifier no
    inventory row has writes nothing: the committed tables stay, no write
    statement is sent, the answer is 404 or 500, and it is 404 "Item not
    found", with the transaction rolled back, when the first four calls
    (connection, begin, select, rollback) succeed. *)
Theorem adjustStock_unknown_item (id : string) (b : value) (d : DB) (n : Z) :
  has_fields b = true ->
  quantity_rejected b = false ->
  matching_items col_eq id d = [] ->
  let (r, c) := adjustStock col_eq fails id b (fresh d n) in
  committed c = d /\ writes_issued c = [] /\
  (forall resp, r = Ret resp -> status resp = 404 \/ status resp = 500) /\
  (fails 0%nat = false -> fails 1%nat = false -> fails 2%nat = false ->
   fails 3%nat = false ->
   r = Ret (mkResponse 404 (BError "Item not found")) /\ pending c = None).
Proof.
  intros Hf Hq Hm. unfold matching_items in Hm. run_adjustStock Hf Hq.
  destruct (fails 0%nat); cbn.
  { repeat split; intros; discriminate. }
  destruct (fails 1%nat); cbn.
  { destruct (fails 2%nat); cbn; repeat split; intros; try discriminate.
    right. match goal with H : Ret _ = Ret _ |- _ => injection H as <- end.
    reflexivity. }
  rewrite Hq. cbn. destruct (fails 2%nat); cbn.
  { destruct (fails 3%nat); cbn; repeat split; intros; try discriminate.
    right. match goal with H : Ret _ = Ret _ |- _ => injection H as <- end.
    reflexivity. }
  rewrite Hm. cbn. destruct (fails 3%nat); cbn.
  { destruct (fails 4%nat); cbn; repeat split; intros; try discriminate.
    right. match goal with H : Ret _ = Ret _ |- _ => injection H as <- end.
    reflexivity. }
  repeat split; intros.
  left. match goal with H : Ret _ = Ret _ |- _ => injection H as <- end.
  reflexivity.
Qed.

(** X4. When no call fails, an adjustment with an acceptable quantity for
    an existing item answers 200 with the first matching row as it reads
    after the update: same identifier and other columns, the requested
    quantity as stock.  Both writes are committed and no transaction is
    left open. *)
Theorem adjustStock_answers_updated_item (id : string) (b : value) (d : DB)
  (n : Z) (item : InventoryRow) (rest : list InventoryRow) :
  (forall k, fails k = false) ->
  has_fields b = true ->
  quantity_rejected b = false ->
  matching_items col_eq id d = item :: rest ->
  let (r, c) := adjustStock col_eq fails id b (fresh d n) in
  r = Ret (mkResponse 200
             (BItem (Some (mkInventory (inv_id item) (field b "newQuantity")
                             (inv_columns item))))) /\
  committed c = stock_adjusted col_eq id b item d /\
  pending c = None.
Proof.
  intros Hok Hf Hq Hm. destruct (quantity_accepted b Hq) as [Hnum _].
  pose proof (matching_after_set_stock col_eq id (field b "newQuantity") d)
    as Hafter.
  rewrite Hm in Hafter. unfold matching_items in Hm.
  run_adjustStock Hf Hq. rewrite (bound_number _ Hnum). cbn in Hafter.
  repeat (progress (rewrite ?Hok, ?Hq, ?Hm, ?Hafter; cbn)).
  unfold stock_adjusted, add_stock_history, set_stock. cbn.
  rewrite (bound_number _ Hnum). repeat split.
Qed.

(** X5. The adjustment reads the item back after the commit (line 141).
    When that last query fails, the answer is 500 "Failed to update stock
    level" (or none, when the rollback of the handler fails too), although
    the new stock and its history row are committed: a 500 from this
    handler does not mean that nothing was stored. *)
Theorem adjustStock_500_after_commit (id : string) (b : value) (d : DB) (n : Z)
  (item : InventoryRow) (rest : list InventoryRow) :
  fails 0%nat = false -> fails 1%nat = false -> fails 2%nat = false ->
  fails 3%nat = false -> fails 4%nat = false -> fails 5%nat = false ->
  fails 6%nat = true ->
  has_fields b = true ->
  quantity_rejected b = false ->
  matching_items col_eq id d = item :: rest ->
  let (r, c) := adjustStock col_eq fails id b (fresh d n) in
  committed c = stock_adjusted col_eq id b item d /\
  (r = Ret (mkResponse 500 (BError "Failed to update stock level"))
   \/ r = Throw StorageError) /\
  (fails 7%nat = false ->
   r = Ret (mkResponse 500 (BError "Failed to update stock level"))).
Proof.
  intros F0 F1 F2 F3 F4 F5 H6 Hf Hq Hm.
  destruct (quantity_accepted b Hq) as [Hnum _].
  unfold matching_items in Hm.
  run_adjustStock Hf Hq.
  repeat (progress (rewrite ?F0, ?F1, ?F2, ?F3, ?F4, ?F5, ?H6, ?Hq, ?Hm; cbn)).
  unfold stock_adjusted, add_stock_history, set_stock. cbn.
  destruct (fails 7%nat); cbn; repeat split; auto; intros F; discriminate F.
Qed.

Lemma adjust_visible_frame id b d x :
  adjust_visible col_eq id b d x ->
  map inv_id (inventory x) = map inv_id (inventory d) /\
  map inv_columns (inventory x) = map inv_columns (inventory d) /\
  (forall row, In row (inventory d) ->
               col_eq inventory_id (inv_id row) (VStr id) = false ->
               In row (inventory x)) /\
  (exists added, stock_history x = stock_history d ++ added
                 /\ (length added <= 1)%nat) /\
  sales x = sales d /\ sales_items x = sales_items d /\
  member_points_history x = member_points_history d /\
  members x = members d /\ membership_tiers x = membership_tiers d.
Proof.
  intros [->|(item & rest & _ & _ & ->)].
  - repeat split; auto. exists []. rewrite app_nil_r. split; [reflexivity|].
    cbn. lia.
  - unfold stock_adjusted, add_stock_history, set_stock. cbn.
    repeat split.
    + rewrite map_map. apply map_ext. intros r.
      destruct (col_eq inventory_id (inv_id r) (VStr id)); reflexivity.
    + rewrite map_map. apply map_ext. intros r.
      destruct (col_eq inventory_id (inv_id r) (VStr id)); reflexivity.
    + intros row Hin Hno. apply in_map_iff. exists row.
      rewrite Hno. auto.
    + eexists. split; [reflexivity|]. cbn. lia.
Qed.

(** X6. Whatever the request and whichever calls fail, an adjustment
    leaves in the committed tables the identifiers and the other columns
    of every inventory row, every row the identifier does not select, and
    the tables of sales, sale items, points history, members and tiers;
    the stock history only grows, by at most one row. *)
Theorem adjustStock_touches_one_stock (id : string) (b : value) (d : DB)
  (n : Z) :
  let x := committed (snd (adjustStock col_eq fails id b (fresh d n))) in
  map inv_id (inventory x) = map inv_id (inventory d) /\
  map inv_columns (inventory x) = map inv_columns (inventory d) /\
  (forall row, In row (inventory d) ->
               col_eq inventory_id (inv_id row) (VStr id) = false ->
               In row (inventory x)) /\
  (exists added, stock_history x = stock_history d ++ added
                 /\ (length added <= 1)%nat) /\
  sales x = sales d /\ sales_items x = sales_items d /\
  member_points_history x = member_points_history d /\
  members x = members d /\ membership_tiers x = membership_tiers d.
Proof.
  cbn zeta. apply (@adjust_visible_frame id b d).
  apply adjustStock_visible.
Qed.

End StockOutcomes.

(** ** More on the points update and the registration *)
Lemma finally_releases {A} (body : M A) c :
  released (snd (finally body release c)) = true.
Proof. unfold finally. destruct (body c) as [r c']. reflexivity. Qed.

Lemma left_join_tier_first col_eq tiers m :
  exists mult rest, left_join_tier col_eq tiers m = (m, mult) :: rest.
Proof.
  unfold left_join_tier.
  destruct (filter _ tiers) as [|t ts]; cbn; eauto.
Qed.

Lemma filter_none {A} (p : A -> bool) l :
  forallb (fun x => negb (p x)) l = true -> filter p l = [].
Proof.
  induction l as [|x r IH]; [reflexivity|]. cbn. intros H.
  apply andb_prop in H. destruct H as [H1 H2].
  apply negb_true_iff in H1. rewrite H1. auto.
Qed.

Lemma scan_member_string m v :
  is_string v = true -> exists m', scan_member m v = Some m'.
Proof.
  destruct v; cbn; intros H; try discriminate.
  destruct (match_digits s); [|eauto].
  destruct (_ && _); eauto.
Qed.

(** The scan throws exactly when some identifier is not a string. *)
Lemma scan_members_strings ids : forall m,
  (exists m', scan_members m ids = Some m') <-> forallb is_string ids = true.
Proof.
  induction ids as [|v r IH]; intros m; cbn.
  - split; eauto.
  - destruct (is_string v) eqn:Hv; cbn.
    + destruct (scan_member_string m v Hv) as [m1 ->]. apply IH.
    + split; [|discriminate]. intros [m' H].
      destruct v; cbn in *; discriminate.
Qed.

Lemma nextMemberId_strings ids :
  (exists id, nextMemberId ids = Some id) <-> forallb is_string ids = true.
Proof.
  unfold nextMemberId. rewrite <- (scan_members_strings ids (Num.Fin 0)).
  destruct (scan_members (Num.Fin 0) ids); split; intros [x H]; eauto;
    discriminate.
Qed.

Section MemberOutcomes.
Variable col_eq : column -> value -> value -> bool.
Variable order_by_member_id : list MemberRow -> list MemberRow.
Variable curdate : value.
Variable fails : nat -> bool.

(** X7. Each handler that takes a connection from the pool (stock
    adjustment, sale commit, registration) gives it back, on every path
    through its [try], [catch] and [finally], exactly when it obtained
    one: the connection is released at the end if and only if
    [getConnection] did not fail. *)
Theorem connection_is_released (r : request) (d : DB) (n : Z) :
  takes_connection r = true ->
  let c := snd (handle col_eq order_by_member_id curdate fails r
                  (fresh d n)) in
  released c = negb (fails 0%nat).
Proof.
  destruct r as [id b|b|id b|b]; cbn [takes_connection handle]; intros H;
    try discriminate H; cbn zeta.
  - unfold adjustStock, bind at 1. unfold getConnection, call, fresh. cbn.
    destruct (fails 0%nat); [reflexivity|]. apply finally_releases.
  - unfold commitSale, bind at 1. unfold getConnection, call, fresh. cbn.
    destruct (fails 0%nat); [reflexivity|]. apply finally_releases.
  - unfold createMember, prop, lift. rewrite !get_prop_field, H. cbn.
    unfold bind at 1. unfold getConnection, call, fresh. cbn.
    destruct (fails 0%nat); [reflexivity|]. apply finally_releases.
Qed.

(** X8. PATCH /api/members/:id/points, when its one query succeeds,
    overwrites the balance of every member the identifier selects with the
    [points] of the body as bound ([undefined] as NULL), unchecked; it
    leaves every other member row, the set of members, the points history,
    the inventory and the sales as they were, and sends exactly one
    statement. *)
Theorem updatePoints_overwrites_balance (id : string) (b : value) (d : DB)
  (n : Z) :
  has_fields b = true -> fails 0%nat = false ->
  let c := snd (updatePoints col_eq fails id b (fresh d n)) in
  let p := bound (field b "points") in
  (forall m, In m (members (committed c)) ->
             col_eq members_member_id (m_member_id m) (VStr id) = true ->
             m_points m = p) /\
  (forall m, In m (members d) ->
             col_eq members_member_id (m_member_id m) (VStr id) = false ->
             In m (members (committed c))) /\
  map m_member_id (members (committed c)) = map m_member_id (members d) /\
  member_points_history (committed c) = member_points_history d /\
  inventory (committed c) = inventory d /\
  sales (committed c) = sales d /\
  issued c = [UpdateMemberPoints p (VStr id)].
Proof.
  intros Hf F0. rewrite updatePoints_run, Hf, F0. cbn zeta. cbn [snd committed].
  split; [|split; [|split]].
  - intros m Hin Hm. eapply set_points_In; eassumption.
  - intros m Hin Hm. cbn. apply in_map_iff. exists m. rewrite Hm. auto.
  - apply set_points_ids.
  - repeat split.
Qed.

Ltac run_createMember Hf :=
  unfold createMember, getConnection, select_member_ids, insert_member,
    select_member_with_tier, bind, finally, try_catch, call, prop, lift,
    fresh;
  rewrite !get_prop_field, Hf; cbn.

(** X9. A registration with all four fields, when its four calls succeed
    and the allocator yields [id], commits exactly one new member row:
    identifier [id], the four fields of the body, points 0, the current
    date, total spent 0, appended to the members; the answer is 201.  When
    no older member has that identifier, the answer carries the row just
    created. *)
Theorem createMember_registers (b : value) (d : DB) (n : Z) (id : string) :
  has_fields b = true ->
  member_fields_missing b = false ->
  nextMemberId (map m_member_id (order_by_member_id (members d))) = Some id ->
  fails 0%nat = false -> fails 1%nat = false -> fails 2%nat = false ->
  fails 3%nat = false ->
  let (r, c) :=
    createMember col_eq order_by_member_id curdate fails b (fresh d n) in
  committed c = add_member (new_member curdate id b) d /\
  (exists row, r = Ret (mkResponse 201 (BMember row))) /\
  (col_eq members_member_id (VStr id) (VStr id) = true ->
   forallb (fun m => negb (col_eq members_member_id (m_member_id m)
                                  (VStr id))) (members d) = true ->
   exists multiplier,
     r = Ret (mkResponse 201
                (BMember (Some (new_member curdate id b, multiplier))))).
Proof.
  intros Hf Hq Hid F0 F1 F2 F3. unfold member_fields_missing in Hq.
  apply orb_false_elim in Hq. destruct Hq as [Hq Ht].
  apply orb_false_elim in Hq. destruct Hq as [Hq Hp].
  apply orb_false_elim in Hq. destruct Hq as [Hn He].
  apply negb_false_iff in Hn, He, Hp, Ht.
  run_createMember Hf. rewrite F0. cbn. rewrite Hn, He, Hp, Ht. cbn.
  rewrite F1. cbn. rewrite Hid. cbn. rewrite F2. cbn. rewrite F3. cbn.
  rewrite !truthy_bound by assumption.
  split; [reflexivity|]. split; [eexists; reflexivity|].
  intros Hrefl Hnone. rewrite filter_app, (filter_none _ _ Hnone). cbn.
  rewrite Hrefl. cbn. rewrite app_nil_r.
  destruct (left_join_tier_first col_eq (membership_tiers d)
              (new_member curdate id b)) as (mult & rest & E).
  unfold new_member in E. rewrite E. cbn. exists mult. reflexivity.
Qed.

(** X10. The registration runs outside a transaction.  When the query
    that reads the new member back (line 449) fails, the answer is 500
    "Failed to register member" with the driver's error, yet the member
    row is stored: a failed registration can leave a member behind. *)
Theorem createMember_500_keeps_member (b : value) (d : DB) (n : Z)
  (id : string) :
  has_fields b = true ->
  member_fields_missing b = false ->
  nextMemberId (map m_member_id (order_by_member_id (members d))) = Some id ->
  fails 0%nat = false -> fails 1%nat = false -> fails 2%nat = false ->
  fails 3%nat = true ->
  let (r, c) :=
    createMember col_eq order_by_member_id curdate fails b (fresh d n) in
  r = Ret (mkResponse 500 (BRegisterFailed StorageError)) /\
  committed c = add_member (new_member curdate id b) d.
Proof.
  intros Hf Hq Hid F0 F1 F2 F3. unfold member_fields_missing in Hq.
  apply orb_false_elim in Hq. destruct Hq as [Hq Ht].
  apply orb_false_elim in Hq. destruct Hq as [Hq Hp].
  apply orb_false_elim in Hq. destruct Hq as [Hn He].
  apply negb_false_iff in Hn, He, Hp, Ht.
  run_createMember Hf. rewrite F0. cbn. rewrite Hn, He, Hp, Ht. cbn.
  rewrite F1. cbn. rewrite Hid. cbn. rewrite F2. cbn. rewrite F3. cbn.
  rewrite !truthy_bound by assumption. split; reflexivity.
Qed.

(** X11. The allocator calls [match] on every stored identifier.  When
    some member's identifier is not a string (NULL, or a number), every
    well-formed registration fails with a TypeError: 500, nothing stored,
    no write sent. *)
Theorem createMember_needs_string_ids (b : value) (d : DB) (n : Z) :
  has_fields b = true ->
  member_fields_missing b = false ->
  forallb is_string (map m_member_id (order_by_member_id (members d)))
  = false ->
  fails 0%nat = false -> fails 1%nat = false ->
  let (r, c) :=
    createMember col_eq order_by_member_id curdate fails b (fresh d n) in
  r = Ret (mkResponse 500 (BRegisterFailed TypeError)) /\
  committed c = d /\ writes_issued c = [].
Proof.
  intros Hf Hq Hids F0 F1. unfold member_fields_missing in Hq.
  assert (Hnone : nextMemberId
                    (map m_member_id (order_by_member_id (members d)))
                  = None).
  { destruct (nextMemberId _) as [id|] eqn:E; [|reflexivity].
    assert (Hex : exists x, nextMemberId
              (map m_member_id (order_by_member_id (members d))) = Some x)
      by eauto.
    apply nextMemberId_strings in Hex. congruence. }
  run_createMember Hf. rewrite F0. cbn. rewrite Hq. cbn.
  rewrite F1. cbn. rewrite Hnone. cbn. repeat split.
Qed.

End MemberOutcomes.

(** ** The allocator reads back what it prints *)
Lemma uint_value_pos d : forall acc,
  Z.pos (Pos.of_uint_acc d acc) = uint_value d (Z.pos acc).
Proof.
  induction d; intros acc; cbn [Pos.of_uint_acc uint_value];
    try reflexivity; rewrite IHd; f_equal; lia.
Qed.

Lemma uint_value_N d : Z.of_N (N.of_uint d) = uint_value d 0.
Proof.
  unfold N.of_uint.
  induction d; cbn [Pos.of_uint uint_value]; try reflexivity;
    try exact IHd; cbn [Z.of_N]; rewrite uint_value_pos; reflexivity.
Qed.

Lemma leading_digits_numeral d : forall acc seen,
  Num.leading_digits (NilEmpty.string_of_uint d) acc seen
  = match d with
    | Decimal.Nil => if seen then Some acc else None
    | _ => Some (uint_value d acc)
    end.
Proof.
  induction d; intros acc seen; cbn [NilEmpty.string_of_uint];
    try reflexivity;
    cbn [Num.leading_digits uint_value];
    match goal with
    | |- context [Num.is_digit ?c] =>
        change (Num.is_digit c) with true; cbn iota
    end;
    match goal with
    | |- context [Num.digit_val ?c] =>
        let v := eval vm_compute in (Num.digit_val c) in
        change (Num.digit_val c) with v
    end;
    rewrite ?Z.add_0_r, IHd; destruct d; reflexivity.
Qed.

Lemma all_digits_numeral d : all_digits (NilEmpty.string_of_uint d) = true.
Proof. induction d; cbn; auto. Qed.

Lemma decimal_numeral z :
  exists d, d <> Decimal.Nil /\
            Num.decimal z = NilEmpty.string_of_uint d /\
            uint_value d 0 = Z.of_N (Z.to_N z).
Proof.
  unfold Num.decimal, NilZero.string_of_uint.
  pose proof (DecimalN.Unsigned.of_to (Z.to_N z)) as Hof.
  destruct (N.to_uint (Z.to_N z)) as [|r|r|r|r|r|r|r|r|r|r] eqn:E.
  - exists (Decimal.D0 Decimal.Nil). cbn in Hof. rewrite <- Hof.
    repeat split. discriminate.
  - eexists. split; [|split; [reflexivity|]]; [discriminate|].
    rewrite <- uint_value_N, Hof. reflexivity.
  - eexists. split; [|split; [reflexivity|]]; [discriminate|].
    rewrite <- uint_value_N, Hof. reflexivity.
  - eexists. split; [|split; [reflexivity|]]; [discriminate|].
    rewrite <- uint_value_N, Hof. reflexivity.
  - eexists. split; [|split; [reflexivity|]]; [discriminate|].
    rewrite <- uint_value_N, Hof. reflexivity.
  - eexists. split; [|split; [reflexivity|]]; [discriminate|].
    rewrite <- uint_value_N, Hof. reflexivity.
  - eexists. split; [|split; [reflexivity|]]; [discriminate|].
    rewrite <- uint_value_N, Hof. reflexivity.
  - eexists. split; [|split; [reflexivity|]]; [discriminate|].
    rewrite <- uint_value_N, Hof. reflexivity.
  - eexists. split; [|split; [reflexivity|]]; [discriminate|].
    rewrite <- uint_value_N, Hof. reflexivity.
  - eexists. split; [|split; [reflexivity|]]; [discriminate|].
    rewrite <- uint_value_N, Hof. reflexivity.
  - eexists. split; [|split; [reflexivity|]]; [discriminate|].
    rewrite <- uint_value_N, Hof. reflexivity.
Qed.

(** [String(n)] of a non-negative integer is a run of digits that
    [parseInt] reads back as [n]. *)
Lemma decimal_reads_back z :
  0 <= z ->
  all_digits (Num.decimal z) = true /\
  Num.decimal z <> "" /\
  forall seen, Num.leading_digits (Num.decimal z) 0 seen = Some z.
Proof.
  intros Hz. destruct (decimal_numeral z) as (d & Hd & -> & Hv).
  split; [apply all_digits_numeral|]. split.
  - destruct d; cbn; try discriminate. contradiction.
  - intros seen. rewrite leading_digits_numeral, Hv, Z2N.id by assumption.
    destruct d; try reflexivity. contradiction.
Qed.

Lemma take_all_digits s : all_digits s = true -> take_digits s = s.
Proof.
  induction s as [|c r IH]; [reflexivity|]. cbn. intros H.
  apply andb_prop in H. destruct H as [Hc Hr]. rewrite Hc, IH; auto.
Qed.

Lemma all_digits_app s t :
  all_digits (s ++ t) = all_digits s && all_digits t.
Proof.
  induction s as [|c r IH]; [reflexivity|]. cbn. rewrite IH.
  apply andb_assoc.
Qed.

Lemma all_digits_zeros k : all_digits (repeat_char "0" k) = true.
Proof. induction k; cbn; auto. Qed.

Lemma leading_zeros k s : forall seen,
  Num.leading_digits (repeat_char "0" k ++ s) 0 seen
  = Num.leading_digits s 0 (match k with O => seen | _ => true end).
Proof.
  induction k as [|k IH]; intros seen; [reflexivity|].
  cbn [repeat_char String.append Num.leading_digits].
  change (Num.is_digit "0") with true. cbn iota.
  change (10 * 0 + Num.digit_val "0") with 0. rewrite IH.
  destruct k; reflexivity.
Qed.

(** The digit run of ['M'] followed by the zero-padded decimal of [z] is
    [z]. *)
Lemma digit_run_of_identifier z :
  0 <= z ->
  digit_run_value ("M" ++ padStart (Num.decimal z) 3 "0") = z.
Proof.
  intros Hz. destruct (decimal_reads_back Hz) as (Hall & Hne & Hval).
  unfold digit_run_value, padStart.
  set (k := (3 - String.length (Num.decimal z))%nat).
  assert (Hd : all_digits (repeat_char "0" k ++ Num.decimal z) = true).
  { rewrite all_digits_app, all_digits_zeros, Hall. reflexivity. }
  assert (Hrun : match_digits ("M" ++ (repeat_char "0" k ++ Num.decimal z))
                 = Some (repeat_char "0" k ++ Num.decimal z)%string).
  { cbn [String.append match_digits].
    change (Num.is_digit "M") with false. cbn iota.
    destruct (repeat_char "0" k ++ Num.decimal z)%string as [|c r] eqn:E.
    - destruct k; cbn in E; [contradiction|discriminate].
    - cbn in Hd. apply andb_prop in Hd. destruct Hd as [Hc Hr].
      cbn [match_digits]. rewrite Hc, (take_all_digits _ Hr). reflexivity. }
  rewrite Hrun, leading_zeros, Hval. reflexivity.
Qed.

Lemma digit_run_le_max id ids :
  In id ids -> digit_run_value id <= max_digit_run ids.
Proof.
  unfold max_digit_run. induction ids as [|x r IH]; cbn; [contradiction|].
  intros [->|H]; [lia|]. specialize (IH H). lia.
Qed.

(** X12. Below 2^53 the allocator never hands out an identifier in use:
    for identifiers whose digit runs are all below 2^53, the result exists,
    its own digit run reads back as the maximum plus one (printing and
    parsing agree, zero-padding included), and it is none of the given
    identifiers. *)
Theorem nextMemberId_is_new (ids : list string) :
  max_digit_run ids < 2 ^ 53 ->
  exists id,
    nextMemberId (map VStr ids) = Some id /\
    digit_run_value id = max_digit_run ids + 1 /\
    ~ In id ids.
Proof.
  intros H. pose proof (max_digit_run_nonneg ids) as H0.
  assert (E : nextMemberId (map VStr ids) = Some (spec_nextMemberId ids)).
  { unfold nextMemberId, spec_nextMemberId.
    rewrite scan_members_exact by lia.
    rewrite Z.max_r by lia. cbn [Num.succ].
    rewrite round53_exact by lia.
    rewrite toString_exact by lia. reflexivity. }
  exists (spec_nextMemberId ids). split; [exact E|].
  assert (Hv : digit_run_value (spec_nextMemberId ids) = max_digit_run ids + 1).
  { unfold spec_nextMemberId. apply digit_run_of_identifier. lia. }
  split; [exact Hv|].
  intros Hin. apply digit_run_le_max in Hin. lia.
Qed.

Lemma nextMemberId_below_2_53 ids :
  max_digit_run ids < 2 ^ 53 ->
  nextMemberId (map VStr ids) = Some (spec_nextMemberId ids).
Proof.
  intros H. pose proof (max_digit_run_nonneg ids) as H0.
  unfold nextMemberId, spec_nextMemberId.
  rewrite scan_members_exact by lia.
  rewrite Z.max_r by lia. cbn [Num.succ].
  rewrite round53_exact by lia.
  rewrite toString_exact by lia. reflexivity.
Qed.

(** X13. Feeding the allocator its own result counts on: when the result
    for [ids] is [id] and the maximum stays below 2^53, the result for
    [id :: ids] is ["M"] followed by the maximum of [ids] plus two, padded
    to three digits. *)
Theorem nextMemberId_counts_on (ids : list string) (id : string) :
  max_digit_run ids + 1 < 2 ^ 53 ->
  nextMemberId (map VStr ids) = Some id ->
  nextMemberId (map VStr (id :: ids))
  = Some ("M" ++ padStart (Num.decimal (max_digit_run ids + 2)) 3 "0")%string.
Proof.
  intros H Hid. pose proof (max_digit_run_nonneg ids) as H0.
  rewrite nextMemberId_below_2_53 in Hid by lia. injection Hid as <-.
  assert (Hv : digit_run_value (spec_nextMemberId ids) = max_digit_run ids + 1).
  { unfold spec_nextMemberId. apply digit_run_of_identifier. lia. }
  assert (Hmax : max_digit_run (spec_nextMemberId ids :: ids)
                 = max_digit_run ids + 1).
  { rewrite max_digit_run_cons, Hv. lia. }
  rewrite nextMemberId_below_2_53 by lia.
  unfold spec_nextMemberId at 1. rewrite Hmax.
  replace (max_digit_run ids + 1 + 1) with (max_digit_run ids + 2) by lia.
  reflexivity.
Qed.

(** ** The scan does not depend on the order of the rows *)
Lemma scan_member_keeps m v :
  scan_member m v
  = if is_string v then Some (keep_larger m (parsed_run v)) else None.
Proof.
  destruct v; try reflexivity. cbn. unfold keep_larger.
  destruct (match_digits s); [|reflexivity].
  destruct (_ && _); reflexivity.
Qed.

Lemma keep_larger_swap m a b :
  keep_larger (keep_larger m a) b = keep_larger (keep_larger m b) a.
Proof.
  unfold keep_larger.
  destruct m as [|x|], a as [|y|], b as [|z|]; cbn; try reflexivity;
    repeat match goal with
           | |- context [?u <? ?v] => destruct (Z.ltb_spec u v); cbn
           end;
    try reflexivity; f_equal; lia.
Qed.

Lemma scan_members_permutation ids ids' :
  Permutation ids ids' ->
  forall m, scan_members m ids = scan_members m ids'.
Proof.
  induction 1 as [|x l l' _ IH|x y l|l l' l'' _ IH1 _ IH2]; intros m.
  - reflexivity.
  - cbn. destruct (scan_member m x); auto.
  - cbn [scan_members].
    rewrite (scan_member_keeps m y), (scan_member_keeps m x).
    destruct (is_string x) eqn:Ex, (is_string y) eqn:Ey;
      cbn [scan_members]; rewrite ?scan_member_keeps, ?Ex, ?Ey;
      try reflexivity.
    rewrite keep_larger_swap. reflexivity.
  - rewrite IH1. apply IH2.
Qed.

Lemma nextMemberId_ignores_order_aux (ids ids' : list value) :
  Permutation ids ids' -> nextMemberId ids = nextMemberId ids'.
Proof.
  intros H. unfold nextMemberId.
  rewrite (scan_members_permutation H). reflexivity.
Qed.

(** X14. The ORDER BY of the query that feeds the allocator (line 413)
    has no effect on the identifier: rows in any order, any permutation of
    the table, give the same result, also when it is a failure and also
    beyond 2^53. *)
Theorem nextMemberId_ignores_order (rows : list MemberRow)
  (order : list MemberRow -> list MemberRow) :
  Permutation (order rows) rows ->
  nextMemberId (map m_member_id (order rows))
  = nextMemberId (map m_member_id rows).
Proof.
  intros H. apply nextMemberId_ignores_order_aux.
  apply Permutation_map. exact H.
Qed.

(** ** The product handlers *)
Lemma lookup_set_column name v cols :
  lookup name (Catalog.set_column name v cols) = v.
Proof.
  induction cols as [|[k x] r IH]; cbn.
  - rewrite String.eqb_refl. reflexivity.
  - destruct (String.eqb k name) eqn:E; cbn; rewrite E; auto.
Qed.

Lemma lookup_set_other name other v cols :
  String.eqb name other = false ->
  lookup other (Catalog.set_column name v cols) = lookup other cols.
Proof.
  intros Hne. induction cols as [|[k x] r IH]; cbn.
  - rewrite Hne. reflexivity.
  - destruct (String.eqb k name) eqn:E; cbn.
    + apply String.eqb_eq in E. subst k. rewrite Hne. reflexivity.
    + destruct (String.eqb k other); auto.
Qed.

Section Products.
Variable col_eq : column -> value -> value -> bool.
Variable key_eq : Catalog.key -> value -> value -> bool.
Variable fails : nat -> bool.

Ltac run_createProduct Hf :=
  unfold Catalog.createProduct, Catalog.select_by_sku, Catalog.insert_item,
    Catalog.select_item, Catalog.bind, Catalog.try_catch, Catalog.call,
    Catalog.prop, Catalog.ret, Catalog.opened;
  rewrite !get_prop_field, Hf; cbn.

(** X15. POST /api/inventory validates before it queries: a body that
    lacks a required field (line 161) or carries a non-number in [stock],
    [price] or [reorderPoint] (line 166) is answered 400, and the pool is
    never asked for anything: the session is exactly as it was opened, no
    call made. *)
Theorem createProduct_invalid_makes_no_call (b : value) (d : DB) (n : Z) :
  has_fields b = true ->
  Catalog.product_fields_missing b = true
  \/ Catalog.product_types_invalid b = true ->
  exists error,
    Catalog.createProduct col_eq key_eq fails b (Catalog.opened d n)
    = (Ret (Catalog.Failure 400 error), Catalog.opened d n).
Proof.
  intros Hf Hbad.
  unfold Catalog.product_fields_missing, Catalog.product_types_invalid in *.
  run_createProduct Hf.
  destruct (negb (truthy (field b "name")) || _ || _ || _ || _ || _);
    [eexists; reflexivity|].
  destruct Hbad as [Hbad|Hbad]; [discriminate Hbad|].
  rewrite Hbad. eexists. reflexivity.
Qed.

(** X16. POST /api/inventory cannot create a product whose reorder point
    is 0: the test [!reorderPoint] of line 161 takes the number 0 for a
    missing field, whatever the other fields are, and the answer is 400
    "Missing required fields" with no call made.  ([stock] and [price]
    are compared with [undefined] and may be 0.) *)
Theorem createProduct_rejects_zero_reorder_point (b : value) (d : DB) (n : Z)
  (q : Q) :
  has_fields b = true ->
  field b "reorderPoint" = VNum q -> Qeq_bool q 0 = true ->
  Catalog.createProduct col_eq key_eq fails b (Catalog.opened d n)
  = (Ret (Catalog.Failure 400 "Missing required fields"),
     Catalog.opened d n).
Proof.
  intros Hf Hr Hq. run_createProduct Hf. rewrite Hr. cbn. rewrite Hq.
  cbn. rewrite !orb_true_r. reflexivity.
Qed.

(** X17. POST /api/inventory with a valid body whose [sku] some stored
    product already has answers 400 "SKU already exists" after its one
    query: nothing is stored and no identifier is used up. *)
Theorem createProduct_refuses_known_sku (b : value) (d : DB) (n : Z)
  (row : InventoryRow) (rest : list InventoryRow) :
  has_fields b = true ->
  Catalog.product_fields_missing b = false ->
  Catalog.product_types_invalid b = false ->
  Catalog.items_with_sku key_eq (field b "sku") d = row :: rest ->
  fails 0%nat = false ->
  let (r, s) :=
    Catalog.createProduct col_eq key_eq fails b (Catalog.opened d n) in
  r = Ret (Catalog.Failure 400 "SKU already exists") /\
  Catalog.stored s = d /\ Catalog.made s = 1%nat /\
  Catalog.next_item_id s = n.
Proof.
  intros Hf Hm Ht Hsku F0.
  assert (Hb : bound (field b "sku") = field b "sku").
  { destruct (field b "sku") eqn:E; try reflexivity.
    unfold Catalog.product_fields_missing in Hm. rewrite E in Hm.
    cbn in Hm. rewrite orb_true_r in Hm. discriminate Hm. }
  unfold Catalog.product_fields_missing, Catalog.product_types_invalid in *.
  run_createProduct Hf. rewrite Hm, Ht. cbn. rewrite F0. cbn.
  unfold Catalog.current. cbn. rewrite Hb, Hsku. cbn. repeat split.
Qed.

(** X18. POST /api/inventory with a valid body and a new [sku], when its
    three queries succeed, appends exactly one product row, with the next
    identifier and the body's fields ([brand] defaulting to the empty
    string), whose stock is the [stock] of the body; the answer is 201,
    and it carries that row when the engine finds the new identifier and
    no older row under it. *)
Theorem createProduct_inserts (b : value) (d : DB) (n : Z) :
  has_fields b = true ->
  Catalog.product_fields_missing b = false ->
  Catalog.product_types_invalid b = false ->
  Catalog.items_with_sku key_eq (field b "sku") d = [] ->
  fails 0%nat = false -> fails 1%nat = false -> fails 2%nat = false ->
  let (r, s) :=
    Catalog.createProduct col_eq key_eq fails b (Catalog.opened d n) in
  Catalog.stored s = Catalog.add_item (Catalog.product_row n b) d /\
  inv_stock (Catalog.product_row n b) = field b "stock" /\
  (exists row, r = Ret (Catalog.Item 201 row)) /\
  (col_eq inventory_id (vint n) (vint n) = true ->
   Catalog.items_with_id col_eq (vint n) d = [] ->
   r = Ret (Catalog.Item 201 (Some (Catalog.product_row n b)))).
Proof.
  intros Hf Hm Ht Hsku F0 F1 F2.
  assert (Hb : bound (field b "sku") = field b "sku").
  { destruct (field b "sku") eqn:E; try reflexivity.
    unfold Catalog.product_fields_missing in Hm. rewrite E in Hm.
    cbn in Hm. rewrite orb_true_r in Hm. discriminate Hm. }
  assert (Hs : bound (field b "stock") = field b "stock").
  { unfold Catalog.product_types_invalid in Ht.
    destruct (field b "stock"); try reflexivity. discriminate Ht. }
  unfold Catalog.product_fields_missing, Catalog.product_types_invalid in *.
  run_createProduct Hf. rewrite Hm, Ht. cbn. rewrite F0. cbn.
  unfold Catalog.current. cbn. rewrite Hb, Hsku. cbn.
  rewrite F1. cbn. rewrite F2. cbn.
  split; [reflexivity|]. split; [exact Hs|]. split; [eexists; reflexivity|].
  intros Hrefl Hnone. unfold Catalog.items_with_id in *. cbn.
  rewrite filter_app, Hnone. cbn. rewrite Hrefl. reflexivity.
Qed.

(** X19. POST /api/inventory runs outside a transaction.  When the query
    that reads the new product back (line 181) fails, the answer is 500
    "Failed to create product", yet the product row is stored. *)
Theorem createProduct_500_keeps_product (b : value) (d : DB) (n : Z) :
  has_fields b = true ->
  Catalog.product_fields_missing b = false ->
  Catalog.product_types_invalid b = false ->
  Catalog.items_with_sku key_eq (field b "sku") d = [] ->
  fails 0%nat = false -> fails 1%nat = false -> fails 2%nat = true ->
  let (r, s) :=
    Catalog.createProduct col_eq key_eq fails b (Catalog.opened d n) in
  r = Ret (Catalog.Failure 500 "Failed to create product") /\
  Catalog.stored s = Catalog.add_item (Catalog.product_row n b) d.
Proof.
  intros Hf Hm Ht Hsku F0 F1 F2.
  assert (Hb : bound (field b "sku") = field b "sku").
  { destruct (field b "sku") eqn:E; try reflexivity.
    unfold Catalog.product_fields_missing in Hm. rewrite E in Hm.
    cbn in Hm. rewrite orb_true_r in Hm. discriminate Hm. }
  unfold Catalog.product_fields_missing, Catalog.product_types_invalid in *.
  run_createProduct Hf. rewrite Hm, Ht. cbn. rewrite F0. cbn.
  unfold Catalog.current. cbn. rewrite Hb, Hsku. cbn.
  rewrite F1. cbn. rewrite F2. cbn. split; reflexivity.
Qed.

End Products.

Lemma map_unmatched {A} (p : A -> bool) (f : A -> A) (l : list A) :
  filter p l = [] -> map (fun x => if p x then f x else x) l = l.
Proof.
  induction l as [|x r IH]; [reflexivity|]. cbn.
  destruct (p x); [discriminate|]. intros H. rewrite IH; auto.
Qed.

Section Removal.
Variable col_eq : column -> value -> value -> bool.
Variable key_eq : Catalog.key -> value -> value -> bool.
Variable fails : nat -> bool.

Ltac run_deleteProduct :=
  unfold Catalog.deleteProduct, Catalog.getConnection,
    Catalog.beginTransaction, Catalog.delete_history, Catalog.delete_item,
    Catalog.commit, Catalog.rollback, Catalog.bind, Catalog.finally,
    Catalog.try_catch, Catalog.call, Catalog.ret, Catalog.opened; cbn.

Ltac shown_ok :=
  repeat first [apply Forall_nil | apply Forall_cons];
  try (left; reflexivity); try (right; reflexivity).

Ltac fail_case :=
  split; [right; split; [discriminate|reflexivity]|shown_ok].

(** X20. DELETE /api/inventory/:id is all or nothing on every path:
    either it answers "Product deleted successfully", an item had the
    identifier, and the stored tables are those without the item and
    without its stock history; or it answers anything else (404, 500, a
    thrown error) and the stored tables are those before the request.
    Every state other connections could read in between is one of these
    two. *)
Theorem deleteProduct_all_or_nothing (id : string) (d : DB) (n : Z) :
  let (r, s) :=
    Catalog.deleteProduct col_eq key_eq fails id (Catalog.opened d n) in
  let gone := Catalog.product_deleted col_eq key_eq id d in
  ((r = Ret (Catalog.Message "Product deleted successfully") /\
    Catalog.stored s = gone /\
    Catalog.items_with_id col_eq (VStr id) d <> [])
   \/
   (r <> Ret (Catalog.Message "Product deleted successfully") /\
    Catalog.stored s = d)) /\
  Forall (fun x => x = d \/ x = gone) (Catalog.shown s).
Proof.
  run_deleteProduct.
  destruct (fails 0%nat); cbn; [fail_case|].
  destruct (fails 1%nat); cbn; [destruct (fails 2%nat); cbn; fail_case|].
  destruct (fails 2%nat); cbn; [destruct (fails 3%nat); cbn; fail_case|].
  destruct (fails 3%nat); cbn; [destruct (fails 4%nat); cbn; fail_case|].
  unfold Catalog.current, Catalog.items_with_id. cbn.
  destruct (filter _ (inventory d)) as [|row rest] eqn:E; cbn.
  - destruct (fails 4%nat); cbn;
      [destruct (fails 5%nat); cbn; fail_case|fail_case].
  - destruct (fails 4%nat); cbn;
      [destruct (fails 5%nat); cbn; fail_case|].
    split; [left; repeat split; discriminate|shown_ok].
Qed.

(** X21. When no call fails and an item has the identifier, the delete
    answers "Product deleted successfully"; afterwards no inventory row
    has the identifier, the inventory is exactly the rows the identifier
    did not select, the stock history exactly the rows of other items, and
    sales, sale items, members and points history are untouched. *)
Theorem deleteProduct_removes_item_and_history (id : string) (d : DB) (n : Z) :
  (forall k, fails k = false) ->
  Catalog.items_with_id col_eq (VStr id) d <> [] ->
  let (r, s) :=
    Catalog.deleteProduct col_eq key_eq fails id (Catalog.opened d n) in
  let x := Catalog.stored s in
  r = Ret (Catalog.Message "Product deleted successfully") /\
  Catalog.items_with_id col_eq (VStr id) x = [] /\
  (forall row, In row (inventory x) <->
               In row (inventory d) /\
               col_eq inventory_id (inv_id row) (VStr id) = false) /\
  (forall h, In h (stock_history x) <->
             In h (stock_history d) /\
             key_eq Catalog.history_inventory_id (sh_inventory_id h)
                    (VStr id) = false) /\
  sales x = sales d /\ sales_items x = sales_items d /\
  members x = members d /\
  member_points_history x = member_points_history d.
Proof.
  intros Hok Hex. run_deleteProduct. rewrite !Hok. cbn.
  unfold Catalog.current, Catalog.items_with_id in *. cbn.
  destruct (filter _ (inventory d)) as [|row rest] eqn:E;
    [contradiction|]. cbn. rewrite !Hok. cbn.
  split; [reflexivity|]. split; [|split; [|split]].
  - induction (inventory d) as [|y l IH'] in |- *; [reflexivity|].
    cbn. destruct (col_eq inventory_id (inv_id y) (VStr id)) eqn:Ey; cbn.
    + apply IH'.
    + rewrite Ey. apply IH'.
  - intros r0. rewrite filter_In, negb_true_iff. reflexivity.
  - intros h. rewrite filter_In, negb_true_iff. reflexivity.
  - repeat split.
Qed.

(** X22. A delete for an identifier no item has answers 404 "Product not
    found" and rolls back: the stock-history rows it had already deleted
    inside the transaction, for an identifier without item, are kept; the
    transaction is closed and the connection released. *)
Theorem deleteProduct_unknown_keeps_history (id : string) (d : DB) (n : Z) :
  Catalog.items_with_id col_eq (VStr id) d = [] ->
  fails 0%nat = false -> fails 1%nat = false -> fails 2%nat = false ->
  fails 3%nat = false -> fails 4%nat = false ->
  let (r, s) :=
    Catalog.deleteProduct col_eq key_eq fails id (Catalog.opened d n) in
  r = Ret (Catalog.Failure 404 "Product not found") /\
  Catalog.stored s = d /\ Catalog.txn s = None /\
  Catalog.handed_back s = true.
Proof.
  intros Hnone F0 F1 F2 F3 F4. run_deleteProduct.
  rewrite F0. cbn. rewrite F1. cbn. rewrite F2. cbn. rewrite F3. cbn.
  unfold Catalog.current, Catalog.items_with_id in *. cbn.
  rewrite Hnone. cbn. rewrite F4. cbn. repeat split.
Qed.

(** X23. POST /api/inventory/:id/image with a file answers "Image
    uploaded successfully" whenever its query succeeds, also when no item
    has the identifier, in which case nothing changed.  Afterwards every
    item the identifier selects holds the file's bytes and MIME type; the
    identifiers and stocks of the inventory and the stock history are as
    before. *)
Theorem uploadImage_stores_image (id : string) (buffer mimetype : value)
  (d : DB) (n : Z) :
  fails 0%nat = false ->
  let (r, s) :=
    Catalog.uploadImage col_eq fails id (Some (buffer, mimetype))
      (Catalog.opened d n) in
  let x := Catalog.stored s in
  r = Ret (Catalog.Message "Image uploaded successfully") /\
  (Catalog.items_with_id col_eq (VStr id) d = [] -> x = d) /\
  (forall row, In row (Catalog.items_with_id col_eq (VStr id) x) ->
               lookup "image_data" (inv_columns row) = bound buffer /\
               lookup "image_type" (inv_columns row) = bound mimetype) /\
  map inv_id (inventory x) = map inv_id (inventory d) /\
  map inv_stock (inventory x) = map inv_stock (inventory d) /\
  stock_history x = stock_history d.
Proof.
  intros F0.
  unfold Catalog.uploadImage, Catalog.update_image, Catalog.bind,
    Catalog.try_catch, Catalog.call, Catalog.ret, Catalog.opened. cbn.
  rewrite F0. cbn. split; [reflexivity|]. split; [|split; [|split; [|split]]].
  - unfold Catalog.items_with_id. intros Hnone.
    destruct d as [inv sh sa si ph ms ts]. unfold Catalog.set_image.
    cbn in *. f_equal. apply map_unmatched. exact Hnone.
  - unfold Catalog.items_with_id. cbn. intros row Hin.
    apply filter_In in Hin. destruct Hin as [Hin Hm].
    apply in_map_iff in Hin. destruct Hin as (y & Hy & _).
    destruct (col_eq inventory_id (inv_id y) (VStr id)) eqn:Ey; subst row.
    + cbn. split.
      * rewrite lookup_set_other by reflexivity. apply lookup_set_column.
      * apply lookup_set_column.
    + congruence.
  - rewrite map_map. apply map_ext. intros y.
    destruct (col_eq inventory_id (inv_id y) (VStr id)); reflexivity.
  - rewrite map_map. apply map_ext. intros y.
    destruct (col_eq inventory_id (inv_id y) (VStr id)); reflexivity.
  - reflexivity.
Qed.

End Removal.

(** ** The member handlers *)
Lemma filter_all_false {A} (p : A -> bool) l :
  (forall x, In x l -> p x = false) -> filter p l = [].
Proof.
  induction l as [|x r IH]; [reflexivity|]. cbn. intros H.
  rewrite (H x) by auto. apply IH. auto.
Qed.

Lemma flat_map_nothing {A B} (f : A -> list B) l :
  (forall x, In x l -> f x = []) -> flat_map f l = [].
Proof.
  induction l as [|x r IH]; [reflexivity|]. cbn. intros H.
  rewrite (H x) by auto. apply IH. auto.
Qed.

Section Members.
Variable col_eq : column -> value -> value -> bool.
Variable order_by_member_id : list MemberRow -> list MemberRow.
Variable fails : nat -> bool.

Ltac run_updateMember Hf :=
  unfold Catalog.updateMember, Catalog.update_member,
    Catalog.select_member_left, Catalog.bind, Catalog.try_catch,
    Catalog.call, Catalog.prop, Catalog.ret, Catalog.throw, Catalog.opened;
  rewrite !get_prop_field, Hf; cbn.

(** X24. PUT /api/members/:id with an empty or absent [name], [email],
    [phone] or [tier] answers 500 "Failed to update member", not 400: the
    handler throws its validation error into its own [catch].  No query
    is sent and nothing changes. *)
Theorem updateMember_missing_field_is_500 (id : string) (b : value) (d : DB)
  (n : Z) :
  has_fields b = true ->
  member_fields_missing b = true ->
  Catalog.updateMember col_eq fails id b (Catalog.opened d n)
  = (Ret (Catalog.Failure 500 "Failed to update member"),
     Catalog.opened d n).
Proof.
  intros Hf Hm. unfold member_fields_missing in Hm.
  run_updateMember Hf. rewrite Hm. reflexivity.
Qed.

Lemma members_after_contact name email phone tier id d :
  Catalog.members_with_id col_eq id
    (Catalog.set_contact (col_eq members_member_id) name email phone tier
       id d)
  = map (fun m => mkMember (m_member_id m) name email phone tier
                    (m_points m) (m_join_date m) (m_total_spent m))
        (Catalog.members_with_id col_eq id d).
Proof.
  unfold Catalog.members_with_id. cbn.
  induction (members d) as [|x r IH]; [reflexivity|].
  cbn. destruct (col_eq members_member_id (m_member_id x) id) eqn:E; cbn.
  - rewrite E. cbn. rewrite IH. reflexivity.
  - rewrite E. exact IH.
Qed.

(** X25. PUT /api/members/:id with all four fields, when its two queries
    succeed, changes no identifier, balance, join date or total spent,
    writes no points history, and leaves every member the identifier does
    not select as it was.  For an unknown identifier nothing changes and
    the answer is 404; otherwise the answer is the first selected member
    with the four fields of the body. *)
Theorem updateMember_changes_contact_only (id : string) (b : value) (d : DB)
  (n : Z) :
  has_fields b = true ->
  member_fields_missing b = false ->
  fails 0%nat = false -> fails 1%nat = false ->
  let (r, s) := Catalog.updateMember col_eq fails id b (Catalog.opened d n) in
  let x := Catalog.stored s in
  map m_member_id (members x) = map m_member_id (members d) /\
  map m_points (members x) = map m_points (members d) /\
  map m_join_date (members x) = map m_join_date (members d) /\
  map m_total_spent (members x) = map m_total_spent (members d) /\
  member_points_history x = member_points_history d /\
  (forall m, In m (members d) ->
             col_eq members_member_id (m_member_id m) (VStr id) = false ->
             In m (members x)) /\
  match Catalog.members_with_id col_eq (VStr id) d with
  | [] => r = Ret (Catalog.Failure 404 "Member not found") /\ x = d
  | m :: _ =>
      exists multiplier,
        r = Ret (Catalog.Member
                   (Some (mkMember (m_member_id m) (field b "name")
                            (field b "email") (field b "phone")
                            (field b "tier") (m_points m) (m_join_date m)
                            (m_total_spent m), multiplier)))
  end.
Proof.
  intros Hf Hq F0 F1. unfold member_fields_missing in Hq.
  pose proof Hq as Hq'.
  apply orb_false_elim in Hq. destruct Hq as [Hq Ht].
  apply orb_false_elim in Hq. destruct Hq as [Hq Hp].
  apply orb_false_elim in Hq. destruct Hq as [Hn He].
  apply negb_false_iff in Hn, He, Hp, Ht.
  pose proof (members_after_contact (field b "name") (field b "email")
                (field b "phone") (field b "tier") (VStr id) d) as Hafter.
  run_updateMember Hf. rewrite Hq'. cbn. rewrite F0. cbn. rewrite F1. cbn.
  rewrite !truthy_bound by assumption.
  unfold Catalog.current. cbn [Catalog.txn Catalog.stored].
  unfold Catalog.members_with_id at 1, Catalog.set_contact in Hafter.
  cbn [members] in Hafter. rewrite Hafter.
  assert (Hkeep :
    forall g : MemberRow -> value,
      (forall m, g (mkMember (m_member_id m) (field b "name")
                      (field b "email") (field b "phone") (field b "tier")
                      (m_points m) (m_join_date m) (m_total_spent m)) = g m) ->
      map g (members (Catalog.set_contact (col_eq members_member_id)
                        (field b "name") (field b "email") (field b "phone")
                        (field b "tier") (VStr id) d))
      = map g (members d)).
  { intros g Hg. cbn. rewrite map_map. apply map_ext. intros m.
    destruct (col_eq members_member_id (m_member_id m) (VStr id)); auto. }
  assert (Hothers :
    forall m, In m (members d) ->
      col_eq members_member_id (m_member_id m) (VStr id) = false ->
      In m (members (Catalog.set_contact (col_eq members_member_id)
                       (field b "name") (field b "email") (field b "phone")
                       (field b "tier") (VStr id) d))).
  { intros m Hin Hno. cbn. apply in_map_iff. exists m. rewrite Hno. auto. }
  destruct (Catalog.members_with_id col_eq (VStr id) d) as [|m rest] eqn:E.
  - cbn [map flat_map Catalog.show Catalog.tick Catalog.stored].
    repeat split; try (apply Hkeep; reflexivity); try exact Hothers.
    destruct d as [inv sh sa si ph ms ts]. unfold Catalog.set_contact.
    cbn in *. f_equal. apply map_unmatched. exact E.
  - cbn [map flat_map].
    destruct (left_join_tier_first col_eq (membership_tiers d)
                (mkMember (m_member_id m) (field b "name")
                   (field b "email") (field b "phone") (field b "tier")
                   (m_points m) (m_join_date m) (m_total_spent m)))
      as (mult & more & Ej).
    rewrite Ej. cbn [app Catalog.show Catalog.tick Catalog.stored].
    repeat split; try (apply Hkeep; reflexivity); try exact Hothers.
    exists mult. reflexivity.
Qed.

(** X26. GET /api/members/:id joins the tiers with an inner JOIN, the list
    of GET /api/members with a LEFT JOIN.  So a member whose [tier] names
    no row of [membership_tiers] is answered 404 "Member not found" by the
    first, while the second lists the member, with a NULL multiplier. *)
Theorem getMember_needs_tier_row (id : string) (d : DB) (n : Z)
  (m : MemberRow) :
  fails 0%nat = false ->
  In m (Catalog.members_with_id col_eq (VStr id) d) ->
  In m (order_by_member_id (members d)) ->
  (forall m' t, In m' (Catalog.members_with_id col_eq (VStr id) d) ->
                In t (membership_tiers d) ->
                col_eq tiers_tier_name (t_tier_name t) (m_tier m') = false) ->
  fst (Catalog.getMember col_eq fails id (Catalog.opened d n))
  = Ret (Catalog.Failure 404 "Member not found") /\
  exists rows,
    fst (Catalog.getMembers col_eq order_by_member_id fails
           (Catalog.opened d n)) = Ret (Catalog.Members rows) /\
    In (m, VNull) rows.
Proof.
  intros F0 Hm Hord Hno.
  assert (Hjoin : forall m', In m' (Catalog.members_with_id col_eq (VStr id) d)
            -> filter (fun t => col_eq tiers_tier_name (t_tier_name t)
                                       (m_tier m')) (membership_tiers d) = []).
  { intros m' Hin. apply filter_all_false. intros t Ht. apply Hno; auto. }
  split.
  - unfold Catalog.getMember, Catalog.select_member_joined, Catalog.bind,
      Catalog.try_catch, Catalog.call, Catalog.ret, Catalog.opened. cbn.
    rewrite F0. cbn. unfold Catalog.current. cbn.
    rewrite flat_map_nothing; [reflexivity|].
    intros m' Hin. unfold Catalog.join_tier. rewrite (Hjoin m' Hin).
    reflexivity.
  - unfold Catalog.getMembers, Catalog.select_members, Catalog.bind,
      Catalog.try_catch, Catalog.call, Catalog.ret, Catalog.opened. cbn.
    rewrite F0. cbn. unfold Catalog.current. cbn.
    eexists. split; [reflexivity|].
    apply in_flat_map. exists m. split; [exact Hord|].
    unfold left_join_tier. rewrite (Hjoin m Hm). left. reflexivity.
Qed.

End Members.

(** ** Two registrations in a row *)
Lemma max_digit_run_app ids id :
  max_digit_run (ids ++ [id]) = Z.max (max_digit_run ids) (digit_run_value id).
Proof.
  unfold max_digit_run. induction ids as [|x r IH]; cbn in *; lia.
Qed.

Section Registrations.
Variable col_eq : column -> value -> value -> bool.
Variable order_by_member_id : list MemberRow -> list MemberRow.
Variable curdate : value.
Variable fails : nat -> bool.

Lemma createMember_stores b d n id :
  has_fields b = true ->
  member_fields_missing b = false ->
  nextMemberId (map m_member_id (order_by_member_id (members d))) = Some id ->
  (forall k, fails k = false) ->
  committed (snd (createMember col_eq order_by_member_id curdate fails b
                    (fresh d n)))
  = add_member (new_member curdate id b) d.
Proof.
  intros Hf Hq Hid Hok. unfold member_fields_missing in Hq.
  pose proof Hq as Hq'.
  apply orb_false_elim in Hq. destruct Hq as [Hq Ht].
  apply orb_false_elim in Hq. destruct Hq as [Hq Hp].
  apply orb_false_elim in Hq. destruct Hq as [Hn He].
  apply negb_false_iff in Hn, He, Hp, Ht.
  unfold createMember, getConnection, select_member_ids, insert_member,
    select_member_with_tier, bind, finally, try_catch, call, prop, lift,
    fresh.
  rewrite !get_prop_field, Hf. cbn.
  repeat (progress (rewrite ?Hok, ?Hq', ?Hid; cbn)).
  rewrite !truthy_bound by assumption. reflexivity.
Qed.

(** X27. Two registrations in a row, with no failing call and all stored
    digit runs below 2^53 - 1, append two member rows, in order, under two
    different identifiers, neither of which was in use, whatever the two
    bodies are and however the engine orders equal or unusual
    identifiers. *)
Theorem successive_registrations_differ (b1 b2 : value) (d : DB) (n n' : Z)
  (ids : list string) :
  (forall l, Permutation (order_by_member_id l) l) ->
  map m_member_id (members d) = map VStr ids ->
  max_digit_run ids + 1 < 2 ^ 53 ->
  has_fields b1 = true -> member_fields_missing b1 = false ->
  has_fields b2 = true -> member_fields_missing b2 = false ->
  (forall k, fails k = false) ->
  let register b x k :=
    committed (snd (createMember col_eq order_by_member_id curdate fails b
                      (fresh x k))) in
  exists id1 id2,
    members (register b2 (register b1 d n) n')
    = members d ++ [new_member curdate id1 b1; new_member curdate id2 b2] /\
    id1 <> id2 /\ ~ In id1 ids /\ ~ In id2 ids.
Proof.
  intros Hperm Hids Hmax Hf1 Hq1 Hf2 Hq2 Hok. cbv beta zeta.
  pose proof (max_digit_run_nonneg ids) as H0.
  set (id1 := spec_nextMemberId ids).
  set (id2 := spec_nextMemberId (ids ++ [id1])).
  assert (Hv1 : digit_run_value id1 = max_digit_run ids + 1).
  { unfold id1, spec_nextMemberId. apply digit_run_of_identifier. lia. }
  assert (Hm2 : max_digit_run (ids ++ [id1]) = max_digit_run ids + 1).
  { rewrite max_digit_run_app, Hv1. lia. }
  assert (Hv2 : digit_run_value id2 = max_digit_run ids + 2).
  { unfold id2, spec_nextMemberId. rewrite Hm2.
    rewrite digit_run_of_identifier by lia. lia. }
  assert (E1 : nextMemberId (map m_member_id
                               (order_by_member_id (members d))) = Some id1).
  { rewrite (nextMemberId_ignores_order_aux
               (Permutation_map m_member_id (Hperm (members d)))).
    rewrite Hids. apply nextMemberId_below_2_53. lia. }
  rewrite (createMember_stores b1 d n Hf1 Hq1 E1 Hok).
  assert (E2 : nextMemberId
                 (map m_member_id
                    (order_by_member_id
                       (members (add_member (new_member curdate id1 b1) d))))
               = Some id2).
  { rewrite (nextMemberId_ignores_order_aux
               (Permutation_map m_member_id
                  (Hperm (members (add_member (new_member curdate id1 b1)
                                     d))))).
    cbn [add_member members]. rewrite map_app, Hids. cbn [map new_member
      m_member_id].
    change (map VStr ids ++ [VStr id1]) with
      (map VStr ids ++ map VStr [id1]).
    rewrite <- map_app. apply nextMemberId_below_2_53. lia. }
  rewrite (createMember_stores b2 _ n' Hf2 Hq2 E2 Hok).
  exists id1, id2. cbn [add_member members]. rewrite <- app_assoc.
  split; [reflexivity|]. split; [|split].
  - intros E. rewrite E in Hv1. lia.
  - intros Hin. apply digit_run_le_max in Hin. lia.
  - intros Hin. apply digit_run_le_max in Hin. lia.
Qed.

End Registrations.

(** ** A product created, looked up and deleted *)
Section ProductLife.
Variable col_eq : column -> value -> value -> bool.
Variable key_eq : Catalog.key -> value -> value -> bool.
Variable fails : nat -> bool.

Lemma createProduct_stores b d n :
  has_fields b = true ->
  Catalog.product_fields_missing b = false ->
  Catalog.product_types_invalid b = false ->
  Catalog.items_with_sku key_eq (field b "sku") d = [] ->
  fails 0%nat = false -> fails 1%nat = false -> fails 2%nat = false ->
  Catalog.stored (snd (Catalog.createProduct col_eq key_eq fails b
                         (Catalog.opened d n)))
  = Catalog.add_item (Catalog.product_row n b) d.
Proof.
  intros Hf Hm Ht Hsku F0 F1 F2.
  assert (Hb : bound (field b "sku") = field b "sku").
  { destruct (field b "sku") eqn:E; try reflexivity.
    unfold Catalog.product_fields_missing in Hm. rewrite E in Hm.
    cbn in Hm. rewrite orb_true_r in Hm. discriminate Hm. }
  unfold Catalog.product_fields_missing, Catalog.product_types_invalid in *.
  unfold Catalog.createProduct, Catalog.select_by_sku, Catalog.insert_item,
    Catalog.select_item, Catalog.bind, Catalog.try_catch, Catalog.call,
    Catalog.prop, Catalog.ret, Catalog.opened.
  rewrite !get_prop_field, Hf. cbn. rewrite Hm, Ht. cbn. rewrite F0. cbn.
  unfold Catalog.current. cbn. rewrite Hb, Hsku. cbn.
  rewrite F1. cbn. rewrite F2. reflexivity.
Qed.

Lemma getItem_answer id d n :
  fails 0%nat = false ->
  fst (Catalog.getItem col_eq fails id (Catalog.opened d n))
  = match Catalog.items_with_id col_eq (VStr id) d with
    | [] => Ret (Catalog.Failure 404 "Item not found")
    | row :: _ => Ret (Catalog.Item 200 (Some row))
    end.
Proof.
  intros F0.
  unfold Catalog.getItem, Catalog.select_item, Catalog.bind,
    Catalog.try_catch, Catalog.call, Catalog.ret, Catalog.opened. cbn.
  rewrite F0. cbn. unfold Catalog.current. cbn.
  destruct (Catalog.items_with_id col_eq (VStr id) d); reflexivity.
Qed.

(** X28. A product that POST /api/inventory created is found by
    GET /api/inventory/:id under its new identifier: when the engine
    equates the URL segment with the identifier and no older row answers
    to it, the answer is 200 with the row created from the body. *)
Theorem created_product_is_found (b : value) (d : DB) (n n' : Z)
  (id : string) :
  has_fields b = true ->
  Catalog.product_fields_missing b = false ->
  Catalog.product_types_invalid b = false ->
  Catalog.items_with_sku key_eq (field b "sku") d = [] ->
  fails 0%nat = false -> fails 1%nat = false -> fails 2%nat = false ->
  col_eq inventory_id (vint n) (VStr id) = true ->
  Catalog.items_with_id col_eq (VStr id) d = [] ->
  let after :=
    Catalog.stored (snd (Catalog.createProduct col_eq key_eq fails b
                           (Catalog.opened d n))) in
  fst (Catalog.getItem col_eq fails id (Catalog.opened after n'))
  = Ret (Catalog.Item 200 (Some (Catalog.product_row n b))).
Proof.
  intros Hf Hm Ht Hsku F0 F1 F2 Hid Hnone. cbv zeta.
  rewrite createProduct_stores by assumption.
  rewrite getItem_answer by assumption.
  unfold Catalog.items_with_id in *. cbn.
  rewrite filter_app, Hnone. cbn. rewrite Hid. reflexivity.
Qed.

Lemma deleted_has_no_item id d :
  Catalog.items_with_id col_eq (VStr id)
    (Catalog.product_deleted col_eq key_eq id d) = [].
Proof.
  unfold Catalog.items_with_id, Catalog.product_deleted. cbn.
  induction (inventory d) as [|y l IH]; [reflexivity|].
  cbn. destruct (col_eq inventory_id (inv_id y) (VStr id)) eqn:Ey; cbn.
  - exact IH.
  - rewrite Ey. exact IH.
Qed.

Lemma deleteProduct_stores id d n :
  (forall k, fails k = false) ->
  Catalog.items_with_id col_eq (VStr id) d <> [] ->
  Catalog.stored (snd (Catalog.deleteProduct col_eq key_eq fails id
                         (Catalog.opened d n)))
  = Catalog.product_deleted col_eq key_eq id d.
Proof.
  intros Hok Hex.
  unfold Catalog.deleteProduct, Catalog.getConnection,
    Catalog.beginTransaction, Catalog.delete_history, Catalog.delete_item,
    Catalog.commit, Catalog.rollback, Catalog.bind, Catalog.finally,
    Catalog.try_catch, Catalog.call, Catalog.ret, Catalog.opened. cbn.
  rewrite !Hok. cbn.
  unfold Catalog.current, Catalog.items_with_id in *. cbn.
  destruct (filter _ (inventory d)) as [|row rest] eqn:E;
    [contradiction|]. cbn. rewrite !Hok. reflexivity.
Qed.

(** X29. After a delete that met no failure, GET /api/inventory/:id for
    the same identifier answers 404 "Item not found", however many rows
    had the identifier before. *)
Theorem deleted_product_is_not_found (id : string) (d : DB) (n n' : Z) :
  (forall k, fails k = false) ->
  Catalog.items_with_id col_eq (VStr id) d <> [] ->
  let after :=
    Catalog.stored (snd (Catalog.deleteProduct col_eq key_eq fails id
                           (Catalog.opened d n))) in
  fst (Catalog.getItem col_eq fails id (Catalog.opened after n'))
  = Ret (Catalog.Failure 404 "Item not found").
Proof.
  intros Hok Hex. cbv zeta.
  rewrite deleteProduct_stores by assumption.
  rewrite getItem_answer by apply Hok.
  rewrite deleted_has_no_item. reflexivity.
Qed.

End ProductLife.

(** ** Runs on the sample data *)
Lemma insert_member_sorted_permutation m l :
  Permutation (insert_member_sorted m l) (m :: l).
Proof.
  induction l as [|x r IH]; cbn; [apply Permutation_refl|].
  destruct (id_leb (m_member_id m) (m_member_id x)).
  - apply Permutation_refl.
  - eapply perm_trans; [apply perm_skip, IH|apply perm_swap].
Qed.

Lemma sort_by_member_id_permutation l : Permutation (sort_by_member_id l) l.
Proof.
  induction l as [|x r IH]; cbn; [apply perm_nil|].
  eapply perm_trans; [apply insert_member_sorted_permutation|].
  apply perm_skip, IH.
Qed.

Lemma commitSale_records_when_nothing_fails_witness :
  items_usable (field Sample.sale "items") = true /\
  let (r, c) :=
    commitSale sql_eq no_fault Sample.sale (fresh Sample.shop 10) in
  exists items,
    iterate (field Sample.sale "items") = Some items /\
    r = Ret (mkResponse 201 (BSale "Sale recorded successfully" (vint 10)
                               (VStr "T-1"))) /\
    committed c = sale_recorded sql_eq 10 Sample.sale items Sample.shop /\
    pending c = None.
Proof.
  split; [reflexivity|].
  exact (@commitSale_records_when_nothing_fails sql_eq no_fault Sample.sale
           Sample.shop 10 (fun _ => eq_refl) eq_refl).
Defined.

Lemma commitSale_fails_on_unusable_items_witness :
  let b := VObj [("transactionId", VStr "T-2"); ("items", VArr [VNull])] in
  let run := commitSale sql_eq no_fault b (fresh Sample.shop 10) in
  items_usable (field b "items") = false /\
  fst run = Ret (mkResponse 500 (BError "Failed to record sale")) /\
  committed (snd run) = Sample.shop /\
  pending (snd run) = None /\
  sale_inserted (snd run) = true /\
  next_sale_id (snd run) = 11.
Proof.
  cbv zeta. split; [reflexivity|].
  pose proof (@commitSale_fails_on_unusable_items sql_eq no_fault
                (VObj [("transactionId", VStr "T-2");
                       ("items", VArr [VNull])])
                Sample.shop 10 eq_refl eq_refl) as H.
  destruct (commitSale sql_eq no_fault
              (VObj [("transactionId", VStr "T-2"); ("items", VArr [VNull])])
              (fresh Sample.shop 10)) as [r c].
  destruct H as (Hc & Hr & Hans & Hid). cbn [fst snd].
  pose proof (Hans (fun _ => eq_refl)) as ->.
  destruct (Hid eq_refl eq_refl eq_refl) as [Hs Hn].
  destruct Hr as [[_ Hp]|[Hr _]]; [|discriminate Hr].
  repeat split; assumption.
Defined.

Lemma adjustStock_unknown_item_witness :
  matching_items sql_eq "9" Sample.shop = [] /\
  let (r, c) :=
    adjustStock sql_eq no_fault "9" (Sample.recount 8)
      (fresh Sample.shop 10) in
  committed c = Sample.shop /\ writes_issued c = [] /\
  (forall resp, r = Ret resp -> status resp = 404 \/ status resp = 500) /\
  (no_fault 0%nat = false -> no_fault 1%nat = false ->
   no_fault 2%nat = false -> no_fault 3%nat = false ->
   r = Ret (mkResponse 404 (BError "Item not found")) /\ pending c = None).
Proof.
  split; [reflexivity|].
  exact (@adjustStock_unknown_item sql_eq no_fault "9" (Sample.recount 8)
           Sample.shop 10 eq_refl eq_refl eq_refl).
Defined.

Lemma adjustStock_answers_updated_item_witness :
  matching_items sql_eq "1" Sample.shop = [Sample.pen] /\
  let (r, c) :=
    adjustStock sql_eq no_fault "1" (Sample.recount 8)
      (fresh Sample.shop 10) in
  r = Ret (mkResponse 200
             (BItem (Some (mkInventory (VStr "1") (vint 8)
                             [("name", VStr "Pen"); ("sku", VStr "P-1")]))))
  /\ committed c
     = stock_adjusted sql_eq "1" (Sample.recount 8) Sample.pen Sample.shop
  /\ pending c = None.
Proof.
  split; [reflexivity|].
  exact (@adjustStock_answers_updated_item sql_eq no_fault "1"
           (Sample.recount 8) Sample.shop 10 Sample.pen []
           (fun _ => eq_refl) eq_refl eq_refl eq_refl).
Defined.

Lemma adjustStock_500_after_commit_witness :
  let fails := Stockroom.fault_at 6 in
  fails 6%nat = true /\
  let (r, c) :=
    adjustStock sql_eq fails "1" (Sample.recount 8) (fresh Sample.shop 10) in
  committed c
  = stock_adjusted sql_eq "1" (Sample.recount 8) Sample.pen Sample.shop /\
  (r = Ret (mkResponse 500 (BError "Failed to update stock level"))
   \/ r = Throw StorageError) /\
  (fails 7%nat = false ->
   r = Ret (mkResponse 500 (BError "Failed to update stock level"))).
Proof.
  cbv zeta. split; [reflexivity|].
  exact (@adjustStock_500_after_commit sql_eq (Stockroom.fault_at 6) "1"
           (Sample.recount 8) Sample.shop 10 Sample.pen []
           eq_refl eq_refl eq_refl eq_refl eq_refl eq_refl eq_refl
           eq_refl eq_refl eq_refl).
Defined.

Lemma connection_is_released_witness :
  takes_connection (CommitSale Sample.sale) = true /\
  released (snd (Sample.run (CommitSale Sample.sale))) = true.
Proof.
  split; [reflexivity|].
  exact (@connection_is_released sql_eq sort_by_member_id Sample.today
           no_fault (CommitSale Sample.sale) Sample.shop 10 eq_refl).
Defined.

Lemma updatePoints_overwrites_balance_witness :
  let b := VObj [("points", vint 5)] in
  let c := snd (updatePoints sql_eq no_fault "M007" b
                  (fresh Sample.shop 10)) in
  has_fields b = true /\
  map m_member_id (members (committed c))
  = map m_member_id (members Sample.shop) /\
  member_points_history (committed c) = [] /\
  issued c = [UpdateMemberPoints (vint 5) (VStr "M007")].
Proof.
  cbv zeta. split; [reflexivity|].
  destruct (@updatePoints_overwrites_balance sql_eq no_fault "M007"
              (VObj [("points", vint 5)]) Sample.shop 10 eq_refl eq_refl)
    as (_ & _ & Hids & Hhist & _ & _ & Hsent).
  split; [exact Hids|]. split; [exact Hhist|exact Hsent].
Defined.

Lemma createMember_registers_witness :
  member_fields_missing Stockroom.dee = false /\
  nextMemberId (map m_member_id (sort_by_member_id (members Sample.shop)))
  = Some "M008"%string /\
  let (r, c) :=
    createMember sql_eq sort_by_member_id Sample.today no_fault
      Stockroom.dee (fresh Sample.shop 10) in
  committed c
  = add_member (new_member Sample.today "M008" Stockroom.dee) Sample.shop /\
  (exists row, r = Ret (mkResponse 201 (BMember row))) /\
  (sql_eq members_member_id (VStr "M008") (VStr "M008") = true ->
   forallb (fun m => negb (sql_eq members_member_id (m_member_id m)
                                  (VStr "M008"))) (members Sample.shop)
   = true ->
   exists multiplier,
     r = Ret (mkResponse 201
                (BMember (Some (new_member Sample.today "M008"
                                  Stockroom.dee, multiplier))))).
Proof.
  split; [reflexivity|]. split; [vm_compute; reflexivity|].
  refine (@createMember_registers sql_eq sort_by_member_id Sample.today
            no_fault Stockroom.dee Sample.shop 10 "M008" eq_refl eq_refl
            _ eq_refl eq_refl eq_refl eq_refl).
  vm_compute. reflexivity.
Defined.

Lemma createMember_500_keeps_member_witness :
  let fails := Stockroom.fault_at 3 in
  fails 3%nat = true /\
  let (r, c) :=
    createMember sql_eq sort_by_member_id Sample.today fails
      Stockroom.dee (fresh Sample.shop 10) in
  r = Ret (mkResponse 500 (BRegisterFailed StorageError)) /\
  committed c
  = add_member (new_member Sample.today "M008" Stockroom.dee) Sample.shop.
Proof.
  cbv zeta. split; [reflexivity|].
  refine (@createMember_500_keeps_member sql_eq sort_by_member_id
            Sample.today (Stockroom.fault_at 3) Stockroom.dee Sample.shop 10
            "M008" eq_refl eq_refl _ eq_refl eq_refl eq_refl eq_refl).
  vm_compute. reflexivity.
Defined.

Lemma createMember_needs_string_ids_witness :
  forallb is_string
    (map m_member_id (sort_by_member_id (members Stockroom.numbered)))
  = false /\
  let (r, c) :=
    createMember sql_eq sort_by_member_id Sample.today no_fault
      Stockroom.dee (fresh Stockroom.numbered 10) in
  r = Ret (mkResponse 500 (BRegisterFailed TypeError)) /\
  committed c = Stockroom.numbered /\ writes_issued c = [].
Proof.
  split; [reflexivity|].
  exact (@createMember_needs_string_ids sql_eq sort_by_member_id
           Sample.today no_fault Stockroom.dee Stockroom.numbered 10
           eq_refl eq_refl eq_refl eq_refl eq_refl).
Defined.

Lemma nextMemberId_is_new_witness :
  let ids := ["M007"; "M001"]%string in
  max_digit_run ids < 2 ^ 53 /\
  exists id,
    nextMemberId (map VStr ids) = Some id /\
    digit_run_value id = max_digit_run ids + 1 /\
    ~ In id ids.
Proof.
  cbv zeta. split; [vm_compute; reflexivity|].
  apply (nextMemberId_is_new ["M007"; "M001"]%string).
  vm_compute. reflexivity.
Defined.

Lemma nextMemberId_counts_on_witness :
  let ids := ["M007"; "M001"]%string in
  nextMemberId (map VStr ids) = Some "M008"%string /\
  nextMemberId (map VStr ("M008"%string :: ids)) = Some "M009"%string.
Proof.
  cbv zeta. split; [vm_compute; reflexivity|].
  refine (eq_trans
            (@nextMemberId_counts_on ["M007"; "M001"]%string "M008" _ _) _);
    vm_compute; reflexivity.
Defined.

Lemma nextMemberId_ignores_order_witness :
  sort_by_member_id [Sample.ann; Sample.bob] = [Sample.bob; Sample.ann] /\
  nextMemberId (map m_member_id (sort_by_member_id [Sample.ann; Sample.bob]))
  = nextMemberId (map m_member_id [Sample.ann; Sample.bob]).
Proof.
  split; [reflexivity|].
  apply (@nextMemberId_ignores_order [Sample.ann; Sample.bob]
           sort_by_member_id).
  apply perm_swap.
Defined.

Lemma createProduct_invalid_makes_no_call_witness :
  let b := VObj [("name", VStr "Ink"); ("sku", VStr "I-1");
                 ("category", VStr "Office"); ("stock", VStr "3");
                 ("price", vint 2); ("reorderPoint", vint 1)] in
  Catalog.product_types_invalid b = true /\
  exists error,
    Catalog.createProduct sql_eq Stockroom.same_key no_fault b
      (Catalog.opened Sample.shop 2)
    = (Ret (Catalog.Failure 400 error), Catalog.opened Sample.shop 2).
Proof.
  cbv zeta. split; [reflexivity|].
  apply createProduct_invalid_makes_no_call; [reflexivity|].
  right. reflexivity.
Defined.

Lemma createProduct_rejects_zero_reorder_point_witness :
  field (Stockroom.ink 0) "reorderPoint" = vint 0 /\
  Catalog.createProduct sql_eq Stockroom.same_key no_fault (Stockroom.ink 0)
    (Catalog.opened Sample.shop 2)
  = (Ret (Catalog.Failure 400 "Missing required fields"),
     Catalog.opened Sample.shop 2).
Proof.
  split; [reflexivity|].
  exact (@createProduct_rejects_zero_reorder_point sql_eq Stockroom.same_key
           no_fault (Stockroom.ink 0) Sample.shop 2 (inject_Z 0)
           eq_refl eq_refl eq_refl).
Defined.

Lemma createProduct_refuses_known_sku_witness :
  Catalog.items_with_sku Stockroom.same_key
    (field Stockroom.second_pen "sku") Sample.shop = [Sample.pen] /\
  let (r, s) :=
    Catalog.createProduct sql_eq Stockroom.same_key no_fault
      Stockroom.second_pen (Catalog.opened Sample.shop 2) in
  r = Ret (Catalog.Failure 400 "SKU already exists") /\
  Catalog.stored s = Sample.shop /\ Catalog.made s = 1%nat /\
  Catalog.next_item_id s = 2.
Proof.
  split; [reflexivity|].
  exact (@createProduct_refuses_known_sku sql_eq Stockroom.same_key no_fault
           Stockroom.second_pen Sample.shop 2 Sample.pen []
           eq_refl eq_refl eq_refl eq_refl eq_refl).
Defined.

Lemma createProduct_inserts_witness :
  let b := Stockroom.ink 3 in
  Catalog.product_fields_missing b = false /\
  Catalog.product_types_invalid b = false /\
  Catalog.items_with_sku Stockroom.same_key (field b "sku") Sample.shop = [] /\
  let (r, s) :=
    Catalog.createProduct sql_eq Stockroom.same_key no_fault b
      (Catalog.opened Sample.shop 2) in
  Catalog.stored s
  = Catalog.add_item (Catalog.product_row 2 b) Sample.shop /\
  inv_stock (Catalog.product_row 2 b) = vint 0 /\
  (exists row, r = Ret (Catalog.Item 201 row)) /\
  (sql_eq inventory_id (vint 2) (vint 2) = true ->
   Catalog.items_with_id sql_eq (vint 2) Sample.shop = [] ->
   r = Ret (Catalog.Item 201 (Some (Catalog.product_row 2 b)))).
Proof.
  cbv zeta. split; [reflexivity|]. split; [reflexivity|].
  split; [reflexivity|].
  exact (@createProduct_inserts sql_eq Stockroom.same_key no_fault
           (Stockroom.ink 3) Sample.shop 2
           eq_refl eq_refl eq_refl eq_refl eq_refl eq_refl eq_refl).
Defined.

Lemma createProduct_500_keeps_product_witness :
  let fails := Stockroom.fault_at 2 in
  fails 2%nat = true /\
  let (r, s) :=
    Catalog.createProduct sql_eq Stockroom.same_key fails (Stockroom.ink 3)
      (Catalog.opened Sample.shop 2) in
  r = Ret (Catalog.Failure 500 "Failed to create product") /\
  Catalog.stored s
  = Catalog.add_item (Catalog.product_row 2 (Stockroom.ink 3)) Sample.shop.
Proof.
  cbv zeta. split; [reflexivity|].
  exact (@createProduct_500_keeps_product sql_eq Stockroom.same_key
           (Stockroom.fault_at 2) (Stockroom.ink 3) Sample.shop 2
           eq_refl eq_refl eq_refl eq_refl eq_refl eq_refl eq_refl).
Defined.

Lemma deleteProduct_removes_item_and_history_witness :
  Catalog.items_with_id sql_eq (VStr "1") Stockroom.counted = [Sample.pen] /\
  let s :=
    snd (Catalog.deleteProduct sql_eq Stockroom.same_key no_fault "1"
           (Catalog.opened Stockroom.counted 2)) in
  inventory (Catalog.stored s) = [] /\
  stock_history (Catalog.stored s) = [] /\
  Catalog.items_with_id sql_eq (VStr "1") (Catalog.stored s) = [].
Proof.
  split; [reflexivity|]. cbv zeta.
  split; [reflexivity|]. split; [reflexivity|].
  assert (Hex : Catalog.items_with_id sql_eq (VStr "1") Stockroom.counted
                <> []) by discriminate.
  pose proof (@deleteProduct_removes_item_and_history sql_eq
                Stockroom.same_key no_fault "1" Stockroom.counted 2
                (fun _ => eq_refl) Hex) as H.
  destruct (Catalog.deleteProduct sql_eq Stockroom.same_key no_fault "1"
              (Catalog.opened Stockroom.counted 2)) as [r s].
  exact (proj1 (proj2 H)).
Defined.

Lemma deleteProduct_unknown_keeps_history_witness :
  Catalog.items_with_id sql_eq (VStr "9") Stockroom.counted = [] /\
  let (r, s) :=
    Catalog.deleteProduct sql_eq Stockroom.same_key no_fault "9"
      (Catalog.opened Stockroom.counted 2) in
  r = Ret (Catalog.Failure 404 "Product not found") /\
  Catalog.stored s = Stockroom.counted /\ Catalog.txn s = None /\
  Catalog.handed_back s = true.
Proof.
  split; [reflexivity|].
  exact (@deleteProduct_unknown_keeps_history sql_eq Stockroom.same_key
           no_fault "9" Stockroom.counted 2
           eq_refl eq_refl eq_refl eq_refl eq_refl eq_refl).
Defined.

Lemma uploadImage_stores_image_witness :
  let run :=
    Catalog.uploadImage sql_eq no_fault "1" (Some Stockroom.image)
      (Catalog.opened Sample.shop 2) in
  fst run = Ret (Catalog.Message "Image uploaded successfully") /\
  map inv_stock (inventory (Catalog.stored (snd run))) = [vint 5].
Proof.
  cbv zeta.
  pose proof (@uploadImage_stores_image sql_eq no_fault "1" (VStr "bytes")
                (VStr "image/png") Sample.shop 2 eq_refl) as H.
  change (Some (VStr "bytes", VStr "image/png"))
    with (Some Stockroom.image) in H.
  destruct (Catalog.uploadImage sql_eq no_fault "1" (Some Stockroom.image)
              (Catalog.opened Sample.shop 2)) as [r s].
  destruct H as (Hr & _ & _ & _ & Hs & _).
  split; [exact Hr|exact Hs].
Defined.

Lemma updateMember_missing_field_is_500_witness :
  member_fields_missing Sample.no_tier = true /\
  Catalog.updateMember sql_eq no_fault "M007" Sample.no_tier
    (Catalog.opened Sample.shop 2)
  = (Ret (Catalog.Failure 500 "Failed to update member"),
     Catalog.opened Sample.shop 2).
Proof.
  split; [reflexivity|].
  exact (@updateMember_missing_field_is_500 sql_eq no_fault "M007"
           Sample.no_tier Sample.shop 2 eq_refl eq_refl).
Defined.

Lemma updateMember_changes_contact_only_witness :
  let run :=
    Catalog.updateMember sql_eq no_fault "M007" Stockroom.dee
      (Catalog.opened Sample.shop 2) in
  member_fields_missing Stockroom.dee = false /\
  map m_points (members (Catalog.stored (snd run))) = [vint 100; vint 0] /\
  map m_member_id (members (Catalog.stored (snd run)))
  = [VStr "M007"; VStr "M001"].
Proof.
  cbv zeta. split; [reflexivity|].
  pose proof (@updateMember_changes_contact_only sql_eq no_fault "M007"
                Stockroom.dee Sample.shop 2 eq_refl eq_refl eq_refl eq_refl)
    as H.
  destruct (Catalog.updateMember sql_eq no_fault "M007" Stockroom.dee
              (Catalog.opened Sample.shop 2)) as [r s].
  destruct H as (Hids & Hpoints & _).
  split; [exact Hpoints|exact Hids].
Defined.

Lemma getMember_needs_tier_row_witness :
  Catalog.members_with_id sql_eq (VStr "M001") Sample.shop = [Sample.bob] /\
  fst (Catalog.getMember sql_eq no_fault "M001"
         (Catalog.opened Sample.shop 2))
  = Ret (Catalog.Failure 404 "Member not found") /\
  exists rows,
    fst (Catalog.getMembers sql_eq sort_by_member_id no_fault
           (Catalog.opened Sample.shop 2)) = Ret (Catalog.Members rows) /\
    In (Sample.bob, VNull) rows.
Proof.
  split; [reflexivity|].
  apply (@getMember_needs_tier_row sql_eq sort_by_member_id no_fault "M001"
           Sample.shop 2 Sample.bob eq_refl).
  - left. reflexivity.
  - left. reflexivity.
  - intros m' t [<-|[]] [<-|[]]. reflexivity.
Defined.

Lemma successive_registrations_differ_witness :
  let register b x k :=
    committed (snd (createMember sql_eq sort_by_member_id Sample.today
                      no_fault b (fresh x k))) in
  map m_member_id (members Sample.shop) = map VStr ["M007"; "M001"]%string /\
  exists id1 id2,
    members (register Stockroom.eve (register Stockroom.dee Sample.shop 10)
               11)
    = members Sample.shop ++ [new_member Sample.today id1 Stockroom.dee;
                              new_member Sample.today id2 Stockroom.eve] /\
    id1 <> id2 /\ ~ In id1 ["M007"; "M001"]%string /\
    ~ In id2 ["M007"; "M001"]%string.
Proof.
  cbv zeta. split; [reflexivity|].
  refine (@successive_registrations_differ sql_eq sort_by_member_id
            Sample.today no_fault Stockroom.dee Stockroom.eve Sample.shop
            10 11 ["M007"; "M001"]%string sort_by_member_id_permutation
            eq_refl _ eq_refl eq_refl eq_refl eq_refl (fun _ => eq_refl)).
  vm_compute. reflexivity.
Defined.

Lemma created_product_is_found_witness :
  Stockroom.by_number inventory_id (vint 2) (VStr "2") = true /\
  Catalog.items_with_id Stockroom.by_number (VStr "2") Sample.shop = [] /\
  let after :=
    Catalog.stored
      (snd (Catalog.createProduct Stockroom.by_number Stockroom.same_key
              no_fault (Stockroom.ink 3) (Catalog.opened Sample.shop 2))) in
  fst (Catalog.getItem Stockroom.by_number no_fault "2"
         (Catalog.opened after 3))
  = Ret (Catalog.Item 200 (Some (Catalog.product_row 2 (Stockroom.ink 3)))).
Proof.
  split; [vm_compute; reflexivity|]. split; [vm_compute; reflexivity|].
  refine (@created_product_is_found Stockroom.by_number Stockroom.same_key
            no_fault (Stockroom.ink 3) Sample.shop 2 3 "2"
            eq_refl eq_refl eq_refl eq_refl eq_refl eq_refl eq_refl _ _);
    vm_compute; reflexivity.
Defined.

Lemma deleted_product_is_not_found_witness :
  Catalog.items_with_id sql_eq (VStr "1") Stockroom.counted = [Sample.pen] /\
  let after :=
    Catalog.stored
      (snd (Catalog.deleteProduct sql_eq Stockroom.same_key no_fault "1"
              (Catalog.opened Stockroom.counted 2))) in
  fst (Catalog.getItem sql_eq no_fault "1" (Catalog.opened after 2))
  = Ret (Catalog.Failure 404 "Item not found").
Proof.
  split; [reflexivity|].
  refine (@deleted_product_is_not_found sql_eq Stockroom.same_key no_fault
            "1" Stockroom.counted 2 2 (fun _ => eq_refl) _).
  discriminate.
Defined.

(** ** Routes that never run *)
Section Shadowed.
Variable same : string -> string -> bool.

Ltac split_same :=
  repeat match goal with
         | |- context [same ?a ?b] => destruct (same a b) eqn:?; cbn
         | |- context [String.eqb ?a ?b] => destruct (String.eqb a b) eqn:?; cbn
         end.

Ltac in_texts := cbn; repeat (first [left; reflexivity | right]).

Ltac two_texts Hone :=
  match goal with
  | H1 : same ?s ?a = true, H2 : same ?s ?b = true |- _ =>
      let E := fresh in
      assert (E : a = b)
        by (apply (Hone s a b); [in_texts|in_texts|exact H1|exact H2]);
      discriminate E
  end.

Ltac empty_segment :=
  match goal with
  | H : String.eqb ?s "" = true |- _ =>
      apply String.eqb_eq in H; subst s; congruence
  end.

(** Whatever the comparison of segments, as long as it takes a segment
    for at most one of the texts of the table and the empty segment not
    for [search]. *)
Lemma shadowed_for (v : Routes.verb) (path : list string) (r : Routes.route) :
  (forall s a b, In a Routes.texts -> In b Routes.texts ->
                 same s a = true -> same s b = true -> a = b) ->
  same "" "search" = false ->
  Routes.dispatch same v path = Some r ->
  Routes.line r <> 470%nat /\ Routes.line r <> 56%nat /\
  (v = Routes.GET ->
   Routes.matches same
     [Routes.Lit "api"; Routes.Lit "members"; Routes.Lit "search"] path
   = true ->
   Routes.line r = 318%nat).
Proof.
  intros Hone Hempty. unfold Routes.dispatch, Routes.routes.
  destruct path as [|s1 [|s2 [|s3 [|s4 [|s5 rest]]]]];
    destruct v; cbn; split_same;
    intros H; try discriminate H;
    try two_texts Hone; try empty_segment;
    injection H as <-; cbn;
    (split; [discriminate|]); (split; [discriminate|]);
    intros E1 E2; try discriminate E1; try discriminate E2;
    reflexivity.
Qed.

End Shadowed.

Lemma fold_case_one_text a b :
  In a Routes.texts -> In b Routes.texts ->
  Routes.fold_case a = Routes.fold_case b -> a = b.
Proof.
  unfold Routes.texts. cbn [In]. intros Ha Hb E.
  repeat match goal with
         | H : _ \/ _ |- _ => destruct H as [<-|H]
         | H : False |- _ => destruct H
         end;
    first [reflexivity | vm_compute in E; discriminate E].
Qed.

Lemma same_ci_one_text s a b :
  In a Routes.texts -> In b Routes.texts ->
  Routes.same_ci s a = true -> Routes.same_ci s b = true -> a = b.
Proof.
  unfold Routes.same_ci. intros Ha Hb H1 H2.
  apply String.eqb_eq in H1, H2.
  apply fold_case_one_text; [assumption|assumption|congruence].
Qed.

(** X30. Two handlers of the file can never run.  The route
    GET /api/members/search (line 470) is registered after
    GET /api/members/:id (line 318), whose parameter takes the segment
    [search] as an identifier: every request the search route matches,
    in whatever case its letters are, is answered by the member lookup.
    The second GET /api/inventory (line 56) repeats the pattern of the
    first (line 41).  So no verb and path are dispatched to line 470 or
    to line 56. *)
Theorem search_route_is_shadowed (v : Routes.verb) (path : list string)
  (r : Routes.route) :
  Routes.route_of v path = Some r ->
  Routes.line r <> 470%nat /\ Routes.line r <> 56%nat /\
  (v = Routes.GET ->
   Routes.matches Routes.same_ci
     [Routes.Lit "api"; Routes.Lit "members"; Routes.Lit "search"] path
   = true ->
   Routes.line r = 318%nat).
Proof.
  unfold Routes.route_of. apply shadowed_for.
  - apply same_ci_one_text.
  - reflexivity.
Qed.

Lemma search_route_is_shadowed_witness :
  let path := ["api"; "Members"; "SEARCH"] in
  let lookup :=
    Routes.mkRoute Routes.GET
      [Routes.Lit "api"; Routes.Lit "members"; Routes.Param "id"] 318 in
  Routes.route_of Routes.GET path = Some lookup /\
  Routes.matches Routes.same_ci
    [Routes.Lit "api"; Routes.Lit "members"; Routes.Lit "search"] path
  = true /\
  Routes.line lookup <> 470%nat.
Proof.
  cbv zeta. split; [reflexivity|]. split; [reflexivity|].
  apply (@search_route_is_shadowed Routes.GET ["api"; "Members"; "SEARCH"]
           (Routes.mkRoute Routes.GET
              [Routes.Lit "api"; Routes.Lit "members"; Routes.Param "id"]
              318) eq_refl).
Defined.
